(** * faad2-wasm: the Node.js decoder wrapper and the lab scripts

    A shallow embedding of the JavaScript that surrounds the FAAD2
    WebAssembly engine:

    - [FAAD2NodeDecoder] ([pkg/faad2_node_decoder.js]): [_extractASC],
      [_stripADTS], [configure], [decode], [decodeInt16], [decodePlanar],
      [reset], [destroy];
    - [parseADTS] and the decode loop ([pkg/lab/test_heaac_v2.js]), the
      decode loop of [pkg/lab/test_heaac.js];
    - the ASC synthesis from a codec string, the [esds] descriptor
      reader, the boxes of [MP4Parser], [createWAVHeader] and the
      conversion to 16 bits ([pkg/lab/decode_mp4_complete.js]).

    The engine itself ([_init_decoder], [_decode_frame]) and the allocator's
    choice of addresses are parameters of the development. *)

From Stdlib Require Import ZArith QArith Qround Lia Bool String Ascii.
From Stdlib Require Import Strings.Byte.
From stdpp Require Import base option list gmap strings pretty.

Local Open Scope Z_scope.

(** ** JavaScript numbers and operators *)

Module JS.

(** [ToInt32] and [ToUint32] of an integral Number. *)
Definition toInt32 (z : Z) : Z := (z + 2 ^ 31) mod 2 ^ 32 - 2 ^ 31.
Definition toUint32 (z : Z) : Z := z mod 2 ^ 32.

(** [a << n], [a >> n], [a >>> n], [a | b], [a & b]. *)
Definition shl (a n : Z) : Z := toInt32 (Z.shiftl (toInt32 a) (toUint32 n mod 32)).
Definition shr (a n : Z) : Z := Z.shiftr (toInt32 a) (toUint32 n mod 32).
Definition ushr (a n : Z) : Z := Z.shiftr (toUint32 a) (toUint32 n mod 32).
Definition bor (a b : Z) : Z := Z.lor (toInt32 a) (toInt32 b).
Definition band (a b : Z) : Z := Z.land (toInt32 a) (toInt32 b).

(** A Number that need not be an integer: the results of [/], the
    elements of a [Float32Array], the arguments of [Math.min] and
    [Math.max].  Finite values are kept as exact rationals; the sign of
    zero is not tracked. *)
Inductive num : Type :=
| NaN
| PInf
| NInf
| Fin (q : Q).

Definition of_Z (z : Z) : num := Fin (inject_Z z).

(** [a / b] on integral Numbers.  The quotient is kept exact (and in
    lowest terms); a double differs from it by rounding only when [b]
    does not divide [a], and then lies strictly between the same two
    integers for the operands met here (below [2^24] and [16]). *)
Definition div (a b : Z) : num :=
  if b =? 0 then
    if a =? 0 then NaN else if 0 <? a then PInf else NInf
  else Fin (Qred (inject_Z a / inject_Z b)).

(** [Math.min(a, b)] and [Math.max(a, b)]. *)
Definition min (a b : num) : num :=
  match a, b with
  | NaN, _ | _, NaN => NaN
  | NInf, _ | _, NInf => NInf
  | PInf, x | x, PInf => x
  | Fin p, Fin q => if Qle_bool p q then Fin p else Fin q
  end.

Definition max (a b : num) : num :=
  match a, b with
  | NaN, _ | _, NaN => NaN
  | PInf, _ | _, PInf => PInf
  | NInf, x | x, NInf => x
  | Fin p, Fin q => if Qle_bool p q then Fin q else Fin p
  end.

(** [a * k] for a finite non-zero integral [k].  The product is kept
    exact, as the double is for the operands met here: a float32 has 24
    significant bits and 32767 has 15. *)
Definition scale (a : num) (k : Z) : num :=
  match a with
  | NaN => NaN
  | PInf => if 0 <? k then PInf else NInf
  | NInf => if 0 <? k then NInf else PInf
  | Fin q => Fin (q * inject_Z k)
  end.

(** Truncation towards zero of a rational. *)
Definition trunc (q : Q) : Z := Z.quot (Qnum q) (Z.pos (Qden q)).

(** [ToInt16], applied when a Number is stored into an [Int16Array]. *)
Definition toInt16 (a : num) : Z :=
  match a with
  | NaN | PInf | NInf => 0
  | Fin q => (trunc q + 2 ^ 15) mod 2 ^ 16 - 2 ^ 15
  end.

(** [ToIndex], applied to the length given to a typed-array
    constructor; [None] is the [RangeError]. *)
Definition toIndex (a : num) : option nat :=
  match a with
  | NaN => Some 0%nat
  | PInf | NInf => None
  | Fin q =>
      let i := trunc q in
      if (i <? 0) || (2 ^ 53 - 1 <? i) then None else Some (Z.to_nat i)
  end.

(** The number of [i = 0, 1, 2, ...] with [i < a], for a loop
    [for (let i = 0; i < a; i++)]; [None] when there is no last one. *)
Definition count_below (a : num) : option nat :=
  match a with
  | NaN | NInf => Some 0%nat
  | PInf => None
  | Fin q => Some (Z.to_nat (Qceiling q))
  end.

End JS.

(** ** Bytes and buffers *)

Definition Buffer := list byte.

Definition b2z (b : byte) : Z := Z.of_N (Byte.to_N b).

(** [ToUint8], applied when a Number is stored into a [Buffer] or a
    [Uint8Array]. *)
Definition z2b (z : Z) : byte :=
  match Byte.of_N (Z.to_N (z mod 256)) with
  | Some b => b
  | None => x00
  end.

(** [data[i]] inside a bitwise operator: an index outside the buffer reads
    [undefined], which the operator turns into [0]. *)
Definition byteAt (data : Buffer) (i : Z) : Z :=
  if i <? 0 then 0
  else match data !! Z.to_nat i with
       | Some b => b2z b
       | None => 0
       end.

(** [data.slice(start, end)]: a negative index counts from the end, and
    both are clamped to the buffer. *)
Definition relative_index (len i : Z) : Z :=
  if i <? 0 then Z.max (len + i) 0 else Z.min i len.

Definition slice {A : Type} (data : list A) (start stop : Z) : list A :=
  let len := Z.of_nat (length data) in
  let s := relative_index len start in
  let e := relative_index len stop in
  take (Z.to_nat (e - s)) (drop (Z.to_nat s) data).

(** [data.slice(start)]. *)
Definition slice_from {A : Type} (data : list A) (start : Z) : list A :=
  slice data start (Z.of_nat (length data)).

(** [Buffer.alloc(n)]. *)
Definition Buffer_alloc (n : nat) : Buffer := replicate n x00.

(** What a call does: it returns a value or throws. *)
Inductive error : Type :=
| Error (message : string)
| RangeError
| TypeError.

Inductive outcome (A : Type) : Type :=
| Returned (a : A)
| Threw (e : error).
Arguments Returned {A} a.
Arguments Threw {A} e.

(** [arr[i]] where a Number is expected: outside the array it is
    [undefined], which becomes [NaN]. *)
Definition element (arr : list JS.num) (i : Z) : JS.num :=
  if i <? 0 then JS.NaN
  else match arr !! Z.to_nat i with
       | Some v => v
       | None => JS.NaN
       end.

(** [for (let i = 0; i < n; i++) body(i)] over a state. *)
Fixpoint for_upto {S : Type} (n : nat) (body : nat -> S -> S) (s : S) : S :=
  match n with
  | O => s
  | Datatypes.S k => body k (for_upto k body s)
  end.

(** The same loop with a body that may throw. *)
Fixpoint for_upto_try {S : Type} (n : nat) (body : nat -> S -> outcome S) (s : S)
  : outcome S :=
  match n with
  | O => Returned s
  | Datatypes.S k =>
      match for_upto_try k body s with
      | Returned s' => body k s'
      | Threw e => Threw e
      end
  end.

(** ** The WebAssembly module seen from JavaScript *)

(** Linear memory: [HEAPU8] (an address that was never written reads as
    zero) and the length of [HEAPU8.buffer]. *)
Record Memory : Type := {
  HEAPU8 : gmap Z byte;
  byteLength : Z;
}.

(** The module instance, with a ledger of the blocks obtained through
    [_malloc] and not yet given back through [_free]: address and size. *)
Record WasmModule : Type := {
  memory : Memory;
  allocated : list (Z * Z);
}.

Definition peek (h : gmap Z byte) (a : Z) : byte := default x00 (h !! a).

Definition read_bytes (h : gmap Z byte) (a : Z) (n : nat) : Buffer :=
  map (fun i => peek h (a + Z.of_nat i)) (seq 0 n).

Fixpoint write_bytes (h : gmap Z byte) (a : Z) (src : Buffer) : gmap Z byte :=
  match src with
  | [] => h
  | b :: rest => write_bytes (<[a := b]> h) (a + 1) rest
  end.

(** The IEEE 754 binary32 value held in four bytes, little-endian. *)
Definition pow2 (k : Z) : Q :=
  if 0 <=? k then inject_Z (2 ^ k) else 1 # Z.to_pos (2 ^ (- k)).

Definition f32_of_bits (bits : Z) : JS.num :=
  let sign := bits / 2 ^ 31 in
  let e := (bits / 2 ^ 23) mod 2 ^ 8 in
  let mant := bits mod 2 ^ 23 in
  let signed (m : Z) := if sign =? 0 then m else - m in
  if e =? 255 then
    if mant =? 0 then (if sign =? 0 then JS.PInf else JS.NInf) else JS.NaN
  else if e =? 0 then JS.Fin (Qred (inject_Z (signed mant) * pow2 (-149)))
  else JS.Fin (Qred (inject_Z (signed (2 ^ 23 + mant)) * pow2 (e - 150))).

Definition f32_at (h : gmap Z byte) (a : Z) : JS.num :=
  f32_of_bits (b2z (peek h a) + 2 ^ 8 * b2z (peek h (a + 1))
               + 2 ^ 16 * b2z (peek h (a + 2)) + 2 ^ 24 * b2z (peek h (a + 3))).

(** Removal of the first block that starts at [p]. *)
Fixpoint release (p : Z) (l : list (Z * Z)) : list (Z * Z) :=
  match l with
  | [] => []
  | (q, n) :: rest => if q =? p then rest else (q, n) :: release p rest
  end.

(** State and exceptions, over any state. *)
Definition M (S A : Type) : Type := S -> outcome A * S.

Definition ret {S A : Type} (a : A) : M S A := fun s => (Returned a, s).
Definition throw {S A : Type} (e : error) : M S A := fun s => (Threw e, s).
Definition bind {S A B : Type} (c : M S A) (k : A -> M S B) : M S B :=
  fun s => match c s with
           | (Returned a, s') => k a s'
           | (Threw e, s') => (Threw e, s')
           end.

Definition lift {S A : Type} (o : outcome A) : M S A := fun s => (o, s).

Notation "'let*' x ':=' c 'in' k" := (bind c (fun x => k))
  (at level 10, x pattern, c at level 100, k at level 200).

(** The table of [faad2_node_decoder.js]. *)
Definition SAMPLE_RATE : gmap Z Z :=
  list_to_map [(1, 8000); (2, 16000); (3, 22050); (4, 32000); (5, 44100);
               (6, 48000); (7, 64000); (8, 88200); (9, 96000)].

(** What [decode] and [decodeInt16] return ([A] is the element type of
    [pcm]), and what [decodePlanar] returns. *)
Record DecodeResult (A : Type) : Type := {
  pcm : list A;
  sampleRate : Z;
  channels : Z;
  samplesPerChannel : JS.num;
}.
Arguments pcm {A} _.
Arguments sampleRate {A} _.
Arguments channels {A} _.
Arguments samplesPerChannel {A} _.

Module Planar.
Record result : Type := {
  channelData : list (list JS.num);
  sampleRate : Z;
  channels : Z;
}.
End Planar.

(** The fields of a [FAAD2NodeDecoder]. *)
Record FAAD2NodeDecoder : Type := {
  this_module : option WasmModule;
  this_initialized : bool;
  this_sampleRate : Z;
  this_channels : Z;
}.

(** [_extractASC(aacData)]. *)
Definition _extractASC (aacData : Buffer) : outcome Buffer :=
  let from_first_bytes :=
    if (2 <=? length aacData)%nat then Returned (slice aacData 0 2)
    else Threw (Error "Unable to extract AudioSpecificConfig") in
  if (7 <=? length aacData)%nat then
    let syncword := JS.bor (JS.shl (byteAt aacData 0) 4) (JS.shr (byteAt aacData 1) 4) in
    if syncword =? 0xFFF then
      let profile := JS.band (JS.shr (byteAt aacData 2) 6) 0x03 + 1 in
      let sampleRateIndex := JS.band (JS.shr (byteAt aacData 2) 2) 0x0F in
      let channelConfig :=
        JS.bor (JS.shl (JS.band (byteAt aacData 2) 0x01) 2)
               (JS.band (JS.shr (byteAt aacData 3) 6) 0x03) in
      let asc := Buffer_alloc 2 in
      let asc := <[0%nat := z2b (JS.bor (JS.shl profile 3) (JS.shr sampleRateIndex 1))]> asc in
      let asc := <[1%nat := z2b (JS.bor (JS.shl (JS.band sampleRateIndex 0x01) 7)
                                        (JS.shl channelConfig 3))]> asc in
      Returned asc
    else from_first_bytes
  else from_first_bytes.

(** [_stripADTS(aacData)]. *)
Definition _stripADTS (aacData : Buffer) : Buffer :=
  if (7 <=? length aacData)%nat then
    let syncword := JS.bor (JS.shl (byteAt aacData 0) 4) (JS.shr (byteAt aacData 1) 4) in
    if syncword =? 0xFFF then
      let protectionAbsent := JS.band (byteAt aacData 1) 0x01 in
      let headerSize := if protectionAbsent =? 0 then 9 else 7 in
      slice_from aacData headerSize
    else aacData
  else aacData.

(** ** The lab scripts *)

(** [s.split(sep)] for a separator of one character. *)
Fixpoint split_on (sep : ascii) (s : string) : list string :=
  match s with
  | EmptyString => [EmptyString]
  | String c rest =>
      let parts := split_on sep rest in
      if Ascii.eqb c sep then EmptyString :: parts
      else match parts with
           | p :: ps => String c p :: ps
           | [] => [String c EmptyString]
           end
  end.

(** [parseInt(s, 10)]: leading white space, an optional sign, then the
    longest run of decimal digits; [None] is [NaN].  (White space outside
    ASCII is not recognised, and the value is not rounded to a double.) *)
Definition is_white_space (c : ascii) : bool :=
  let n := N_of_ascii c in
  ((9 <=? n) && (n <=? 13))%N || (n =? 32)%N.

Fixpoint skip_white_space (s : string) : string :=
  match s with
  | String c rest => if is_white_space c then skip_white_space rest else s
  | EmptyString => s
  end.

Definition digit_value (c : ascii) : option Z :=
  let n := N_of_ascii c in
  if ((48 <=? n) && (n <=? 57))%N then Some (Z.of_N n - 48) else None.

Fixpoint parse_digits (s : string) (acc : option Z) : option Z :=
  match s with
  | EmptyString => acc
  | String c rest =>
      match digit_value c with
      | Some v => parse_digits rest (Some (10 * default 0 acc + v))
      | None => acc
      end
  end.

Definition parseInt (s : string) : option Z :=
  match skip_white_space s with
  | String "-" rest => Z.opp <$> parse_digits rest None
  | String "+" rest => parse_digits rest None
  | rest => parse_digits rest None
  end.

(** [ToInt32] of a Number that may be [NaN]. *)
Definition int_or_zero (n : option Z) : Z := default 0 n.

(** [l.indexOf(x)] on Numbers, with [===]. *)
Definition strict_eq (a b : JS.num) : bool :=
  match a, b with
  | JS.PInf, JS.PInf | JS.NInf, JS.NInf => true
  | JS.Fin p, JS.Fin q => Qeq_bool p q
  | _, _ => false
  end.

Fixpoint indexOf_from (l : list Z) (x : JS.num) (i : Z) : Z :=
  match l with
  | [] => -1
  | y :: rest => if strict_eq (JS.of_Z y) x then i else indexOf_from rest x (i + 1)
  end.

Definition indexOf (l : list Z) (x : JS.num) : Z := indexOf_from l x 0.

(** The table that the lab scripts declare. *)
Definition sampleRates : list Z :=
  [96000; 88200; 64000; 48000; 44100; 32000; 24000; 22050; 16000; 12000; 11025; 8000; 7350].

(** [extractAudioWithMP4Box], lines 99-147: the ASC made from the codec
    string of a track that carries none.  [None] is [audioConfig] left
    [null]. *)
Definition audioConfig_from_codec (codec : string) (sample_rate channel_count : Z)
  : option Buffer :=
  let codecParts := split_on "." codec in
  if (3 <=? length codecParts)%nat
     && String.eqb (nth 0 codecParts EmptyString) "mp4a"
     && String.eqb (nth 1 codecParts EmptyString) "40" then
    let objectType := parseInt (nth 2 codecParts EmptyString) in
    let sampleRate := sample_rate in
    let channels := channel_count in
    let sampleRateIndex := indexOf sampleRates (JS.of_Z sampleRate) in
    let sampleRateIndex := if sampleRateIndex =? -1 then 15 else sampleRateIndex in
    if bool_decide (objectType = Some 5) then
      let coreSampleRate := JS.div sampleRate 2 in
      let coreSampleRateIndex := indexOf sampleRates coreSampleRate in
      let coreSampleRateIndex := if coreSampleRateIndex =? -1 then 15 else coreSampleRateIndex in
      let audioConfig := Buffer_alloc 4 in
      let audioConfig :=
        <[0%nat := z2b (JS.bor (JS.shl (int_or_zero objectType) 3)
                               (JS.shr coreSampleRateIndex 1))]> audioConfig in
      let audioConfig :=
        <[1%nat := z2b (JS.bor (JS.bor (JS.shl (JS.band coreSampleRateIndex 0x1) 7)
                                       (JS.shl channels 3)) 0x04)]> audioConfig in
      let audioConfig := <[2%nat := z2b 0x56]> audioConfig in
      let audioConfig := <[3%nat := z2b (JS.bor 0xE5 (JS.shl sampleRateIndex 3))]> audioConfig in
      Some audioConfig
    else
      let audioConfig := Buffer_alloc 2 in
      let audioConfig :=
        <[0%nat := z2b (JS.bor (JS.shl (int_or_zero objectType) 3)
                               (JS.shr sampleRateIndex 1))]> audioConfig in
      let audioConfig :=
        <[1%nat := z2b (JS.bor (JS.shl (JS.band sampleRateIndex 0x1) 7)
                               (JS.shl channels 3))]> audioConfig in
      Some audioConfig
  else None.

(** [testMP4NativeDecode], lines 220-247: the ASC the decoder is
    configured with.  [None] is [finalASC] left undefined. *)
Definition finalASC (codec : string) (channel_count : Z) (audioConfig : option Buffer)
  : option Buffer :=
  if String.eqb codec "mp4a.40.5" then
    let channels := channel_count in
    let sampleRateIndex := 7 in
    let finalASC := Buffer_alloc 2 in
    let finalASC :=
      <[0%nat := z2b (JS.bor (JS.shl 2 3) (JS.shr sampleRateIndex 1))]> finalASC in
    let finalASC :=
      <[1%nat := z2b (JS.bor (JS.shl (JS.band sampleRateIndex 0x1) 7)
                             (JS.shl channels 3))]> finalASC in
    Some finalASC
  else audioConfig.

(** The two together, for a track without a configuration of its own:
    [testMP4NativeDecode] stops when [extractAudioWithMP4Box] made none. *)
Definition asc_from_codec (codec : string) (sample_rate channel_count : Z) : option Buffer :=
  match audioConfig_from_codec codec sample_rate channel_count with
  | None => None
  | Some audioConfig => finalASC codec channel_count (Some audioConfig)
  end.

(** The fields of a two-byte ASC: object type, frequency index, channel
    configuration. *)
Definition asc_fields (asc : Buffer) : Z * Z * Z :=
  let w := 256 * byteAt asc 0 + byteAt asc 1 in
  (w / 2 ^ 11, (w / 2 ^ 7) mod 2 ^ 4, (w / 2 ^ 3) mod 2 ^ 4).

(** What [parseADTS] returns. *)
Record AdtsHeader : Type := {
  syncword : Z;
  profile : Z;
  profileName : string;
  sampleRateIndex : Z;
  adts_sampleRate : option Z;
  channelConfig : Z;
  adts_channels : Z;
  frameLength : Z;
  headerSize : Z;
  protectionAbsent : Z;
  dataLength : Z;
}.

Definition profiles : list string :=
  [""; "AAC Main"; "AAC LC"; "AAC SSR"; "AAC LTP"; "HE-AAC"; "HE-AAC v2"]%string.

(** [l[i]] for an integral index: [None] is [undefined]. *)
Definition at_index {A : Type} (l : list A) (i : Z) : option A :=
  if i <? 0 then None else l !! Z.to_nat i.

(** The sync pattern read at [offset]. *)
Definition adts_syncword (data : Buffer) (offset : Z) : Z :=
  JS.bor (JS.shl (byteAt data offset) 4) (JS.shr (byteAt data (offset + 1)) 4).

(** [parseADTS(data, offset)]; [None] is [null]. *)
Definition parseADTS (data : Buffer) (offset : Z) : option AdtsHeader :=
  if Z.of_nat (length data) <? offset + 7 then None
  else
    let syncword := adts_syncword data offset in
    if negb (syncword =? 0xFFF) then None
    else
      let protectionAbsent := JS.band (byteAt data (offset + 1)) 0x01 in
      let profile := JS.band (JS.shr (byteAt data (offset + 2)) 6) 0x03 + 1 in
      let sampleRateIndex := JS.band (JS.shr (byteAt data (offset + 2)) 2) 0x0F in
      let channelConfig :=
        JS.bor (JS.shl (JS.band (byteAt data (offset + 2)) 0x01) 2)
               (JS.band (JS.shr (byteAt data (offset + 3)) 6) 0x03) in
      let frameLength :=
        JS.bor (JS.bor (JS.shl (JS.band (byteAt data (offset + 3)) 0x03) 11)
                       (JS.shl (byteAt data (offset + 4)) 3))
               (JS.band (JS.shr (byteAt data (offset + 5)) 5) 0x07) in
      let headerSize := if protectionAbsent =? 0 then 9 else 7 in
      Some {| syncword := syncword;
              profile := profile;
              profileName :=
                match at_index profiles profile with
                | Some (String c s) => String c s
                | _ => ("Profile " +:+ pretty profile)%string
                end;
              sampleRateIndex := sampleRateIndex;
              adts_sampleRate := at_index sampleRates sampleRateIndex;
              channelConfig := channelConfig;
              adts_channels := if channelConfig =? 7 then 8 else channelConfig;
              frameLength := frameLength;
              headerSize := headerSize;
              protectionAbsent := protectionAbsent;
              dataLength := frameLength - headerSize |}.

(** [MP4Parser]: a buffer and a read position. *)
Record MP4Parser : Type := {
  buffer : Buffer;
  offset : Z;
}.

(** [readUInt8()]: Node raises a [RangeError] outside the buffer. *)
Definition readUInt8 : M MP4Parser Z := fun p =>
  match at_index (buffer p) (offset p) with
  | Some b => (Returned (b2z b), {| buffer := buffer p; offset := offset p + 1 |})
  | None => (Threw RangeError, p)
  end.

(** [skip(length)] and [read(length)]. *)
Definition skip (length : Z) : M MP4Parser unit := fun p =>
  (Returned tt, {| buffer := buffer p; offset := offset p + length |}).

Definition read (length : Z) : M MP4Parser Buffer := fun p =>
  (Returned (slice (buffer p) (offset p) (offset p + length)),
   {| buffer := buffer p; offset := offset p + length |}).

(** The loop that reads the length of a descriptor,
    [do { byte = readUInt8(); size = (size << 7) | (byte & 0x7F) } while (byte & 0x80)],
    run over the bytes [rest] that lie at the read position: the result is
    the size and the number of bytes taken. *)
Fixpoint size_loop (rest : Buffer) (size : Z) (taken : Z) : outcome (Z * Z) :=
  match rest with
  | [] => Threw RangeError
  | b :: rest' =>
      let byte := b2z b in
      let size := JS.bor (JS.shl size 7) (JS.band byte 0x7F) in
      if JS.band byte 0x80 =? 0 then Returned (size, taken + 1)
      else size_loop rest' size (taken + 1)
  end.

Definition read_size : M MP4Parser Z := fun p =>
  if offset p <? 0 then (Threw RangeError, p)
  else match size_loop (drop (Z.to_nat (offset p)) (buffer p)) 0 0 with
       | Returned (size, taken) =>
           (Returned size, {| buffer := buffer p; offset := offset p + taken |})
       | Threw e =>
           (Threw e, {| buffer := buffer p;
                        offset := Z.max (offset p) (Z.of_nat (length (buffer p))) |})
       end.

(** [extractAudioFromMP4], lines 529-568: the ASC inside the payload of
    an [esds] box; [None] is [audioConfig] left [null]. *)
Definition esds_audioConfig (esds_data : Buffer) : outcome (option Buffer) :=
  fst ((let* _ := skip 4 in
        let* tag := readUInt8 in
        if tag =? 0x03 then
          let* size := read_size in
          let* _ := skip 3 in
          let* tag := readUInt8 in
          if tag =? 0x04 then
            let* size := read_size in
            let* _ := skip 13 in
            let* tag := readUInt8 in
            if tag =? 0x05 then
              let* size := read_size in
              let* audioConfig := read size in
              ret (Some audioConfig)
            else ret None
          else ret None
        else ret None) {| buffer := esds_data; offset := 0 |}).

(** The value of a descriptor length: the low seven bits of each byte,
    most significant first. *)
Definition concat7 (enc : Buffer) : Z :=
  fold_left (fun acc b => acc * 2 ^ 7 + b2z b mod 2 ^ 7) enc 0.

(** The high bit of a byte: another byte of the length follows. *)
Definition continues (b : byte) : Prop := 2 ^ 7 <= b2z b.

(** The fields of the status word of [_decode_frame]: bits 31-28, bits
    27-24 and bits 23-0. *)
Definition status_index (packed : Z) : Z := (packed mod 2 ^ 32) / 2 ^ 28.
Definition status_channels (packed : Z) : Z := ((packed mod 2 ^ 32) / 2 ^ 24) mod 2 ^ 4.
Definition status_samples (packed : Z) : Z := packed mod 2 ^ 24.

(** The rate that [SAMPLE_RATE] of [faad2_node_decoder.js] gives an
    index, and the rate that the table of the lab scripts gives it. *)
Definition node_rate (i : Z) : Z :=
  match i with
  | 1 => 8000 | 2 => 16000 | 3 => 22050 | 4 => 32000 | 5 => 44100
  | 6 => 48000 | 7 => 64000 | 8 => 88200 | 9 => 96000
  | _ => 0
  end.

Definition canonical_rate (i : Z) : Z := default 0 (at_index sampleRates i).


(** A length encoding that the reader turns down. *)
Definition length_rejected (enc : Buffer) : Prop :=
  forall size taken, size_loop enc 0 0 <> Returned (size, taken).

(** An ASC for implicit HE-AAC made at half the rate of the track. *)
Definition core_rate_is_halved (sample_rate channel_count : Z) : Prop :=
  exists asc,
    asc_from_codec "mp4a.40.5" sample_rate channel_count = Some asc /\
    length asc = 2%nat /\
    asc_fields asc = (2, indexOf sampleRates (JS.div sample_rate 2), channel_count).


(** A check of [P] on [0], ..., [n - 1]. *)
Definition all_below (n : nat) (P : Z -> bool) : bool :=
  forallb P (map Z.of_nat (seq 0 n)).

(** The two bytes that [_extractASC], [extractAudioWithMP4Box] and
    [testMP4NativeDecode] make of an object type, a frequency index and a
    channel configuration: [(type << 3) | (index >> 1)] and
    [((index & 1) << 7) | (channels << 3)]. *)
Definition asc_bytes (objectType sampleRateIndex channels : Z) : Buffer :=
  [z2b (JS.bor (JS.shl objectType 3) (JS.shr sampleRateIndex 1));
   z2b (JS.bor (JS.shl (JS.band sampleRateIndex 0x01) 7) (JS.shl channels 3))].

(** A string without a dot. *)
Fixpoint dot_free (s : string) : bool :=
  match s with
  | EmptyString => true
  | String c rest => negb (Ascii.eqb c ".") && dot_free rest
  end.

(** The frequency index that [extractAudioWithMP4Box] writes for a rate:
    its place in [sampleRates], or the escape value 15. *)
Definition rate_index (sample_rate : Z) : Z :=
  let i := indexOf sampleRates (JS.of_Z sample_rate) in
  if i =? -1 then 15 else i.

(** A parser whose read position lies between [pre] and [post]. *)
Definition parser_at (pre post : Buffer) : MP4Parser :=
  {| buffer := pre ++ post; offset := Z.of_nat (length pre) |}.

(** A descriptor length as it is encoded: bytes with the high bit set,
    then one without. *)
Definition length_encoding (enc : Buffer) : Prop :=
  exists cont last, enc = cont ++ [last] /\ Forall continues cont /\ ~ continues last.

(** [readUInt32()] and [readUInt16()], big-endian: Node raises a
    [RangeError] when the bytes do not all lie in the buffer. *)
Definition readUInt32 : M MP4Parser Z := fun p =>
  if (offset p <? 0) || (Z.of_nat (length (buffer p)) <? offset p + 4) then
    (Threw RangeError, p)
  else
    (Returned (2 ^ 24 * byteAt (buffer p) (offset p)
               + 2 ^ 16 * byteAt (buffer p) (offset p + 1)
               + 2 ^ 8 * byteAt (buffer p) (offset p + 2)
               + byteAt (buffer p) (offset p + 3)),
     {| buffer := buffer p; offset := offset p + 4 |}).

Definition readUInt16 : M MP4Parser Z := fun p =>
  if (offset p <? 0) || (Z.of_nat (length (buffer p)) <? offset p + 2) then
    (Threw RangeError, p)
  else
    (Returned (2 ^ 8 * byteAt (buffer p) (offset p) + byteAt (buffer p) (offset p + 1)),
     {| buffer := buffer p; offset := offset p + 2 |}).

(** [data.toString('ascii')]: the high bit of each byte is dropped. *)
Definition toString_ascii (data : Buffer) : string :=
  string_of_list_ascii (map (fun b => ascii_of_byte (z2b (b2z b mod 2 ^ 7))) data).

(** What [readBox] returns. *)
Record Box : Type := {
  box_type : string;
  box_size : Z;
  box_data : Buffer;
}.

(** [readBox()]; [None] is [null]. *)
Definition readBox : M MP4Parser (option Box) := fun p =>
  if Z.of_nat (length (buffer p)) <=? offset p then (Returned None, p)
  else
    (let* size := readUInt32 in
     let* type := read 4 in
     let* data := read (size - 8) in
     ret (Some {| box_type := toString_ascii type; box_size := size; box_data := data |})) p.

(** The loop of [findBox(type, data)], for at most [fuel] boxes: the outer
    [None] is a loop that has not ended by then. *)
Fixpoint findBox_loop (fuel : nat) (type : string) (parser : MP4Parser)
  : option (outcome (option Box)) :=
  match fuel with
  | O => None
  | S fuel' =>
      if offset parser <? Z.of_nat (length (buffer parser)) then
        match readBox parser with
        | (Returned (Some box), parser') =>
            if String.eqb (box_type box) type then Some (Returned (Some box))
            else findBox_loop fuel' type parser'
        | (Returned None, _) => Some (Returned None)
        | (Threw e, _) => Some (Threw e)
        end
      else Some (Returned None)
  end.

Definition findBox (fuel : nat) (type : string) (data : Buffer)
  : option (outcome (option Box)) :=
  findBox_loop fuel type {| buffer := data; offset := 0 |}.

(** [findBoxPath(types)] on the buffer [current]. *)
Fixpoint findBoxPath (fuel : nat) (types : list string) (current : Buffer)
  : option (outcome (option Buffer)) :=
  match types with
  | [] => Some (Returned (Some current))
  | type :: types' =>
      match findBox fuel type current with
      | None => None
      | Some (Threw e) => Some (Threw e)
      | Some (Returned None) => Some (Returned None)
      | Some (Returned (Some box)) => findBoxPath fuel types' (box_data box)
      end
  end.

(** A number in four bytes, most significant first, and a box as it lies
    in a file: its size, the four bytes of its type and its payload. *)
Definition be32 (n : Z) : Buffer :=
  [z2b (n / 2 ^ 24); z2b (n / 2 ^ 16); z2b (n / 2 ^ 8); z2b n].

Definition box_bytes (type payload : Buffer) : Buffer :=
  be32 (8 + Z.of_nat (length payload)) ++ type ++ payload.

(** Boxes of four-byte types that fit the 32-bit size field, none of them
    of the type [type]. *)
Definition boxes_fit (boxes : list (Buffer * Buffer)) : Prop :=
  Forall (fun b => length (fst b) = 4%nat /\ 8 + Z.of_nat (length (snd b)) < 2 ^ 32) boxes.

Definition none_of_type (type : string) (boxes : list (Buffer * Buffer)) : Prop :=
  Forall (fun b => toString_ascii (fst b) <> type) boxes.

Definition boxes_bytes (boxes : list (Buffer * Buffer)) : Buffer :=
  concat (map (fun b => box_bytes (fst b) (snd b)) boxes).

(** Boxes one inside the other, outermost type first, around [payload]. *)
Definition nested_bytes (types : list Buffer) (payload : Buffer) : Buffer :=
  fold_right box_bytes payload types.

(** ** [createWAVHeader] *)

(** [header.write(string, offset)] for a string of ASCII characters that
    fits: its bytes are stored from [offset] on. *)
Definition Buffer_write (s : string) (offset : nat) : M Buffer unit := fun buf =>
  (Returned tt, list_inserts offset (list_byte_of_string s) buf).

(** The bytes of a whole number, least significant first. *)
Definition le_bytes (width : nat) (value : Z) : Buffer :=
  map (fun i => z2b (value / 2 ^ (8 * Z.of_nat i))) (seq 0 width).

(** [header.writeUInt32LE(value, offset)] and
    [header.writeUInt16LE(value, offset)]: Node raises a [RangeError] for a
    value below 0 or above the largest one of the width, and stores the
    whole part of any other. *)
Definition in_range (width : nat) (value : Q) : bool :=
  Qle_bool 0 value && Qle_bool value (inject_Z (2 ^ (8 * Z.of_nat width) - 1)).

Definition writeUIntLE (width : nat) (value : Q) (offset : nat) : M Buffer unit := fun buf =>
  if in_range width value then
    (Returned tt, list_inserts offset (le_bytes width (JS.trunc value)) buf)
  else (Threw RangeError, buf).

Definition writeUInt32LE : Q -> nat -> M Buffer unit := writeUIntLE 4.
Definition writeUInt16LE : Q -> nat -> M Buffer unit := writeUIntLE 2.

(** [createWAVHeader(dataSize, sampleRate, channels, bitsPerSample)] on
    whole numbers.  The products are kept exact, as the doubles are
    wherever a field is written (below [2^32], in eighths); a product too
    large to be exact is out of range before and after rounding. *)
Definition createWAVHeader (dataSize sampleRate channels bitsPerSample : Z) : outcome Buffer :=
  let byteRate := (inject_Z sampleRate * inject_Z channels * (inject_Z bitsPerSample / 8))%Q in
  let blockAlign := (inject_Z channels * (inject_Z bitsPerSample / 8))%Q in
  let writes :=
    let* _ := Buffer_write "RIFF" 0 in
    let* _ := writeUInt32LE (inject_Z (36 + dataSize)) 4 in
    let* _ := Buffer_write "WAVE" 8 in
    let* _ := Buffer_write "fmt " 12 in
    let* _ := writeUInt32LE 16 16 in
    let* _ := writeUInt16LE 1 20 in
    let* _ := writeUInt16LE (inject_Z channels) 22 in
    let* _ := writeUInt32LE (inject_Z sampleRate) 24 in
    let* _ := writeUInt32LE byteRate 28 in
    let* _ := writeUInt16LE blockAlign 32 in
    let* _ := writeUInt16LE (inject_Z bitsPerSample) 34 in
    let* _ := Buffer_write "data" 36 in
    writeUInt32LE (inject_Z dataSize) 40 in
  match writes (Buffer_alloc 44) with
  | (Returned _, header) => Returned header
  | (Threw e, _) => Threw e
  end.

(** What [header.readUInt32LE(offset)] and [header.readUInt16LE(offset)]
    give for a header of 44 bytes. *)
Definition readUIntLE (width : nat) (header : Buffer) (offset : Z) : Z :=
  fold_right (fun i acc => byteAt header (offset + Z.of_nat i) + 256 * acc) 0 (seq 0 width).

Definition le_value (bytes : Buffer) : Z :=
  fold_right (fun b acc => b2z b + 256 * acc) 0 bytes.

(** The values for which every field of the header can be written. *)
Definition wav_fields_fit (dataSize sampleRate channels bitsPerSample : Z) : Prop :=
  0 <= dataSize <= 2 ^ 32 - 37 /\ 0 <= sampleRate < 2 ^ 32 /\
  0 <= channels < 2 ^ 16 /\ 0 <= bitsPerSample < 2 ^ 16 /\
  channels * bitsPerSample < 8 * 2 ^ 16 - 7 /\
  sampleRate * channels * bitsPerSample < 8 * 2 ^ 32 - 7.

(** ** Samples as 16-bit integers *)

(** What [decodeInt16] stores for a sample,
    [Math.max(-1, Math.min(1, x)) * 32767] as an [Int16Array] keeps it,
    in closed form. *)
Definition int16_of_sample (x : JS.num) : Z :=
  match x with
  | JS.NaN => 0
  | JS.PInf => 32767
  | JS.NInf => - 32767
  | JS.Fin q =>
      if Qle_bool 1 q then 32767
      else if Qle_bool (-1) q then JS.trunc (q * 32767) else - 32767
  end.

(** [s < 0] on a Number. *)
Definition negative (s : JS.num) : bool :=
  match s with
  | JS.NInf => true
  | JS.Fin q => negb (Qle_bool 0 q)
  | JS.NaN | JS.PInf => false
  end.

(** The conversion of the lab scripts,
    [s = Math.max(-1, Math.min(1, x)); pcm16[i] = s < 0 ? s * 0x8000 : s * 0x7FFF],
    and the loop around it. *)
Definition lab_int16 (x : JS.num) : Z :=
  let s := JS.max (JS.of_Z (-1)) (JS.min (JS.of_Z 1) x) in
  JS.toInt16 (if negative s then JS.scale s 0x8000 else JS.scale s 0x7FFF).

Definition lab_pcm16 (allPcm : list JS.num) : list Z :=
  for_upto (length allPcm)
    (fun i arr => <[i := lab_int16 (element allPcm (Z.of_nat i))]> arr)
    (replicate (length allPcm) 0).

(** An allocator and an engine to run the decoder on: the allocator hands
    out the end of linear memory and grows it; the engine answers a given
    status word and leaves given bytes in the output region, or answers a
    given result of initialisation. *)
Definition grow_malloc (mem : Memory) (n : Z) : Z * Memory :=
  (byteLength mem,
   {| HEAPU8 := HEAPU8 mem; byteLength := byteLength mem + 8 * ((n + 7) / 8) |}).
Definition keep_free (mem : Memory) (p : Z) : Memory := mem.
Definition answering_init (result : Z) (mem : Memory) (ascPtr len : Z) : Z * Memory :=
  (result, mem).
Definition answering_decode (packed : Z) (output : Buffer) (mem : Memory)
           (inPtr len outPtr outputSize : Z) : Z * Memory :=
  (packed, {| HEAPU8 := write_bytes (HEAPU8 mem) outPtr output;
              byteLength := byteLength mem |}).

(** The floats 1, -1, 0.5 and 2. *)
Definition four_samples : Buffer :=
  [x00; x00; x80; x3f; x00; x00; x80; xbf; x00; x00; x00; x3f; x00; x00; x00; x40].

Definition empty_module : WasmModule :=
  {| memory := {| HEAPU8 := ∅; byteLength := 65536 |}; allocated := [] |}.
Definition fresh_decoder : FAAD2NodeDecoder :=
  {| this_module := Some empty_module; this_initialized := false;
     this_sampleRate := 0; this_channels := 0 |}.
Definition ready_decoder : FAAD2NodeDecoder :=
  {| this_module := Some empty_module; this_initialized := true;
     this_sampleRate := 0; this_channels := 0 |}.

(** ** [FAAD2NodeDecoder] *)

Section Decoder.

(** The exports of the module: [_malloc] and [_free] as they act on
    linear memory, and the two entry points of the engine. *)
Variable malloc_fn : Memory -> Z -> Z * Memory.
Variable free_fn : Memory -> Z -> Memory.
Variable init_decoder_fn : Memory -> Z -> Z -> Z * Memory.
Variable decode_frame_fn : Memory -> Z -> Z -> Z -> Z -> Z * Memory.

(** [this.module._malloc(n)] and [this.module._free(p)]. *)
Definition _malloc (n : Z) : M WasmModule Z := fun m =>
  let (p, mem) := malloc_fn (memory m) n in
  (Returned p, {| memory := mem; allocated := (p, n) :: allocated m |}).

Definition _free (p : Z) : M WasmModule unit := fun m =>
  (Returned tt, {| memory := free_fn (memory m) p; allocated := release p (allocated m) |}).

(** [this.module._init_decoder(ascPtr, len)] and
    [this.module._decode_frame(inPtr, len, outPtr, outputSize)]. *)
Definition _init_decoder (ascPtr len : Z) : M WasmModule Z := fun m =>
  let (r, mem) := init_decoder_fn (memory m) ascPtr len in
  (Returned r, {| memory := mem; allocated := allocated m |}).

Definition _decode_frame (inPtr len outPtr outputSize : Z) : M WasmModule Z := fun m =>
  let (r, mem) := decode_frame_fn (memory m) inPtr len outPtr outputSize in
  (Returned r, {| memory := mem; allocated := allocated m |}).

(** [this.module.HEAPU8.set(src, offset)]. *)
Definition HEAPU8_set (src : Buffer) (offset : Z) : M WasmModule unit := fun m =>
  if (offset <? 0) || (byteLength (memory m) <? offset + Z.of_nat (length src)) then
    (Threw RangeError, m)
  else
    (Returned tt,
     {| memory := {| HEAPU8 := write_bytes (HEAPU8 (memory m)) offset src;
                     byteLength := byteLength (memory m) |};
        allocated := allocated m |}).

(** [this.module.HEAPU8.fill(value, start, end)]. *)
Definition HEAPU8_fill (value : Z) (start stop : Z) : M WasmModule unit := fun m =>
  let len := byteLength (memory m) in
  let s := relative_index len start in
  let e := relative_index len stop in
  (Returned tt,
   {| memory := {| HEAPU8 := write_bytes (HEAPU8 (memory m)) s
                               (replicate (Z.to_nat (e - s)) (z2b value));
                   byteLength := len |};
      allocated := allocated m |}).

(** [new Float32Array(this.module.HEAPU8.buffer, byteOffset, length).slice()]
    for an integral [length] that is not negative. *)
Definition Float32Array_slice (byteOffset length : Z) : M WasmModule (list JS.num) := fun m =>
  if (byteOffset <? 0) || negb (byteOffset mod 4 =? 0)
     || (byteLength (memory m) <? byteOffset + 4 * length) then
    (Threw RangeError, m)
  else
    (Returned (map (fun i => f32_at (HEAPU8 (memory m)) (byteOffset + 4 * Z.of_nat i))
                   (seq 0 (Z.to_nat length))), m).

(** A step on [this.module]; a [null] module has no properties. *)
Definition on_module {A : Type} (c : M WasmModule A) : M FAAD2NodeDecoder A := fun d =>
  match this_module d with
  | None => (Threw TypeError, d)
  | Some m =>
      let (r, m') := c m in
      (r, {| this_module := Some m'; this_initialized := this_initialized d;
             this_sampleRate := this_sampleRate d; this_channels := this_channels d |})
  end.

Definition set_initialized (b : bool) : M FAAD2NodeDecoder unit := fun d =>
  (Returned tt, {| this_module := this_module d; this_initialized := b;
                   this_sampleRate := this_sampleRate d; this_channels := this_channels d |}).
Definition set_sampleRate (v : Z) : M FAAD2NodeDecoder unit := fun d =>
  (Returned tt, {| this_module := this_module d; this_initialized := this_initialized d;
                   this_sampleRate := v; this_channels := this_channels d |}).
Definition set_channels (v : Z) : M FAAD2NodeDecoder unit := fun d =>
  (Returned tt, {| this_module := this_module d; this_initialized := this_initialized d;
                   this_sampleRate := this_sampleRate d; this_channels := v |}).

(** Lines 120-121 of [configure]: the ASC is copied into a block of its
    own length. *)
Definition stage_asc (asc : Buffer) : M WasmModule Z :=
  let* ascPtr := _malloc (Z.of_nat (length asc)) in
  let* _ := HEAPU8_set asc ascPtr in
  ret ascPtr.

(** Lines 120-131 of [configure]: the engine is initialised with [asc]. *)
Definition init_engine (asc : Buffer) : M FAAD2NodeDecoder unit :=
  let* ascPtr := on_module (stage_asc asc) in
  let* result := on_module (_init_decoder ascPtr (Z.of_nat (length asc))) in
  let* _ := on_module (_free ascPtr) in
  if result <? 0 then throw (Error "Failed to initialize FAAD2 decoder")
  else set_initialized true.

(** [configure(ascOrFirstFrame, autoDetect)]. *)
Definition configure (ascOrFirstFrame : Buffer) (autoDetect : bool)
  : M FAAD2NodeDecoder unit :=
  let* asc :=
    (if autoDetect && (2 <? length ascOrFirstFrame)%nat
     then lift (_extractASC ascOrFirstFrame)
     else ret ascOrFirstFrame) in
  init_engine asc.

(** Lines 153-166 of [decode]: both regions are obtained, the frame is
    copied in and padded, the engine is called and the input region is
    given back.  The result is the status word and the address of the
    output region. *)
Definition invoke_engine (rawAAC : Buffer) : M WasmModule (Z * Z) :=
  let inputLength := Z.of_nat (length rawAAC) in
  let pad := 64 in
  let* inPtr := _malloc (inputLength + pad) in
  let* _ := HEAPU8_set rawAAC inPtr in
  let* _ := HEAPU8_fill 0 (inPtr + inputLength) (inPtr + inputLength + pad) in
  let maxFrames := 2048 * 2 in
  let maxChannels := 2 in
  let maxSamples := maxFrames * maxChannels in
  let outputSize := maxSamples * 4 in
  let* outPtr := _malloc outputSize in
  let* packed := _decode_frame inPtr (Z.of_nat (length rawAAC)) outPtr outputSize in
  let* _ := _free inPtr in
  ret (packed, outPtr).

(** Lines 168-193 of [decode]: the status word is taken apart. *)
Definition finish_decode (packed outPtr : Z)
  : M FAAD2NodeDecoder (option (DecodeResult JS.num)) :=
  if packed <=? 0 then
    let* _ := on_module (_free outPtr) in
    ret None
  else
    let samplerateIndex := JS.band (JS.ushr packed 28) 0xf in
    let numChannels := JS.band (JS.ushr packed 24) 0xf in
    let samples := JS.band packed 0xffffff in
    let samplerate := default 0 (SAMPLE_RATE !! samplerateIndex) in
    let* _ := set_sampleRate samplerate in
    let* _ := set_channels numChannels in
    let numFrames := JS.div samples numChannels in
    let* pcm := on_module (Float32Array_slice outPtr samples) in
    let* _ := on_module (_free outPtr) in
    ret (Some {| pcm := pcm; sampleRate := samplerate; channels := numChannels;
                 samplesPerChannel := numFrames |}).

(** [decode(frameData)]. *)
Definition decode (frameData : Buffer)
  : M FAAD2NodeDecoder (option (DecodeResult JS.num)) := fun d =>
  if negb (bool_decide (is_Some (this_module d))) || negb (this_initialized d) then
    (Threw (Error "Decoder not initialized. Call configure() first."), d)
  else
    (let rawAAC := _stripADTS frameData in
     let* status := on_module (invoke_engine rawAAC) in
     finish_decode (fst status) (snd status)) d.

(** [decodeInt16(frameData)]. *)
Definition decodeInt16 (frameData : Buffer)
  : M FAAD2NodeDecoder (option (DecodeResult Z)) :=
  let* result := decode frameData in
  match result with
  | None => ret None
  | Some result =>
      let pcmInt16 := replicate (length (pcm result)) 0 in
      let pcmInt16 :=
        for_upto (length (pcm result))
          (fun i arr =>
             <[i := JS.toInt16
                      (JS.scale (JS.max (JS.of_Z (-1))
                                        (JS.min (JS.of_Z 1) (element (pcm result) (Z.of_nat i))))
                                32767)]> arr)
          pcmInt16 in
      ret (Some {| pcm := pcmInt16; sampleRate := sampleRate result;
                   channels := channels result;
                   samplesPerChannel := samplesPerChannel result |})
  end.

(** One turn of the outer loop of [decodePlanar]: the samples of
    channel [ch]. *)
Definition planar_channel (result : DecodeResult JS.num) (ch : nat)
  : outcome (list JS.num) :=
  match JS.toIndex (samplesPerChannel result), JS.count_below (samplesPerChannel result) with
  | Some len, Some n =>
      let channelSamples := replicate len (JS.of_Z 0) in
      Returned
        (for_upto n
           (fun i arr =>
              <[i := element (pcm result) (Z.of_nat i * channels result + Z.of_nat ch)]> arr)
           channelSamples)
  | _, _ => Threw RangeError
  end.

(** [decodePlanar(frameData)]. *)
Definition decodePlanar (frameData : Buffer)
  : M FAAD2NodeDecoder (option Planar.result) :=
  let* result := decode frameData in
  match result with
  | None => ret None
  | Some result =>
      let* channelData :=
        lift (for_upto_try (Z.to_nat (channels result))
                (fun ch acc =>
                   match planar_channel result ch with
                   | Returned channelSamples => Returned (acc ++ [channelSamples])
                   | Threw e => Threw e
                   end)
                []) in
      ret (Some {| Planar.channelData := channelData;
                   Planar.sampleRate := sampleRate result;
                   Planar.channels := channels result |})
  end.

(** [reset()]. *)
Definition reset : M FAAD2NodeDecoder unit := fun d =>
  (Returned tt, {| this_module := this_module d; this_initialized := false;
                   this_sampleRate := 0; this_channels := 0 |}).

(** [destroy()]. *)
Definition destroy : M FAAD2NodeDecoder unit := reset.

(** The ledger of a decoder whose module is loaded. *)
Definition outstanding (d : FAAD2NodeDecoder) : list (Z * Z) :=
  match this_module d with
  | Some m => allocated m
  | None => []
  end.

(** The status word that the engine answers in [decode(frameData)], when
    the call gets that far. *)
Definition packed_status (frameData : Buffer) (d : FAAD2NodeDecoder) : option Z :=
  if negb (bool_decide (is_Some (this_module d))) || negb (this_initialized d) then None
  else match on_module (invoke_engine (_stripADTS frameData)) d with
       | (Returned status, _) => Some (fst status)
       | (Threw _, _) => None
       end.

(** Calls of [decode] one after the other, each with a status word that
    is not positive. *)
Inductive no_output_run : FAAD2NodeDecoder -> list Buffer -> FAAD2NodeDecoder -> Prop :=
| run_done d : no_output_run d [] d
| run_step d frameData frames packed r d' d'' :
    packed_status frameData d = Some packed ->
    packed <= 0 ->
    decode frameData d = (r, d') ->
    no_output_run d' frames d'' ->
    no_output_run d (frameData :: frames) d''.

(** [decode] reports rates by the table [table]. *)
Definition rate_follows (table : Z -> Z) : Prop :=
  forall frameData d packed r d',
    packed_status frameData d = Some packed -> 0 < packed ->
    decode frameData d = (Returned (Some r), d') ->
    sampleRate r = table (status_index packed).

(** [decode] gives no PCM result for a status word whose channel count
    or sample count is out of range. *)
Definition corrupt_status_refused : Prop :=
  forall frameData d packed,
    packed_status frameData d = Some packed -> 0 < packed ->
    status_channels packed < 1 \/ 15 < status_channels packed \/
    status_samples packed mod status_channels packed <> 0 ->
    forall r d', decode frameData d <> (Returned (Some r), d').

(** What a call of [decode] has in hand once the engine has answered and
    the input region is given back: the status word, the address of the
    output region and the module.  [None] is a call that does not get that
    far. *)
Definition engine_call (frameData : Buffer) (d : FAAD2NodeDecoder)
  : option (Z * Z * WasmModule) :=
  if negb (bool_decide (is_Some (this_module d))) || negb (this_initialized d) then None
  else match this_module d with
       | Some m =>
           match invoke_engine (_stripADTS frameData) m with
           | (Returned status, m') => Some (fst status, snd status, m')
           | (Threw _, _) => None
           end
       | None => None
       end.

(** Every way out of [decode], a throw included, leaves allocated what
    was allocated before the call. *)
Definition released_on_every_exit : Prop :=
  forall frameData d res d',
    decode frameData d = (res, d') -> outstanding d' = outstanding d.

(** [decodePlanar] gives every channel as many samples as
    [samplesPerChannel] of the result of [decode] says. *)
Definition planar_lengths_as_reported : Prop :=
  forall frameData d r d',
    decode frameData d = (Returned (Some r), d') -> 1 <= channels r ->
    exists planar d'',
      decodePlanar frameData d = (Returned (Some planar), d'') /\
      forall ch channelSamples,
        Planar.channelData planar !! ch = Some channelSamples ->
        samplesPerChannel r = JS.of_Z (Z.of_nat (length channelSamples)).

(** ** The loops of the lab scripts *)

(** The variables of the loop of [testHEAAC] in [test_heaac.js].  [None]
    is the [NaN] that [offset] and [totalSamples] become when [undefined]
    is added to them. *)
Record Walk : Type := {
  walk_offset : option Z;
  walk_frameCount : Z;
  walk_totalSamples : option Z;
  walk_pcmChunks : list (list JS.num);
}.

Definition walk_start : Walk :=
  {| walk_offset := Some 0; walk_frameCount := 0; walk_totalSamples := Some 0;
     walk_pcmChunks := [] |}.

(** One turn of that loop, at the offset [offset].  What [decode] returns
    has no [samples] and no [bytesConsumed]; [result.pcm] on [null] throws
    a [TypeError], which the [catch] takes as it takes any error of
    [decode]. *)
Definition walk_turn (aacData : Buffer) (offset : Z) (w : Walk) (d : FAAD2NodeDecoder)
  : Walk * FAAD2NodeDecoder :=
  let chunk := slice aacData offset (Z.min (offset + 8192) (Z.of_nat (length aacData))) in
  let skipped :=
    {| walk_offset := Some (offset + 1024); walk_frameCount := walk_frameCount w;
       walk_totalSamples := walk_totalSamples w; walk_pcmChunks := walk_pcmChunks w |} in
  match decode chunk d with
  | (Returned (Some result), d') =>
      if 0 <? Z.of_nat (length (pcm result)) then
        ({| walk_offset := None; walk_frameCount := walk_frameCount w + 1;
            walk_totalSamples := None;
            walk_pcmChunks := walk_pcmChunks w ++ [pcm result] |}, d')
      else (skipped, d')
  | (Returned None, d') => (skipped, d')
  | (Threw _, d') => (skipped, d')
  end.

(** [while (offset < aacData.length && frameCount < maxFrames)], for at
    most [fuel] turns: [None] is a loop that has not ended by then. *)
Fixpoint walk_loop (fuel : nat) (aacData : Buffer) (w : Walk) (d : FAAD2NodeDecoder)
  : option (Walk * FAAD2NodeDecoder) :=
  match fuel with
  | O => None
  | S fuel' =>
      match walk_offset w with
      | Some offset =>
          if (offset <? Z.of_nat (length aacData)) && (walk_frameCount w <? 10) then
            let (w', d') := walk_turn aacData offset w d in
            walk_loop fuel' aacData w' d'
          else Some (w, d)
      | None => Some (w, d)
      end
  end.

(** The variables of the loop of [testHEAAC] in [test_heaac_v2.js];
    [totalSamples] is kept as the values added to it. *)
Record FrameWalk : Type := {
  frames_offset : Z;
  frames_frameCount : Z;
  frames_totalSamples : list JS.num;
  frames_pcmChunks : list (list JS.num);
}.

Definition frames_start : FrameWalk :=
  {| frames_offset := 0; frames_frameCount := 0; frames_totalSamples := [];
     frames_pcmChunks := [] |}.

(** One turn of that loop, on the header [frameInfo] found at the
    offset. *)
Definition frames_turn (aacData : Buffer) (frameInfo : AdtsHeader) (w : FrameWalk)
    (d : FAAD2NodeDecoder) : FrameWalk * FAAD2NodeDecoder :=
  let offset := frames_offset w in
  let frameData := slice aacData offset (offset + frameLength frameInfo) in
  let moved (frameCount : Z) (totalSamples : list JS.num) (pcmChunks : list (list JS.num)) :=
    {| frames_offset := offset + frameLength frameInfo; frames_frameCount := frameCount;
       frames_totalSamples := totalSamples; frames_pcmChunks := pcmChunks |} in
  let unchanged :=
    moved (frames_frameCount w) (frames_totalSamples w) (frames_pcmChunks w) in
  match decode frameData d with
  | (Returned (Some result), d') =>
      if 0 <? Z.of_nat (length (pcm result)) then
        (moved (frames_frameCount w + 1)
               (frames_totalSamples w ++ [samplesPerChannel result])
               (frames_pcmChunks w ++ [pcm result]), d')
      else (unchanged, d')
  | (Returned None, d') => (unchanged, d')
  | (Threw _, d') => (unchanged, d')
  end.

Fixpoint frames_loop (fuel : nat) (aacData : Buffer) (w : FrameWalk) (d : FAAD2NodeDecoder)
  : option (FrameWalk * FAAD2NodeDecoder) :=
  match fuel with
  | O => None
  | S fuel' =>
      if (frames_offset w <? Z.of_nat (length aacData)) && (frames_frameCount w <? 50) then
        match parseADTS aacData (frames_offset w) with
        | None => Some (w, d)
        | Some frameInfo =>
            let (w', d') := frames_turn aacData frameInfo w d in
            frames_loop fuel' aacData w' d'
        end
      else Some (w, d)
  end.

(** * Properties *)

(** ** Bitwise operators on small operands *)

Lemma toInt32_small (z : Z) : - 2 ^ 31 <= z < 2 ^ 31 -> JS.toInt32 z = z.
Proof.
  intros H. unfold JS.toInt32. rewrite Z.mod_small; lia.
Qed.

Lemma toUint32_small (z : Z) : 0 <= z < 2 ^ 32 -> JS.toUint32 z = z.
Proof.
  intros H. unfold JS.toUint32. apply Z.mod_small. lia.
Qed.

Lemma shift_count (n : Z) : 0 <= n < 32 -> JS.toUint32 n mod 32 = n.
Proof.
  intros H. rewrite toUint32_small by lia. apply Z.mod_small. lia.
Qed.

Lemma shl_small (a n : Z) :
  0 <= a -> 0 <= n < 32 -> a * 2 ^ n < 2 ^ 31 -> JS.shl a n = a * 2 ^ n.
Proof.
  intros Ha Hn Hlt. unfold JS.shl. rewrite shift_count by lia.
  assert (0 < 2 ^ n) by (apply Z.pow_pos_nonneg; lia).
  rewrite (toInt32_small a) by nia.
  rewrite Z.shiftl_mul_pow2 by lia.
  apply toInt32_small. nia.
Qed.

Lemma ushr_div (a n : Z) : 0 <= n < 32 -> JS.ushr a n = (a mod 2 ^ 32) / 2 ^ n.
Proof.
  intros Hn. unfold JS.ushr. rewrite shift_count by lia.
  unfold JS.toUint32. apply Z.shiftr_div_pow2. lia.
Qed.

Lemma band_low (a k : Z) :
  0 <= a < 2 ^ 31 -> 0 <= k < 31 -> JS.band a (2 ^ k - 1) = a mod 2 ^ k.
Proof.
  intros Ha Hk. unfold JS.band.
  assert (0 < 2 ^ k) by (apply Z.pow_pos_nonneg; lia).
  assert (2 ^ k < 2 ^ 31) by (apply Z.pow_lt_mono_r; lia).
  rewrite !toInt32_small by lia.
  rewrite <- Z.land_ones by lia. f_equal. rewrite Z.ones_equiv. lia.
Qed.

Lemma lor_add (x y k : Z) :
  0 <= k -> 0 <= y < 2 ^ k -> Z.lor (x * 2 ^ k) y = x * 2 ^ k + y.
Proof.
  intros Hk Hy.
  assert (Hland : Z.land (x * 2 ^ k) y = 0).
  { apply Z.bits_inj'. intros i Hi. rewrite Z.land_spec, Z.bits_0.
    destruct (Z.lt_ge_cases i k) as [Hlt | Hge].
    - rewrite Z.mul_pow2_bits_low by lia. reflexivity.
    - replace y with (y mod 2 ^ k) by (apply Z.mod_small; lia).
      rewrite Z.mod_pow2_bits_high by lia. apply andb_false_r. }
  rewrite Z.add_nocarry_lxor by assumption.
  symmetry. apply Z.lxor_lor. assumption.
Qed.

Lemma bor_add (x y k : Z) :
  0 <= k -> 0 <= x -> 0 <= y < 2 ^ k -> x * 2 ^ k + y < 2 ^ 31 ->
  JS.bor (x * 2 ^ k) y = x * 2 ^ k + y.
Proof.
  intros Hk Hx Hy Hlt. unfold JS.bor.
  assert (0 < 2 ^ k) by (apply Z.pow_pos_nonneg; lia).
  rewrite !toInt32_small by nia.
  apply lor_add; assumption.
Qed.

Lemma b2z_range (b : byte) : 0 <= b2z b < 256.
Proof.
  unfold b2z. pose proof (Byte.to_N_bounded b) as H. lia.
Qed.

(** ** The status word *)

Lemma toInt32_mod (z k : Z) : 0 <= k <= 32 -> JS.toInt32 z mod 2 ^ k = z mod 2 ^ k.
Proof.
  intros Hk. unfold JS.toInt32.
  pose proof (Z.div_mod (z + 2 ^ 31) (2 ^ 32) ltac:(lia)) as Hdm.
  replace ((z + 2 ^ 31) mod 2 ^ 32 - 2 ^ 31)
    with (z + (- ((z + 2 ^ 31) / 2 ^ 32) * 2 ^ (32 - k)) * 2 ^ k).
  - apply Z_mod_plus_full.
  - rewrite <- Z.mul_assoc, <- Z.pow_add_r by lia.
    replace (32 - k + k) with 32 by lia. lia.
Qed.

Lemma band_mask (a k : Z) : 0 <= k < 31 -> JS.band a (2 ^ k - 1) = a mod 2 ^ k.
Proof.
  intros Hk. unfold JS.band.
  assert (0 < 2 ^ k) by (apply Z.pow_pos_nonneg; lia).
  assert (2 ^ k < 2 ^ 31) by (apply Z.pow_lt_mono_r; lia).
  rewrite (toInt32_small (2 ^ k - 1)) by lia.
  replace (2 ^ k - 1) with (Z.ones k) by (rewrite Z.ones_equiv; lia).
  rewrite Z.land_ones by lia. apply toInt32_mod. lia.
Qed.

Lemma status_index_range (packed : Z) : 0 <= status_index packed < 16.
Proof.
  unfold status_index.
  pose proof (Z.mod_pos_bound packed (2 ^ 32) ltac:(lia)).
  split; [apply Z.div_pos; lia | apply Z.div_lt_upper_bound; lia].
Qed.

Lemma status_index_code (packed : Z) :
  JS.band (JS.ushr packed 28) 0xf = status_index packed.
Proof.
  rewrite ushr_div by lia. change 0xf with (2 ^ 4 - 1).
  rewrite band_mask by lia. apply Z.mod_small. apply status_index_range.
Qed.

Lemma status_channels_code (packed : Z) :
  JS.band (JS.ushr packed 24) 0xf = status_channels packed.
Proof.
  rewrite ushr_div by lia. change 0xf with (2 ^ 4 - 1).
  rewrite band_mask by lia. reflexivity.
Qed.

Lemma status_samples_code (packed : Z) :
  JS.band packed 0xffffff = status_samples packed.
Proof.
  change 0xffffff with (2 ^ 24 - 1). apply band_mask. lia.
Qed.

Lemma status_channels_range (packed : Z) : 0 <= status_channels packed < 16.
Proof. unfold status_channels. apply Z.mod_pos_bound. lia. Qed.

Lemma status_samples_range (packed : Z) : 0 <= status_samples packed < 2 ^ 24.
Proof. unfold status_samples. apply Z.mod_pos_bound. lia. Qed.

Lemma SAMPLE_RATE_lookup (i : Z) :
  0 <= i < 16 -> default 0 (SAMPLE_RATE !! i) = node_rate i.
Proof.
  intros Hi.
  assert (Hcases : i = 0 \/ i = 1 \/ i = 2 \/ i = 3 \/ i = 4 \/ i = 5 \/ i = 6 \/ i = 7 \/
                   i = 8 \/ i = 9 \/ i = 10 \/ i = 11 \/ i = 12 \/ i = 13 \/ i = 14 \/
                   i = 15) by lia.
  repeat (destruct Hcases as [-> | Hcases]; [vm_compute; reflexivity |]).
  subst. vm_compute. reflexivity.
Qed.

(** ** [decode]: the ledger *)

Lemma release_head (p n : Z) (l : list (Z * Z)) : release p ((p, n) :: l) = l.
Proof. cbn. rewrite Z.eqb_refl. reflexivity. Qed.

(** After [invoke_engine] only the output region is outstanding. *)
Lemma invoke_engine_ledger (rawAAC : Buffer) (m m' : WasmModule) (status : Z * Z) :
  invoke_engine rawAAC m = (Returned status, m') ->
  exists size, allocated m' = (snd status, size) :: allocated m.
Proof.
  unfold invoke_engine, bind, _malloc, HEAPU8_set, HEAPU8_fill, _decode_frame,
    _free, ret.
  destruct (malloc_fn (memory m) _) as [inPtr mem1]. cbn [memory allocated byteLength].
  destruct (_ || _); [discriminate |]. cbn [memory allocated byteLength HEAPU8].
  destruct (malloc_fn _ _) as [outPtr mem2]. cbn [memory allocated].
  destruct (decode_frame_fn _ _ _ _ _) as [packed mem3]. cbn [memory allocated].
  intros [= <- <-]. cbn [snd allocated release].
  destruct (Z.eqb_spec outPtr inPtr) as [-> | Hne].
  - eexists. reflexivity.
  - rewrite Z.eqb_refl. eexists. reflexivity.
Qed.

Lemma on_module_some {A : Type} (c : M WasmModule A) (d d' : FAAD2NodeDecoder)
      (m : WasmModule) (r : outcome A) :
  this_module d = Some m -> on_module c d = (r, d') ->
  exists m', c m = (r, m') /\
             d' = {| this_module := Some m'; this_initialized := this_initialized d;
                     this_sampleRate := this_sampleRate d;
                     this_channels := this_channels d |}.
Proof.
  intros Hm. unfold on_module. rewrite Hm. destruct (c m) as [r' m'].
  intros [= <- <-]. exists m'. split; reflexivity.
Qed.

(** What [decode] is once its guard has passed. *)
Lemma decode_started (frameData : Buffer) (d : FAAD2NodeDecoder) (packed : Z) :
  packed_status frameData d = Some packed ->
  exists m outPtr d1 m1 size,
    this_module d = Some m /\
    this_module d1 = Some m1 /\
    allocated m1 = (outPtr, size) :: allocated m /\
    decode frameData d = finish_decode packed outPtr d1.
Proof.
  unfold packed_status, decode, bind.
  destruct (negb _ || negb _); [discriminate |].
  destruct (on_module _ d) as [[status | e] d1] eqn:Hcall; [| discriminate].
  intros [= <-].
  destruct (this_module d) as [m |] eqn:Hm;
    [| unfold on_module in Hcall; rewrite Hm in Hcall; discriminate].
  destruct (on_module_some _ _ _ _ _ Hm Hcall) as (m1 & Hinv & ->).
  destruct (invoke_engine_ledger _ _ _ _ Hinv) as [size Hled].
  eexists m, (snd status), _, m1, size. repeat split; [reflexivity | assumption].
Qed.

(** The two ways [finish_decode] goes on a positive status word. *)
Lemma finish_decode_positive (packed outPtr : Z) (d : FAAD2NodeDecoder)
      (m : WasmModule) (size : Z) (rest : list (Z * Z)) :
  this_module d = Some m -> allocated m = (outPtr, size) :: rest -> 0 < packed ->
  (exists pcm d',
     Float32Array_slice outPtr (status_samples packed) m = (Returned pcm, m) /\
     length pcm = Z.to_nat (status_samples packed) /\
     finish_decode packed outPtr d
     = (Returned (Some {| pcm := pcm;
                          sampleRate := node_rate (status_index packed);
                          channels := status_channels packed;
                          samplesPerChannel :=
                            JS.div (status_samples packed) (status_channels packed) |}), d') /\
     outstanding d' = rest) \/
  (exists d',
     Float32Array_slice outPtr (status_samples packed) m = (Threw RangeError, m) /\
     finish_decode packed outPtr d = (Threw RangeError, d') /\
     outstanding d' = (outPtr, size) :: rest).
Proof.
  intros Hm Hled Hpos. unfold finish_decode.
  destruct (Z.leb_spec packed 0) as [Hle | _]; [lia |].
  rewrite status_index_code, status_channels_code, status_samples_code.
  rewrite SAMPLE_RATE_lookup by apply status_index_range.
  unfold bind, set_sampleRate, set_channels, on_module, ret.
  cbn [this_module this_initialized this_sampleRate this_channels]. rewrite Hm.
  unfold Float32Array_slice, _free.
  destruct (_ || _ || _).
  - right. eexists. split; [reflexivity |]. split; [reflexivity |].
    unfold outstanding. cbn [this_module]. exact Hled.
  - left. eexists. eexists. split; [reflexivity |].
    split; [rewrite length_map, length_seq; reflexivity |].
    split; [reflexivity |].
    unfold outstanding. cbn [this_module allocated]. rewrite Hled. apply release_head.
Qed.

Lemma finish_decode_no_output (packed outPtr : Z) (d : FAAD2NodeDecoder)
      (m : WasmModule) (size : Z) (rest : list (Z * Z)) :
  this_module d = Some m -> allocated m = (outPtr, size) :: rest -> packed <= 0 ->
  exists d', finish_decode packed outPtr d = (Returned None, d') /\ outstanding d' = rest.
Proof.
  intros Hm Hled Hle. unfold finish_decode.
  destruct (Z.leb_spec packed 0) as [_ | Hlt]; [| lia].
  unfold bind, on_module, _free, ret. rewrite Hm.
  eexists. split; [reflexivity |].
  unfold outstanding. cbn [this_module allocated]. rewrite Hled. apply release_head.
Qed.

Lemma decode_guard (frameData : Buffer) (d : FAAD2NodeDecoder) :
  packed_status frameData d = None ->
  forall r d', decode frameData d = (Returned r, d') -> False.
Proof.
  unfold packed_status, decode, bind.
  destruct (negb _ || negb _); [discriminate |].
  destruct (on_module _ d) as [[status | e] d1]; discriminate.
Qed.

(** A call that returns leaves the ledger as it found it. *)
Lemma decode_returns_ledger (frameData : Buffer) (d d' : FAAD2NodeDecoder)
      (r : option (DecodeResult JS.num)) :
  decode frameData d = (Returned r, d') -> outstanding d' = outstanding d.
Proof.
  intros Hdec.
  destruct (packed_status frameData d) as [packed |] eqn:Hst;
    [| elim (decode_guard _ _ Hst _ _ Hdec)].
  destruct (decode_started _ _ _ Hst) as (m & outPtr & d1 & m1 & size & Hm & Hm1 & Hled & Heq).
  rewrite Heq in Hdec. clear Heq.
  assert (Hout : outstanding d = allocated m) by (unfold outstanding; rewrite Hm; reflexivity).
  rewrite Hout.
  destruct (Z.le_gt_cases packed 0) as [Hle | Hpos].
  - destruct (finish_decode_no_output packed outPtr d1 m1 size _ Hm1 Hled Hle)
      as (d2 & Hfin & Hrest).
    rewrite Hfin in Hdec. injection Hdec as <- <-. exact Hrest.
  - destruct (finish_decode_positive packed outPtr d1 m1 size _ Hm1 Hled ltac:(lia))
      as [(pcm & d2 & _ & _ & Hfin & Hrest) | (d2 & _ & Hfin & _)];
      rewrite Hfin in Hdec; [| discriminate].
    injection Hdec as <- <-. exact Hrest.
Qed.

Lemma no_output_run_ledger (d d' : FAAD2NodeDecoder) (frames : list Buffer) :
  no_output_run d frames d' -> outstanding d' = outstanding d.
Proof.
  induction 1 as [d | d frameData frames packed r d2 d3 Hst Hle Hdec _ IH].
  - reflexivity.
  - rewrite IH.
    destruct (decode_started _ _ _ Hst) as (m & outPtr & d1 & m1 & size & Hm & Hm1 & Hled & Heq).
    rewrite Heq in Hdec.
    destruct (finish_decode_no_output packed outPtr d1 m1 size _ Hm1 Hled Hle)
      as (d4 & Hfin & Hrest).
    rewrite Hfin in Hdec. injection Hdec as <- <-.
    rewrite Hrest. unfold outstanding. rewrite Hm. reflexivity.
Qed.

(** C1, as the code has it: the rate that [decode] returns for a
    positive status word is the entry of [SAMPLE_RATE] for bits 31-28:
    index 1 is 8000 Hz, 2 is 16000, 3 is 22050, 4 is 32000, 5 is 44100,
    6 is 48000, 7 is 64000, 8 is 88200, 9 is 96000, and any other index
    is 0. *)
Theorem decode_rate_from_SAMPLE_RATE : rate_follows node_rate.
Proof.
  intros frameData d packed r d' Hst Hpos Hdec.
  destruct (decode_started _ _ _ Hst) as (m & outPtr & d1 & m1 & size & Hm & Hm1 & Hled & Heq).
  rewrite Heq in Hdec.
  destruct (finish_decode_positive packed outPtr d1 m1 size _ Hm1 Hled Hpos)
    as [(pcm & d2 & _ & _ & Hfin & _) | (d2 & _ & Hfin & _)];
    rewrite Hfin in Hdec; [| discriminate].
  injection Hdec as <- <-. reflexivity.
Qed.

(** ** [configure] *)

Lemma write_bytes_below (src : Buffer) :
  forall (h : gmap Z byte) (a x : Z), x < a -> write_bytes h a src !! x = h !! x.
Proof.
  induction src as [| b src IH]; intros h a x Hx; cbn [write_bytes].
  - reflexivity.
  - rewrite IH by lia. apply lookup_insert_ne. lia.
Qed.

Lemma read_write_bytes (src : Buffer) :
  forall (h : gmap Z byte) (a : Z), read_bytes (write_bytes h a src) a (length src) = src.
Proof.
  unfold read_bytes.
  induction src as [| b src IH]; intros h a; cbn [write_bytes length seq map].
  - reflexivity.
  - f_equal.
    + unfold peek. rewrite write_bytes_below by lia.
      replace (a + Z.of_nat 0) with a by lia. rewrite lookup_insert_eq. reflexivity.
    + rewrite <- seq_shift, map_map. rewrite <- (IH (<[a := b]> h) (a + 1)) at 2.
      apply map_ext. intros i. f_equal. lia.
Qed.

Lemma stage_asc_holds (asc : Buffer) (m m' : WasmModule) (ascPtr : Z) :
  stage_asc asc m = (Returned ascPtr, m') ->
  read_bytes (HEAPU8 (memory m')) ascPtr (length asc) = asc.
Proof.
  unfold stage_asc, bind, _malloc, HEAPU8_set, ret.
  destruct (malloc_fn (memory m) _) as [p mem1]. cbn [memory allocated byteLength].
  destruct (_ || _); [discriminate |].
  intros [= <- <-]. cbn [memory HEAPU8]. apply read_write_bytes.
Qed.

(** C10: a buffer of at most two bytes given to [configure] is not
    scanned, with [autoDetect] or without: [configure] is then
    [init_engine] on the buffer itself, the block that [_init_decoder] is
    pointed at holds the bytes of the buffer, in its length, and the
    answer of [_init_decoder] on that block decides how [configure]
    ends. *)
Theorem configure_short_buffer (ascOrFirstFrame : Buffer) (autoDetect : bool) :
  (length ascOrFirstFrame <= 2)%nat ->
  (forall d, configure ascOrFirstFrame autoDetect d = init_engine ascOrFirstFrame d) /\
  (forall d m ascPtr m',
      this_module d = Some m ->
      stage_asc ascOrFirstFrame m = (Returned ascPtr, m') ->
      read_bytes (HEAPU8 (memory m')) ascPtr (length ascOrFirstFrame) = ascOrFirstFrame /\
      exists d',
        configure ascOrFirstFrame autoDetect d
        = (if fst (init_decoder_fn (memory m') ascPtr (Z.of_nat (length ascOrFirstFrame))) <? 0
           then Threw (Error "Failed to initialize FAAD2 decoder")
           else Returned tt, d')).
Proof.
  intros Hlen.
  assert (Hconf : forall d, configure ascOrFirstFrame autoDetect d
                            = init_engine ascOrFirstFrame d).
  { intros d. unfold configure.
    destruct (Nat.ltb_spec 2 (length ascOrFirstFrame)) as [Hlt | _]; [lia |].
    rewrite andb_false_r. reflexivity. }
  split; [exact Hconf |].
  intros d m ascPtr m' Hm Hstage. split; [apply (stage_asc_holds _ _ _ _ Hstage) |].
  rewrite Hconf. unfold init_engine, bind, on_module. rewrite Hm, Hstage.
  cbn [this_module]. unfold _init_decoder.
  destruct (init_decoder_fn (memory m') ascPtr _) as [result mem2].
  cbn [fst this_module]. unfold _free, throw, set_initialized.
  destruct (result <? 0); eexists; reflexivity.
Qed.

(** ** Loops that fill a typed array *)

Lemma for_upto_fill_length {A : Type} (f : nat -> A) (n : nat) (arr : list A) :
  length (for_upto n (fun i a => <[i := f i]> a) arr) = length arr.
Proof.
  induction n as [| n IH]; cbn [for_upto]; [reflexivity |].
  rewrite length_insert. exact IH.
Qed.

Lemma for_upto_fill_lookup {A : Type} (f : nat -> A) (n : nat) (arr : list A) (j : nat) :
  (j < n)%nat -> (j < length arr)%nat ->
  for_upto n (fun i a => <[i := f i]> a) arr !! j = Some (f j).
Proof.
  induction n as [| n IH]; intros Hj Hlen; [lia |].
  cbn [for_upto].
  destruct (decide (j = n)) as [-> | Hne].
  - apply list_lookup_insert_eq. rewrite for_upto_fill_length. exact Hlen.
  - rewrite list_lookup_insert_ne by congruence. apply IH; lia.
Qed.

(** ** [decodeInt16] *)

Lemma trunc_range (q : Q) (k : Z) :
  0 <= k -> (inject_Z (- k) <= q)%Q -> (q <= inject_Z k)%Q -> - k <= JS.trunc q <= k.
Proof.
  intros Hk Hlo Hhi. unfold JS.trunc. unfold Qle in Hlo, Hhi. cbn in Hlo, Hhi.
  destruct q as [n den]. cbn in *.
  assert (Hden : 0 < Z.pos den) by lia.
  split.
  - rewrite <- (Z.quot_mul (- k) (Z.pos den)) by lia.
    apply Z.quot_le_mono; lia.
  - rewrite <- (Z.quot_mul k (Z.pos den)) by lia.
    apply Z.quot_le_mono; lia.
Qed.

Lemma toInt16_small (q : Q) :
  - 32767 <= JS.trunc q <= 32767 -> JS.toInt16 (JS.Fin q) = JS.trunc q.
Proof.
  intros H. unfold JS.toInt16. rewrite Z.mod_small; lia.
Qed.

Lemma clamped_sample_range (x : JS.num) :
  - 32767 <= JS.toInt16 (JS.scale (JS.max (JS.of_Z (-1)) (JS.min (JS.of_Z 1) x)) 32767)
  <= 32767.
Proof.
  assert (Hfin : forall q, (inject_Z (-1) <= q)%Q -> (q <= inject_Z 1)%Q ->
                           - 32767 <= JS.toInt16 (JS.scale (JS.Fin q) 32767) <= 32767).
  { intros q Hlo Hhi. cbn [JS.scale].
    assert (Ht : - 32767 <= JS.trunc (q * inject_Z 32767) <= 32767).
    { apply (trunc_range _ 32767); [lia | |].
      - change (inject_Z (- (32767))) with (inject_Z (-1) * inject_Z 32767)%Q.
        apply Qmult_le_compat_r; [exact Hlo | discriminate].
      - change (inject_Z 32767) with (inject_Z 1 * inject_Z 32767)%Q at 2.
        apply Qmult_le_compat_r; [exact Hhi | discriminate]. }
    rewrite toInt16_small; assumption. }
  destruct x as [| | | q].
  - cbn. lia.
  - apply Hfin; discriminate.
  - apply Hfin; discriminate.
  - unfold JS.of_Z. cbn [JS.min].
    destruct (Qle_bool (inject_Z 1) q) eqn:Hone; cbn [JS.max].
    + apply Hfin; discriminate.
    + assert (Hq : (q <= inject_Z 1)%Q).
      { apply Qnot_lt_le. intros Hlt. apply Qlt_le_weak in Hlt.
        apply Qle_bool_iff in Hlt. congruence. }
      destruct (Qle_bool (inject_Z (-1)) q) eqn:Hlow.
      * apply Hfin; [apply Qle_bool_iff; exact Hlow | exact Hq].
      * apply Hfin; discriminate.
Qed.

Lemma element_lookup (arr : list JS.num) (i : nat) (v : JS.num) :
  arr !! i = Some v -> element arr (Z.of_nat i) = v.
Proof.
  intros H. unfold element.
  destruct (Z.ltb_spec (Z.of_nat i) 0) as [Hneg | _]; [lia |].
  rewrite Nat2Z.id, H. reflexivity.
Qed.

Lemma decodeInt16_of_decode (frameData : Buffer) (d d' : FAAD2NodeDecoder)
      (r : DecodeResult JS.num) :
  decode frameData d = (Returned (Some r), d') ->
  exists pcm16,
    decodeInt16 frameData d
    = (Returned (Some {| pcm := pcm16; sampleRate := sampleRate r; channels := channels r;
                         samplesPerChannel := samplesPerChannel r |}), d') /\
    length pcm16 = length (pcm r) /\
    Forall (fun v => - 32767 <= v <= 32767) pcm16.
Proof.
  intros Hdec. unfold decodeInt16, bind. rewrite Hdec. unfold ret.
  eexists. split; [reflexivity |]. split.
  - rewrite for_upto_fill_length. apply length_replicate.
  - apply Forall_lookup. intros i v Hv.
    assert (Hi : (i < length (pcm r))%nat).
    { apply lookup_lt_Some in Hv. rewrite for_upto_fill_length, length_replicate in Hv.
      exact Hv. }
    rewrite for_upto_fill_lookup in Hv by (rewrite ?length_replicate; exact Hi).
    injection Hv as <-. apply clamped_sample_range.
Qed.

(** C9: when [decodeInt16] returns a result, [decode] returned one on
    the same frame, the two have the same [sampleRate], [channels] and
    [samplesPerChannel] and as many samples, and every sample of the
    [Int16Array] lies between -32767 and 32767. *)
Theorem decodeInt16_range (frameData : Buffer) (d d' : FAAD2NodeDecoder)
        (r16 : DecodeResult Z) :
  decodeInt16 frameData d = (Returned (Some r16), d') ->
  Forall (fun v => - 32767 <= v <= 32767) (pcm r16) /\
  exists r,
    decode frameData d = (Returned (Some r), d') /\
    length (pcm r16) = length (pcm r) /\
    sampleRate r16 = sampleRate r /\
    channels r16 = channels r /\
    samplesPerChannel r16 = samplesPerChannel r.
Proof.
  intros H16.
  destruct (decode frameData d) as [[[r |] | e] d1] eqn:Hdec.
  - destruct (decodeInt16_of_decode _ _ _ _ Hdec) as (pcm16 & Heq & Hlen & Hrange).
    rewrite Heq in H16. injection H16 as <- <-. cbn [pcm sampleRate channels samplesPerChannel].
    split; [exact Hrange |]. exists r. repeat split. exact Hlen.
  - unfold decodeInt16, bind in H16. rewrite Hdec in H16. discriminate.
  - unfold decodeInt16, bind in H16. rewrite Hdec in H16. discriminate.
Qed.

(** ** [decodePlanar] *)

Lemma decode_result_shape (frameData : Buffer) (d d' : FAAD2NodeDecoder)
      (r : DecodeResult JS.num) :
  decode frameData d = (Returned (Some r), d') ->
  exists packed,
    packed_status frameData d = Some packed /\ 0 < packed /\
    channels r = status_channels packed /\
    length (pcm r) = Z.to_nat (status_samples packed) /\
    samplesPerChannel r = JS.div (status_samples packed) (status_channels packed).
Proof.
  intros Hdec.
  destruct (packed_status frameData d) as [packed |] eqn:Hst;
    [| elim (decode_guard _ _ Hst _ _ Hdec)].
  exists packed. split; [reflexivity |].
  destruct (decode_started _ _ _ Hst) as (m & outPtr & d1 & m1 & size & Hm & Hm1 & Hled & Heq).
  rewrite Heq in Hdec.
  destruct (Z.le_gt_cases packed 0) as [Hle | Hpos].
  - destruct (finish_decode_no_output packed outPtr d1 m1 size _ Hm1 Hled Hle)
      as (d2 & Hfin & _).
    rewrite Hfin in Hdec. discriminate.
  - split; [lia |].
    destruct (finish_decode_positive packed outPtr d1 m1 size _ Hm1 Hled ltac:(lia))
      as [(pcm & d2 & _ & Hlen & Hfin & _) | (d2 & _ & Hfin & _)];
      rewrite Hfin in Hdec; [| discriminate].
    injection Hdec as <- <-. repeat split. exact Hlen.
Qed.

Lemma div_exact (samples c n : Z) :
  1 <= c -> JS.div samples c = JS.of_Z n -> samples = n * c.
Proof.
  intros Hc. unfold JS.div, JS.of_Z.
  destruct (Z.eqb_spec c 0) as [-> | _]; [lia |].
  intros [= Hred].
  pose proof (Qred_correct (inject_Z samples / inject_Z c)) as Heq.
  rewrite Hred in Heq.
  destruct c as [| p | p]; try lia.
  unfold Qeq in Heq. cbn in Heq. lia.
Qed.

Lemma toIndex_of_nat (n : nat) :
  Z.of_nat n <= 2 ^ 53 - 1 -> JS.toIndex (JS.of_Z (Z.of_nat n)) = Some n.
Proof.
  intros Hn. unfold JS.toIndex, JS.of_Z, JS.trunc. cbn [Qnum Qden inject_Z].
  rewrite Z.quot_1_r.
  destruct (Z.ltb_spec (Z.of_nat n) 0) as [Hneg | _]; [lia |].
  destruct (Z.ltb_spec (2 ^ 53 - 1) (Z.of_nat n)) as [Hbig | _]; [lia |].
  cbn [orb]. rewrite Nat2Z.id. reflexivity.
Qed.

Lemma count_below_of_nat (n : nat) : JS.count_below (JS.of_Z (Z.of_nat n)) = Some n.
Proof.
  unfold JS.count_below, JS.of_Z. rewrite Qceiling_Z, Nat2Z.id. reflexivity.
Qed.

(** A length that the constructor accepts bounds the loop that follows:
    the last case of [planar_channel] stands for the constructor's error
    alone. *)
Remark toIndex_bounds_loop (a : JS.num) (len : nat) :
  JS.toIndex a = Some len -> exists n, JS.count_below a = Some n.
Proof.
  destruct a as [| | | q]; cbn; intros H; try discriminate; eexists; reflexivity.
Qed.

Lemma for_upto_try_collect {A : Type} (body : nat -> list A -> outcome (list A))
      (g : nat -> A) (n : nat) :
  (forall ch acc, body ch acc = Returned (acc ++ [g ch])) ->
  for_upto_try n body [] = Returned (map g (seq 0 n)).
Proof.
  intros Hbody. induction n as [| n IH]; cbn [for_upto_try]; [reflexivity |].
  rewrite IH, Hbody, seq_S, map_app. reflexivity.
Qed.


(** ** [decodePlanar] on any result *)

Lemma trunc_floor (a b : Z) :
  0 <= a -> 0 < b -> JS.trunc (Qred (inject_Z a / inject_Z b)) = a / b.
Proof.
  intros Ha Hb.
  assert (Hq : (0 <= Qred (inject_Z a / inject_Z b))%Q).
  { rewrite Qred_correct. apply Qle_shift_div_l.
    - change 0%Q with (inject_Z 0). rewrite <- Zlt_Qlt. exact Hb.
    - rewrite Qmult_0_l. change 0%Q with (inject_Z 0). rewrite <- Zle_Qle. exact Ha. }
  rewrite Zdiv_Qdiv, <- (Qfloor_comp _ _ (Qred_correct _)).
  destruct (Qred (inject_Z a / inject_Z b)) as [n den].
  unfold JS.trunc, Qfloor. cbn [Qnum Qden].
  unfold Qle in Hq. cbn in Hq. apply Z.quot_div_nonneg; lia.
Qed.

Lemma ceiling_floor (a b : Z) : a / b <= Qceiling (Qred (inject_Z a / inject_Z b)).
Proof.
  rewrite Zdiv_Qdiv, <- (Qfloor_comp _ _ (Qred_correct _)).
  rewrite Zle_Qle. apply Qle_floor_ceiling.
Qed.

Lemma planar_channel_returns (r : DecodeResult JS.num) (ch : nat) (samples : Z) :
  1 <= channels r -> 0 <= samples < 2 ^ 24 ->
  samplesPerChannel r = JS.div samples (channels r) ->
  exists n,
    (Z.to_nat (samples / channels r) <= n)%nat /\
    planar_channel r ch
    = Returned
        (for_upto n
           (fun i arr =>
              <[i := element (pcm r) (Z.of_nat i * channels r + Z.of_nat ch)]> arr)
           (replicate (Z.to_nat (samples / channels r)) (JS.of_Z 0))).
Proof.
  intros Hc Hs Hspc. unfold planar_channel. rewrite Hspc. unfold JS.div.
  destruct (Z.eqb_spec (channels r) 0) as [H0 | _]; [lia |].
  unfold JS.toIndex, JS.count_below. rewrite trunc_floor by lia.
  assert (Hq : 0 <= samples / channels r <= samples).
  { split; [apply Z.div_pos; lia |]. apply Z.div_le_upper_bound; nia. }
  destruct (Z.ltb_spec (samples / channels r) 0) as [Hneg | _]; [lia |].
  destruct (Z.ltb_spec (2 ^ 53 - 1) (samples / channels r)) as [Hbig | _]; [lia |].
  cbn [orb]. eexists. split; [| reflexivity].
  pose proof (ceiling_floor samples (channels r)). lia.
Qed.

Lemma decodePlanar_any (frameData : Buffer) (d d' : FAAD2NodeDecoder)
      (r : DecodeResult JS.num) :
  decode frameData d = (Returned (Some r), d') ->
  exists channelData,
    decodePlanar frameData d
    = (Returned (Some {| Planar.channelData := channelData;
                         Planar.sampleRate := sampleRate r;
                         Planar.channels := channels r |}), d') /\
    length channelData = Z.to_nat (channels r) /\
    forall ch channelSamples, channelData !! ch = Some channelSamples ->
      Z.of_nat (length channelSamples) = Z.of_nat (length (pcm r)) / channels r /\
      forall i, (i < length channelSamples)%nat ->
        channelSamples !! i = pcm r !! (i * Z.to_nat (channels r) + ch)%nat.
Proof.
  intros Hdec.
  destruct (decode_result_shape _ _ _ _ Hdec) as (packed & _ & _ & Hch & Hlen & Hspc).
  pose proof (status_samples_range packed) as Hsamples.
  pose proof (status_channels_range packed) as Hchannels.
  rewrite <- Hch in Hspc, Hchannels.
  assert (Hpcm : Z.of_nat (length (pcm r)) = status_samples packed) by lia.
  destruct (Z.le_gt_cases (channels r) 0) as [Hzero | Hpos].
  - exists []. split; [| split].
    + unfold decodePlanar, bind. rewrite Hdec.
      replace (channels r) with 0 by lia. reflexivity.
    + replace (channels r) with 0 by lia. reflexivity.
    + intros ch channelSamples Hlook. discriminate.
  - set (len := Z.to_nat (status_samples packed / channels r)).
    assert (Hq : 0 <= status_samples packed / channels r) by (apply Z.div_pos; lia).
    assert (Hchan : forall ch, exists n, (len <= n)%nat /\
               planar_channel r ch
               = Returned
                   (for_upto n
                      (fun i arr =>
                         <[i := element (pcm r) (Z.of_nat i * channels r + Z.of_nat ch)]> arr)
                      (replicate len (JS.of_Z 0)))).
    { intros ch. apply planar_channel_returns; [lia | lia | exact Hspc]. }
    assert (Hloop : forall k, exists channelData,
               for_upto_try k
                 (fun ch acc =>
                    match planar_channel r ch with
                    | Returned channelSamples => Returned (acc ++ [channelSamples])
                    | Threw e => Threw e
                    end) [] = Returned channelData /\
               length channelData = k /\
               forall ch, (ch < k)%nat ->
                 exists n, (len <= n)%nat /\
                   channelData !! ch
                   = Some (for_upto n
                             (fun i arr =>
                                <[i := element (pcm r)
                                         (Z.of_nat i * channels r + Z.of_nat ch)]> arr)
                             (replicate len (JS.of_Z 0)))).
    { induction k as [| k (channelData & Hrun & Hk & Hall)].
      - exists []. split; [reflexivity |]. split; [reflexivity |]. intros ch Hlt. lia.
      - destruct (Hchan k) as (n & Hn & Hret).
        eexists. cbn [for_upto_try]. rewrite Hrun, Hret.
        split; [reflexivity |]. split; [rewrite length_app; cbn [length]; lia |].
        intros ch Hlt. destruct (decide (ch = k)) as [-> | Hne].
        + exists n. split; [exact Hn |].
          rewrite lookup_app_r by lia. rewrite Hk, Nat.sub_diag. reflexivity.
        + destruct (Hall ch ltac:(lia)) as (n' & Hn' & Hlook).
          exists n'. split; [exact Hn' |]. rewrite lookup_app_l by lia. exact Hlook. }
    destruct (Hloop (Z.to_nat (channels r))) as (channelData & Hrun & Hk & Hall).
    exists channelData. split; [| split].
    + unfold decodePlanar, bind. rewrite Hdec. unfold lift. rewrite Hrun. reflexivity.
    + exact Hk.
    + intros ch channelSamples Hlook.
      assert (Hlt : (ch < Z.to_nat (channels r))%nat).
      { rewrite <- Hk. apply lookup_lt_is_Some. eauto. }
      destruct (Hall ch Hlt) as (n & Hn & Hlook'). rewrite Hlook in Hlook'.
      injection Hlook' as ->.
      rewrite for_upto_fill_length, length_replicate.
      split; [rewrite Hpcm; unfold len; lia |].
      intros i Hi.
      rewrite for_upto_fill_lookup by (rewrite ?length_replicate; lia).
      assert (Hidx : (i * Z.to_nat (channels r) + ch < length (pcm r))%nat).
      { assert (Z.of_nat len * channels r <= status_samples packed).
        { unfold len. rewrite Z2Nat.id by lia. rewrite Z.mul_comm.
          apply Z.mul_div_le. lia. }
        nia. }
      destruct (lookup_lt_is_Some_2 _ _ Hidx) as [v Hv]. rewrite Hv. f_equal.
      rewrite <- (element_lookup _ _ _ Hv). f_equal. lia.
Qed.

(** X18: whenever [decode] returns a result, [decodePlanar] returns one too,
    with the same [sampleRate] and [channels] and one array for each
    channel.  Each array has as many samples as fit every channel, the
    samples of [pcm] divided by the channels and rounded down; sample [i]
    of channel [ch] is sample [i * channels + ch] of [pcm], and the
    samples of [pcm] left over are dropped.  A result of no channels gives
    no arrays. *)
Theorem decodePlanar_total (frameData : Buffer) (d d' : FAAD2NodeDecoder)
    (r : DecodeResult JS.num) :
  decode frameData d = (Returned (Some r), d') ->
  exists planar,
    decodePlanar frameData d = (Returned (Some planar), d') /\
    Planar.sampleRate planar = sampleRate r /\
    Planar.channels planar = channels r /\
    length (Planar.channelData planar) = Z.to_nat (channels r) /\
    forall ch channelSamples, Planar.channelData planar !! ch = Some channelSamples ->
      Z.of_nat (length channelSamples) = Z.of_nat (length (pcm r)) / channels r /\
      forall i, (i < length channelSamples)%nat ->
        channelSamples !! i = pcm r !! (i * Z.to_nat (channels r) + ch)%nat.
Proof.
  intros Hdec. destruct (decodePlanar_any _ _ _ _ Hdec) as (channelData & Heq & Hlen & Hall).
  eexists. split; [exact Heq |].
  cbn [Planar.sampleRate Planar.channels Planar.channelData]. auto.
Qed.

(** ** [configure]: how a call ends *)

Lemma slice_take {A : Type} (data : list A) (n : nat) :
  slice data 0 (Z.of_nat n) = take n data.
Proof.
  unfold slice, relative_index.
  destruct (Z.ltb_spec 0 0) as [Hneg | _]; [lia |].
  destruct (Z.ltb_spec (Z.of_nat n) 0) as [Hneg | _]; [lia |].
  rewrite (Z.min_l 0) by lia. change (Z.to_nat 0) with 0%nat. rewrite drop_0, Z.sub_0_r.
  destruct (Z.le_gt_cases (Z.of_nat n) (Z.of_nat (length data))) as [Hle | Hgt].
  - rewrite Z.min_l by lia. rewrite Nat2Z.id. reflexivity.
  - rewrite Z.min_r by lia. rewrite Nat2Z.id. rewrite !take_ge by lia. reflexivity.
Qed.

Lemma extractASC_returns (data : Buffer) :
  (2 <= length data)%nat ->
  exists asc, _extractASC data = Returned asc /\ length asc = 2%nat.
Proof.
  intros Hlen. unfold _extractASC.
  assert (Hfirst : exists asc,
             (if (2 <=? length data)%nat then Returned (slice data 0 2)
              else Threw (Error "Unable to extract AudioSpecificConfig")) = Returned asc /\
             length asc = 2%nat).
  { destruct (Nat.leb_spec 2 (length data)) as [_ | Hlt]; [| lia].
    eexists. split; [reflexivity |].
    change 2 with (Z.of_nat 2). rewrite slice_take, length_take. lia. }
  destruct (7 <=? length data)%nat; [| exact Hfirst].
  destruct (_ =? 0xFFF); [| exact Hfirst].
  eexists. split; reflexivity.
Qed.

Lemma init_engine_outcome (asc : Buffer) (d d' : FAAD2NodeDecoder) (m : WasmModule)
      (r : outcome unit) :
  this_module d = Some m -> init_engine asc d = (r, d') ->
  is_Some (this_module d') /\
  this_sampleRate d' = this_sampleRate d /\ this_channels d' = this_channels d /\
  ((r = Returned tt /\ this_initialized d' = true /\ outstanding d' = outstanding d) \/
   (r = Threw (Error "Failed to initialize FAAD2 decoder") /\
    this_initialized d' = this_initialized d /\ outstanding d' = outstanding d) \/
   (r = Threw RangeError /\ this_initialized d' = this_initialized d /\
    exists p, outstanding d' = (p, Z.of_nat (length asc)) :: outstanding d)).
Proof.
  intros Hm. unfold init_engine, stage_asc, on_module, bind, _malloc, HEAPU8_set, ret.
  cbv beta. rewrite Hm. unfold outstanding at 2 4 6. rewrite Hm.
  destruct (malloc_fn (memory m) _) as [p mem1]. cbn [memory allocated byteLength].
  destruct (_ || _).
  - intros [= <- <-]. cbn [this_module this_sampleRate this_channels this_initialized].
    split; [eauto |]. do 2 (split; [reflexivity |]). right. right.
    split; [reflexivity |]. split; [reflexivity |]. exists p. reflexivity.
  - cbn [this_module this_sampleRate this_channels this_initialized].
    unfold _init_decoder. cbn [memory allocated].
    destruct (init_decoder_fn _ _ _) as [result mem2].
    cbn [this_module this_sampleRate this_channels this_initialized].
    unfold _free, throw, set_initialized. cbn [memory allocated].
    rewrite release_head.
    destruct (result <? 0); intros [= <- <-];
      cbn [this_module this_sampleRate this_channels this_initialized];
      (split; [eauto |]); (do 2 (split; [reflexivity |])); [right; left | left];
      repeat split; reflexivity.
Qed.

Lemma configure_cases (ascOrFirstFrame : Buffer) (autoDetect : bool)
      (d d' : FAAD2NodeDecoder) (m : WasmModule) (r : outcome unit) :
  this_module d = Some m ->
  configure ascOrFirstFrame autoDetect d = (r, d') ->
  is_Some (this_module d') /\
  this_sampleRate d' = this_sampleRate d /\ this_channels d' = this_channels d /\
  ((r = Returned tt /\ this_initialized d' = true /\ outstanding d' = outstanding d) \/
   (r = Threw (Error "Failed to initialize FAAD2 decoder") /\
    this_initialized d' = this_initialized d /\ outstanding d' = outstanding d) \/
   (r = Threw RangeError /\ this_initialized d' = this_initialized d /\
    exists p n, outstanding d' = (p, n) :: outstanding d)).
Proof.
  intros Hm. unfold configure, bind.
  destruct (autoDetect && (2 <? length ascOrFirstFrame)%nat) eqn:Hauto.
  - apply andb_true_iff in Hauto as [_ Hlen]. apply Nat.ltb_lt in Hlen.
    destruct (extractASC_returns ascOrFirstFrame ltac:(lia)) as (asc & Hasc & _).
    unfold lift. rewrite Hasc. intros Hinit.
    destruct (init_engine_outcome _ _ _ _ _ Hm Hinit) as (Hmod & Hs & Hc & Hcases).
    do 3 (split; [assumption |]).
    destruct Hcases as [H | [H | (Hr & Hi & p & Hp)]];
      [left; exact H | right; left; exact H | right; right; eauto].
  - unfold ret. intros Hinit.
    destruct (init_engine_outcome _ _ _ _ _ Hm Hinit) as (Hmod & Hs & Hc & Hcases).
    do 3 (split; [assumption |]).
    destruct Hcases as [H | [H | (Hr & Hi & p & Hp)]];
      [left; exact H | right; left; exact H | right; right; eauto].
Qed.

(** X19: a call of [configure] on a decoder whose module is loaded ends in one
    of three ways: it returns, and the decoder is initialised; the engine
    refuses the configuration, and [configure] throws its error with
    [initialized] as it was; or the block for the configuration lies
    outside linear memory, and the [RangeError] of [HEAPU8.set] leaves
    that block allocated.  In the first two the ledger is as before.
    [sampleRate] and [channels] never change, and the error of
    [_extractASC] is never thrown: [_extractASC] is called on more than
    two bytes only. *)
Theorem configure_outcome (ascOrFirstFrame : Buffer) (autoDetect : bool)
    (d d' : FAAD2NodeDecoder) (m : WasmModule) (r : outcome unit) :
  this_module d = Some m ->
  configure ascOrFirstFrame autoDetect d = (r, d') ->
  this_sampleRate d' = this_sampleRate d /\ this_channels d' = this_channels d /\
  ((r = Returned tt /\ this_initialized d' = true /\ outstanding d' = outstanding d) \/
   (r = Threw (Error "Failed to initialize FAAD2 decoder") /\
    this_initialized d' = this_initialized d /\ outstanding d' = outstanding d) \/
   (r = Threw RangeError /\ this_initialized d' = this_initialized d /\
    exists p n, outstanding d' = (p, n) :: outstanding d)).
Proof.
  intros Hm Hconf. destruct (configure_cases _ _ _ _ _ _ Hm Hconf) as (_ & H). exact H.
Qed.

(** ** [decode]: the guard and the fields of the decoder *)

Lemma invoke_engine_throws (rawAAC : Buffer) (m m' : WasmModule) (e : error) :
  invoke_engine rawAAC m = (Threw e, m') -> e = RangeError.
Proof.
  unfold invoke_engine, bind, _malloc, HEAPU8_set, HEAPU8_fill, _decode_frame, _free, ret.
  destruct (malloc_fn (memory m) _) as [inPtr mem1]. cbn [memory allocated byteLength].
  destruct (_ || _); [intros [= <- _]; reflexivity |].
  cbn [memory allocated byteLength HEAPU8].
  destruct (malloc_fn _ _) as [outPtr mem2]. cbn [memory allocated].
  destruct (decode_frame_fn _ _ _ _ _) as [packed mem3]. discriminate.
Qed.

Lemma finish_decode_fields (packed outPtr : Z) (d d' : FAAD2NodeDecoder)
      (m : WasmModule) (res : outcome (option (DecodeResult JS.num))) :
  this_module d = Some m -> finish_decode packed outPtr d = (res, d') ->
  this_initialized d' = this_initialized d /\ is_Some (this_module d') /\
  match res with
  | Returned (Some r) => this_sampleRate d' = sampleRate r /\ this_channels d' = channels r
  | Returned None =>
      this_sampleRate d' = this_sampleRate d /\ this_channels d' = this_channels d
  | Threw e => e = RangeError
  end.
Proof.
  intros Hm. unfold finish_decode.
  destruct (packed <=? 0).
  - unfold bind, on_module, _free, ret. rewrite Hm. intros [= <- <-].
    cbn [this_module this_initialized this_sampleRate this_channels]. eauto.
  - rewrite status_index_code, status_channels_code, status_samples_code.
    rewrite SAMPLE_RATE_lookup by apply status_index_range.
    generalize (node_rate (status_index packed)) (status_channels packed)
      (status_samples packed). intros rate count samples.
    unfold bind, set_sampleRate, set_channels, on_module, ret.
    cbn [this_module this_initialized this_sampleRate this_channels]. rewrite Hm.
    destruct (Float32Array_slice outPtr samples m) as [[pcm | e] m1] eqn:Hview.
    + unfold _free. intros [= <- <-].
      cbn [this_module this_initialized this_sampleRate this_channels sampleRate channels].
      eauto.
    + intros [= <- <-]. cbn [this_module this_initialized]. split; [reflexivity |].
      split; [eauto |]. unfold Float32Array_slice in Hview.
      destruct (_ || _ || _); congruence.
Qed.

Lemma decode_cases (frameData : Buffer) (d d' : FAAD2NodeDecoder)
      (res : outcome (option (DecodeResult JS.num))) :
  decode frameData d = (res, d') ->
  (res = Threw (Error "Decoder not initialized. Call configure() first.") /\ d' = d /\
   (this_module d = None \/ this_initialized d = false)) \/
  (is_Some (this_module d) /\ this_initialized d = true /\
   this_initialized d' = true /\ is_Some (this_module d') /\
   match res with
   | Returned (Some r) => this_sampleRate d' = sampleRate r /\ this_channels d' = channels r
   | Returned None =>
       this_sampleRate d' = this_sampleRate d /\ this_channels d' = this_channels d
   | Threw e => e = RangeError
   end).
Proof.
  unfold decode.
  destruct (this_module d) as [m |] eqn:Hm; [| intros [= <- <-]; left; auto].
  destruct (this_initialized d) eqn:Hinit;
    [| rewrite orb_true_r; intros [= <- <-]; left; auto].
  rewrite bool_decide_eq_true_2 by eauto. cbn [negb orb].
  unfold bind. intros Hrun. right.
  destruct (on_module (invoke_engine (_stripADTS frameData)) d) as [[status | e] d1] eqn:Hcall.
  - destruct (on_module_some _ _ _ _ _ Hm Hcall) as (m1 & _ & Hd1).
    assert (Hm1 : this_module d1 = Some m1) by (rewrite Hd1; reflexivity).
    destruct (finish_decode_fields _ _ _ _ _ _ Hm1 Hrun) as (Hi & Hmod & Hres).
    rewrite Hd1 in Hi, Hres. cbn [this_initialized this_sampleRate this_channels] in Hi, Hres.
    rewrite Hinit in Hi. eauto 6.
  - injection Hrun as <- <-.
    destruct (on_module_some _ _ _ _ _ Hm Hcall) as (m1 & Hinv & ->).
    cbn [this_initialized this_module]. rewrite Hinit.
    apply invoke_engine_throws in Hinv. eauto 6.
Qed.

(** X20: [decode] throws its own error exactly when the decoder is not
    configured, and then changes nothing; any other throw is a
    [RangeError].  A call that returns leaves the decoder initialised,
    with [sampleRate] and [channels] those of the result, or as they were
    when the result is [null]. *)
Theorem decode_guard_exact (frameData : Buffer) (d : FAAD2NodeDecoder) :
  (decode frameData d
   = (Threw (Error "Decoder not initialized. Call configure() first."), d)
   <-> this_module d = None \/ this_initialized d = false) /\
  (forall e d', decode frameData d = (Threw e, d') ->
     (e = Error "Decoder not initialized. Call configure() first." /\ d' = d) \/
     e = RangeError) /\
  (forall res d', decode frameData d = (Returned res, d') ->
     this_initialized d = true /\ this_initialized d' = true /\
     match res with
     | Some r => this_sampleRate d' = sampleRate r /\ this_channels d' = channels r
     | None => this_sampleRate d' = this_sampleRate d /\ this_channels d' = this_channels d
     end).
Proof.
  split; [split |split].
  - intros Hdec. destruct (decode_cases _ _ _ _ Hdec) as [(_ & _ & H) | (_ & _ & _ & _ & H)];
      [exact H | discriminate].
  - intros H. unfold decode. destruct H as [-> | ->]; [reflexivity |].
    rewrite orb_true_r. reflexivity.
  - intros e d' Hdec.
    destruct (decode_cases _ _ _ _ Hdec) as [(He & Hd & _) | (_ & _ & _ & _ & H)].
    + left. split; [congruence | exact Hd].
    + right. exact H.
  - intros res d' Hdec.
    destruct (decode_cases _ _ _ _ Hdec) as [(He & _) | (_ & Hi & Hi' & _ & H)];
      [discriminate |].
    destruct res; auto.
Qed.

(** X21: after [reset()] or [destroy()] each of [decode], [decodeInt16] and
    [decodePlanar] throws the error of the guard and touches nothing;
    after a [configure] that returns, none of them throws it. *)
Theorem decoder_lifecycle (d : FAAD2NodeDecoder) (frameData : Buffer) :
  let guard := Error "Decoder not initialized. Call configure() first." in
  (forall d0, d0 = snd (reset d) \/ d0 = snd (destroy d) ->
     this_sampleRate d0 = 0 /\ this_channels d0 = 0 /\
     outstanding d0 = outstanding d /\
     decode frameData d0 = (Threw guard, d0) /\
     decodeInt16 frameData d0 = (Threw guard, d0) /\
     decodePlanar frameData d0 = (Threw guard, d0)) /\
  (forall m ascOrFirstFrame autoDetect d1,
     this_module d = Some m ->
     configure ascOrFirstFrame autoDetect d = (Returned tt, d1) ->
     (forall d2, decode frameData d1 <> (Threw guard, d2)) /\
     (forall d2, decodeInt16 frameData d1 <> (Threw guard, d2)) /\
     (forall d2, decodePlanar frameData d1 <> (Threw guard, d2))).
Proof.
  intros guard. split.
  - assert (Hdec : decode frameData (snd (reset d)) = (Threw guard, snd (reset d))).
    { unfold decode, reset. cbn [snd this_initialized negb]. rewrite orb_true_r. reflexivity. }
    intros d0 [-> | ->]; (split; [reflexivity |]); (split; [reflexivity |]);
      (split; [reflexivity |]); (split; [exact Hdec |]);
      unfold decodeInt16, decodePlanar, bind;
      change (decode frameData (snd (destroy d))) with (decode frameData (snd (reset d)));
      rewrite Hdec; split; reflexivity.
  - intros m ascOrFirstFrame autoDetect d1 Hm Hconf.
    destruct (configure_cases _ _ _ _ _ _ Hm Hconf)
      as ([m1 Hm1] & _ & _ & [(_ & Hi1 & _) | [(Hr & _) | (Hr & _)]]); try discriminate.
    assert (Hdec : forall d2, decode frameData d1 <> (Threw guard, d2)).
    { intros d2 Hdec.
      destruct (decode_cases _ _ _ _ Hdec) as [(_ & _ & [H | H]) | (_ & _ & _ & _ & H)];
        [congruence | congruence | discriminate H]. }
    split; [exact Hdec |].
    split; intros d2 Hthrow.
    + unfold decodeInt16, bind in Hthrow.
      destruct (decode frameData d1) as [[[r |] | e] d3] eqn:Hrun;
        [discriminate | discriminate |].
      injection Hthrow as -> ->. exact (Hdec d2 eq_refl).
    + destruct (decode frameData d1) as [[[r |] | e] d3] eqn:Hrun.
      * destruct (decodePlanar_any _ _ _ _ Hrun) as (channelData & Heq & _). congruence.
      * unfold decodePlanar, bind in Hthrow. rewrite Hrun in Hthrow. discriminate.
      * unfold decodePlanar, bind in Hthrow. rewrite Hrun in Hthrow.
        injection Hthrow as -> ->. exact (Hdec d2 eq_refl).
Qed.

(** ** [decode]: what the engine is given *)

Lemma write_bytes_above (src : Buffer) :
  forall (h : gmap Z byte) (a x : Z),
    a + Z.of_nat (length src) <= x -> write_bytes h a src !! x = h !! x.
Proof.
  induction src as [| b src IH]; intros h a x Hx; cbn [write_bytes length] in *.
  - reflexivity.
  - rewrite IH by lia. apply lookup_insert_ne. lia.
Qed.

Lemma read_bytes_cons (h : gmap Z byte) (a : Z) (n : nat) :
  read_bytes h a (S n) = peek h a :: read_bytes h (a + 1) n.
Proof.
  unfold read_bytes. cbn [seq map]. f_equal.
  - f_equal. lia.
  - rewrite <- seq_shift, map_map. apply map_ext. intros i. f_equal. lia.
Qed.

Lemma read_bytes_app (h : gmap Z byte) (n1 n2 : nat) :
  forall a : Z,
    read_bytes h a (n1 + n2) = read_bytes h a n1 ++ read_bytes h (a + Z.of_nat n1) n2.
Proof.
  induction n1 as [| n1 IH]; intros a.
  - cbn [Nat.add]. replace (a + Z.of_nat 0) with a by lia. reflexivity.
  - cbn [Nat.add]. rewrite !read_bytes_cons, IH. cbn [app]. do 3 f_equal. lia.
Qed.

Lemma read_bytes_write_above (h : gmap Z byte) (a b : Z) (n : nat) (src : Buffer) :
  a + Z.of_nat n <= b -> read_bytes (write_bytes h b src) a n = read_bytes h a n.
Proof.
  intros Hb. unfold read_bytes. apply map_ext_in. intros i Hi.
  apply in_seq in Hi. unfold peek. rewrite write_bytes_below by lia. reflexivity.
Qed.

(** X22: [decode] copies the frame into a block of its own, followed by 64
    zero bytes, and touches no other byte of linear memory; the engine is
    then given the address of the block, the length of the frame without
    the padding and an output region of 32768 bytes.  Should the block
    not lie in linear memory, [HEAPU8.set] throws a [RangeError] and the
    block stays allocated. *)
Theorem invoke_engine_stages_frame (rawAAC : Buffer) (m : WasmModule) (inPtr : Z)
    (mem1 : Memory) :
  let len := Z.of_nat (length rawAAC) in
  malloc_fn (memory m) (len + 64) = (inPtr, mem1) ->
  (0 <= inPtr -> inPtr + len + 64 <= byteLength mem1 ->
   exists staged,
     read_bytes (HEAPU8 staged) inPtr (length rawAAC + 64) = rawAAC ++ replicate 64 x00 /\
     byteLength staged = byteLength mem1 /\
     (forall x, x < inPtr \/ inPtr + len + 64 <= x ->
                HEAPU8 staged !! x = HEAPU8 mem1 !! x) /\
     forall outPtr mem2 packed mem3,
       malloc_fn staged 32768 = (outPtr, mem2) ->
       decode_frame_fn mem2 inPtr len outPtr 32768 = (packed, mem3) ->
       invoke_engine rawAAC m
       = (Returned (packed, outPtr),
          {| memory := free_fn mem3 inPtr;
             allocated := release inPtr ((outPtr, 32768) :: (inPtr, len + 64)
                                         :: allocated m) |})) /\
  (inPtr < 0 \/ byteLength mem1 < inPtr + len ->
   invoke_engine rawAAC m
   = (Threw RangeError, {| memory := mem1; allocated := (inPtr, len + 64) :: allocated m |})).
Proof.
  intros len Hmalloc. split.
  - intros Hlo Hhi.
    exists {| HEAPU8 := write_bytes (write_bytes (HEAPU8 mem1) inPtr rawAAC) (inPtr + len)
                          (replicate 64 x00);
              byteLength := byteLength mem1 |}.
    cbn [HEAPU8 byteLength]. split; [| split; [reflexivity | split]].
    + rewrite read_bytes_app. f_equal.
      * rewrite read_bytes_write_above by (fold len; lia). apply read_write_bytes.
      * fold len. apply (read_write_bytes (replicate 64 x00)).
    + intros x [Hx | Hx].
      * rewrite !write_bytes_below by lia. reflexivity.
      * rewrite !write_bytes_above; [reflexivity | fold len; lia |].
        rewrite length_replicate. lia.
    + intros outPtr mem2 packed mem3 Hout Hdec.
      unfold invoke_engine, bind, _malloc, HEAPU8_set, HEAPU8_fill, _decode_frame, _free, ret.
      fold len. rewrite Hmalloc. cbn [memory allocated byteLength HEAPU8].
      destruct (Z.ltb_spec inPtr 0) as [Hneg | _]; [lia |].
      destruct (Z.ltb_spec (byteLength mem1) (inPtr + len)) as [Hshort | _]; [lia |].
      cbn [orb memory allocated byteLength HEAPU8].
      unfold relative_index.
      destruct (Z.ltb_spec (inPtr + len) 0) as [Hneg | _]; [lia |].
      destruct (Z.ltb_spec (inPtr + len + 64) 0) as [Hneg | _]; [lia |].
      rewrite !Z.min_l by lia.
      replace (Z.to_nat (inPtr + len + 64 - (inPtr + len))) with 64%nat by lia.
      change (z2b 0) with x00. change (2048 * 2 * 2 * 4) with 32768.
      rewrite Hout. cbn [memory allocated]. rewrite Hdec. reflexivity.
  - intros Hout.
    unfold invoke_engine, bind, _malloc, HEAPU8_set.
    fold len. rewrite Hmalloc. cbn [memory allocated byteLength].
    destruct (Z.ltb_spec inPtr 0) as [Hneg | Hpos]; [reflexivity |].
    destruct (Z.ltb_spec (byteLength mem1) (inPtr + len)) as [Hshort | Hfit]; [reflexivity | lia].
Qed.

(** ** [decodeInt16], sample by sample *)

Lemma for_upto_fill_map {A B : Type} (f : nat -> B) (g : A -> B) (l : list A) (b : B) :
  (forall i x, l !! i = Some x -> f i = g x) ->
  for_upto (length l) (fun i arr => <[i := f i]> arr) (replicate (length l) b) = map g l.
Proof.
  intros Hfg. apply list_eq. intros i.
  destruct (l !! i) as [x |] eqn:Hx.
  - rewrite for_upto_fill_lookup, list_lookup_fmap, Hx.
    + cbn. f_equal. apply (Hfg _ _ Hx).
    + apply lookup_lt_is_Some. eauto.
    + rewrite length_replicate. apply lookup_lt_is_Some. eauto.
  - rewrite list_lookup_fmap, Hx. cbn. apply lookup_ge_None.
    rewrite for_upto_fill_length, length_replicate. apply lookup_ge_None. exact Hx.
Qed.

Lemma Qle_bool_false (p q : Q) : Qle_bool p q = false -> (q < p)%Q.
Proof.
  intros H. apply Qnot_le_lt. intros Hle. apply Qle_bool_iff in Hle. congruence.
Qed.

Lemma clamped_sample_closed (x : JS.num) :
  JS.toInt16 (JS.scale (JS.max (JS.of_Z (-1)) (JS.min (JS.of_Z 1) x)) 32767)
  = int16_of_sample x.
Proof.
  destruct x as [| | | q]; try reflexivity.
  unfold JS.min, JS.of_Z, int16_of_sample.
  change (inject_Z 1) with 1%Q. change (inject_Z (-1)) with (-1)%Q.
  destruct (Qle_bool 1 q) eqn:Hhi; [reflexivity |].
  unfold JS.max. destruct (Qle_bool (-1) q) eqn:Hlo; [| reflexivity].
  cbn [JS.scale]. change (inject_Z 32767) with 32767%Q.
  apply toInt16_small. apply (trunc_range _ 32767); [lia | |].
  - apply Qle_bool_iff in Hlo.
    change (inject_Z (- (32767))) with ((-1) * 32767)%Q.
    apply Qmult_le_compat_r; [exact Hlo | discriminate].
  - apply Qle_bool_false in Hhi. apply Qlt_le_weak in Hhi.
    change (inject_Z 32767) with (1 * 32767)%Q.
    apply Qmult_le_compat_r; [exact Hhi | discriminate].
Qed.

Lemma decodeInt16_closed (frameData : Buffer) (d : FAAD2NodeDecoder) :
  decodeInt16 frameData d
  = match decode frameData d with
    | (Returned (Some r), d') =>
        (Returned (Some {| pcm := map int16_of_sample (pcm r);
                           sampleRate := sampleRate r; channels := channels r;
                           samplesPerChannel := samplesPerChannel r |}), d')
    | (Returned None, d') => (Returned None, d')
    | (Threw e, d') => (Threw e, d')
    end.
Proof.
  unfold decodeInt16, bind.
  destruct (decode frameData d) as [[[r |] | e] d']; try reflexivity.
  unfold ret. do 3 f_equal.
  rewrite (for_upto_fill_map _ int16_of_sample); [reflexivity |].
  intros i x Hx. rewrite (element_lookup _ _ _ Hx). apply clamped_sample_closed.
Qed.

(** X23: [decodeInt16] ends as [decode] does, with the same error or [null]
    and the same decoder; of a result it keeps everything but the
    samples, each of which becomes 32767 times its value between -1 and
    1, rounded towards zero: 32767 from 1 on, -32767 below -1, 0 for a
    NaN. *)
Theorem decodeInt16_samples (frameData : Buffer) (d : FAAD2NodeDecoder) :
  decodeInt16 frameData d
  = match decode frameData d with
    | (Returned (Some r), d') =>
        (Returned (Some {| pcm := map int16_of_sample (pcm r);
                           sampleRate := sampleRate r; channels := channels r;
                           samplesPerChannel := samplesPerChannel r |}), d')
    | (Returned None, d') => (Returned None, d')
    | (Threw e, d') => (Threw e, d')
    end.
Proof. exact (decodeInt16_closed frameData d). Qed.

Lemma trunc_nonneg (q : Q) : (0 <= q)%Q -> JS.trunc q = Qfloor q.
Proof.
  destruct q as [n den]. unfold Qle, JS.trunc, Qfloor. cbn [Qnum Qden]. intros H.
  apply Z.quot_div_nonneg; lia.
Qed.

Lemma trunc_nonpos (q : Q) : (q <= 0)%Q -> JS.trunc q = Qceiling q.
Proof.
  destruct q as [n den]. unfold Qle, JS.trunc, Qceiling, Qfloor, Qopp. cbn [Qnum Qden].
  intros H. rewrite <- (Z.opp_involutive n) at 1. rewrite Z.quot_opp_l by lia.
  f_equal. apply Z.quot_div_nonneg; lia.
Qed.

Lemma trunc_monotone (p q : Q) : (p <= q)%Q -> JS.trunc p <= JS.trunc q.
Proof.
  intros Hpq.
  destruct (Qlt_le_dec p 0) as [Hp | Hp]; destruct (Qlt_le_dec q 0) as [Hq | Hq].
  - rewrite !trunc_nonpos by (apply Qlt_le_weak; assumption).
    apply Qceiling_resp_le. exact Hpq.
  - rewrite trunc_nonpos by (apply Qlt_le_weak; assumption).
    rewrite trunc_nonneg by assumption.
    apply Z.le_trans with 0.
    + change 0 with (Qceiling 0). apply Qceiling_resp_le, Qlt_le_weak, Hp.
    + change 0 with (Qfloor 0). apply Qfloor_resp_le, Hq.
  - exfalso. apply (Qlt_irrefl q). apply Qlt_le_trans with 0%Q; [exact Hq |].
    apply Qle_trans with p; assumption.
  - rewrite !trunc_nonneg by assumption. apply Qfloor_resp_le. exact Hpq.
Qed.

Lemma int16_of_sample_range (x : JS.num) : - 32767 <= int16_of_sample x <= 32767.
Proof. rewrite <- clamped_sample_closed. apply clamped_sample_range. Qed.

Lemma int16_of_sample_monotone (p q : Q) :
  (p <= q)%Q -> int16_of_sample (JS.Fin p) <= int16_of_sample (JS.Fin q).
Proof.
  intros Hpq. pose proof (int16_of_sample_range (JS.Fin p)) as Hp.
  pose proof (int16_of_sample_range (JS.Fin q)) as Hq.
  unfold int16_of_sample in *.
  destruct (Qle_bool 1 q) eqn:Hq1; [lia |].
  destruct (Qle_bool 1 p) eqn:Hp1.
  { apply Qle_bool_iff in Hp1. apply Qle_bool_false in Hq1.
    exfalso. apply (Qlt_irrefl q). apply Qlt_le_trans with 1%Q; [exact Hq1 |].
    apply Qle_trans with p; assumption. }
  destruct (Qle_bool (-1) p) eqn:Hp2; [| lia].
  destruct (Qle_bool (-1) q) eqn:Hq2.
  - apply trunc_monotone. apply Qmult_le_compat_r; [exact Hpq | discriminate].
  - apply Qle_bool_iff in Hp2. apply Qle_bool_false in Hq2.
    exfalso. apply (Qlt_irrefl q). apply Qlt_le_trans with (-1)%Q; [exact Hq2 |].
    apply Qle_trans with p; assumption.
Qed.

(** X24: [decodeInt16] keeps the order of the samples: of two samples of the
    result of [decode], the one that is not the larger does not become
    the larger 16-bit value. *)
Theorem decodeInt16_keeps_order (frameData : Buffer) (d d' : FAAD2NodeDecoder)
    (r : DecodeResult JS.num) (r16 : DecodeResult Z) (i j : nat) (p q : Q) (v w : Z) :
  decode frameData d = (Returned (Some r), d') ->
  decodeInt16 frameData d = (Returned (Some r16), d') ->
  pcm r !! i = Some (JS.Fin p) -> pcm r !! j = Some (JS.Fin q) -> (p <= q)%Q ->
  pcm r16 !! i = Some v -> pcm r16 !! j = Some w ->
  v <= w.
Proof.
  intros Hdec H16 Hi Hj Hpq Hv Hw.
  rewrite decodeInt16_closed, Hdec in H16. injection H16 as <-.
  cbn [pcm] in Hv, Hw. rewrite list_lookup_fmap in Hv, Hw.
  rewrite Hi in Hv. rewrite Hj in Hw. cbn in Hv, Hw.
  injection Hv as <-. injection Hw as <-.
  apply int16_of_sample_monotone. exact Hpq.
Qed.

(** ** The loops of the lab scripts *)

Lemma walk_turn_cases (aacData : Buffer) (offset : Z) (w : Walk) (d : FAAD2NodeDecoder) :
  (exists chunk d',
      walk_turn aacData offset w d
      = ({| walk_offset := None; walk_frameCount := walk_frameCount w + 1;
            walk_totalSamples := None;
            walk_pcmChunks := walk_pcmChunks w ++ [chunk] |}, d')) \/
  (exists d',
      walk_turn aacData offset w d
      = ({| walk_offset := Some (offset + 1024); walk_frameCount := walk_frameCount w;
            walk_totalSamples := walk_totalSamples w;
            walk_pcmChunks := walk_pcmChunks w |}, d')).
Proof.
  unfold walk_turn. destruct (decode _ d) as [[[r |] | e] d']; eauto.
  destruct (0 <? _); eauto.
Qed.

Lemma walk_loop_ends (aacData : Buffer) (fuel : nat) :
  forall (offset : Z) (total : option Z) (d : FAAD2NodeDecoder),
    0 <= offset ->
    Z.max 0 (Z.of_nat (length aacData) - offset) + 1024 <= 1024 * Z.of_nat fuel ->
    exists w d',
      walk_loop fuel aacData
        {| walk_offset := Some offset; walk_frameCount := 0; walk_totalSamples := total;
           walk_pcmChunks := [] |} d = Some (w, d') /\
      ((walk_frameCount w = 0 /\ walk_pcmChunks w = [] /\ walk_totalSamples w = total /\
        exists last, walk_offset w = Some last /\ Z.of_nat (length aacData) <= last) \/
       (walk_frameCount w = 1 /\ length (walk_pcmChunks w) = 1%nat /\
        walk_offset w = None /\ walk_totalSamples w = None)).
Proof.
  induction fuel as [| fuel IH]; intros offset total d Hoff Hfuel; [lia |].
  cbn [walk_loop walk_offset walk_frameCount].
  destruct (Z.ltb_spec offset (Z.of_nat (length aacData))) as [Hin | Hout].
  - cbn [andb Z.ltb Z.compare].
    destruct (walk_turn_cases aacData offset
                {| walk_offset := Some offset; walk_frameCount := 0;
                   walk_totalSamples := total; walk_pcmChunks := [] |} d)
      as [(chunk & d' & Hturn) | (d' & Hturn)]; rewrite Hturn;
      cbn [walk_frameCount walk_totalSamples walk_pcmChunks].
    + destruct fuel as [| fuel]; [lia |].
      cbn [walk_loop walk_offset]. eexists _, _. split; [reflexivity |].
      right. cbn [walk_frameCount walk_pcmChunks walk_offset walk_totalSamples].
      repeat split.
    + apply IH; lia.
  - cbn [andb]. eexists _, _. split; [reflexivity |].
    left. cbn [walk_frameCount walk_pcmChunks walk_offset walk_totalSamples].
    repeat split. eauto.
Qed.

(** X25: the loop of [test_heaac.js] always ends, after at most one turn for
    every 1024 bytes and one more, and never keeps more than one frame:
    what [decode] returns has no [bytesConsumed], so the first frame that
    is decoded turns [offset], and [totalSamples] with it, into a [NaN],
    which ends the loop; every other turn moves on by 1024 bytes. *)
Theorem testHEAAC_keeps_one_frame (aacData : Buffer) (d : FAAD2NodeDecoder) (fuel : nat) :
  Z.of_nat (length aacData) / 1024 + 2 <= Z.of_nat fuel ->
  exists w d',
    walk_loop fuel aacData walk_start d = Some (w, d') /\
    ((walk_frameCount w = 0 /\ walk_pcmChunks w = [] /\ walk_totalSamples w = Some 0 /\
      exists last, walk_offset w = Some last /\ Z.of_nat (length aacData) <= last) \/
     (walk_frameCount w = 1 /\ length (walk_pcmChunks w) = 1%nat /\
      walk_offset w = None /\ walk_totalSamples w = None)).
Proof.
  intros Hfuel. apply walk_loop_ends; [lia |].
  pose proof (Z.div_mod (Z.of_nat (length aacData)) 1024 ltac:(lia)).
  pose proof (Z.mod_pos_bound (Z.of_nat (length aacData)) 1024 ltac:(lia)). lia.
Qed.

Lemma frames_turn_moves (aacData : Buffer) (frameInfo : AdtsHeader) (w : FrameWalk)
      (d : FAAD2NodeDecoder) :
  exists w' d',
    frames_turn aacData frameInfo w d = (w', d') /\
    frames_offset w' = frames_offset w + frameLength frameInfo /\
    ((frames_frameCount w' = frames_frameCount w /\
      frames_pcmChunks w' = frames_pcmChunks w /\
      frames_totalSamples w' = frames_totalSamples w) \/
     (frames_frameCount w' = frames_frameCount w + 1 /\
      exists r d0,
        decode (slice aacData (frames_offset w) (frames_offset w + frameLength frameInfo)) d0
        = (Returned (Some r), d') /\ d0 = d /\ pcm r <> [] /\
        frames_pcmChunks w' = frames_pcmChunks w ++ [pcm r] /\
        frames_totalSamples w' = frames_totalSamples w ++ [samplesPerChannel r])).
Proof.
  unfold frames_turn.
  destruct (decode _ d) as [[[r |] | e] d'] eqn:Hdec;
    try (eexists _, _; split; [reflexivity |]; split; [reflexivity |]; left;
         repeat split; reflexivity).
  destruct (Z.ltb_spec 0 (Z.of_nat (length (pcm r)))) as [Hpos | Hzero].
  - eexists _, _. split; [reflexivity |]. split; [reflexivity |]. right.
    split; [reflexivity |]. exists r, d. split; [exact Hdec |]. split; [reflexivity |].
    split; [destruct (pcm r); [cbn in Hpos; lia | discriminate] |].
    split; reflexivity.
  - eexists _, _. split; [reflexivity |]. split; [reflexivity |]. left.
    repeat split; reflexivity.
Qed.

Lemma frames_loop_ends (aacData : Buffer) :
  (forall offset h, parseADTS aacData offset = Some h -> 0 < frameLength h) ->
  forall (fuel : nat) (w : FrameWalk) (d : FAAD2NodeDecoder),
    0 <= frames_frameCount w <= 50 ->
    length (frames_pcmChunks w) = Z.to_nat (frames_frameCount w) ->
    length (frames_totalSamples w) = Z.to_nat (frames_frameCount w) ->
    Z.max 0 (Z.of_nat (length aacData) - frames_offset w) < Z.of_nat fuel ->
    exists w' d',
      frames_loop fuel aacData w d = Some (w', d') /\
      frames_offset w <= frames_offset w' /\
      0 <= frames_frameCount w' <= 50 /\
      length (frames_pcmChunks w') = Z.to_nat (frames_frameCount w') /\
      length (frames_totalSamples w') = Z.to_nat (frames_frameCount w') /\
      (frames_frameCount w' < 50 -> parseADTS aacData (frames_offset w') = None).
Proof.
  intros Hadv. induction fuel as [| fuel IH]; intros w d Hcount Hchunks Hsamples Hfuel.
  - lia.
  - cbn [frames_loop].
    destruct (Z.ltb_spec (frames_offset w) (Z.of_nat (length aacData))) as [Hin | Hout].
    + destruct (Z.ltb_spec (frames_frameCount w) 50) as [Hless | Hfull]; cbn [andb].
      * destruct (parseADTS aacData (frames_offset w)) as [frameInfo |] eqn:Hparse.
        -- pose proof (Hadv _ _ Hparse) as Hlen.
           destruct (frames_turn_moves aacData frameInfo w d)
             as (w1 & d1 & Hturn & Hoff & Hstate).
           rewrite Hturn.
           destruct (IH w1 d1) as (w' & d' & Hrun & Hmono & Hrest).
           ++ destruct Hstate as [(Hc & _) | (Hc & _)]; lia.
           ++ destruct Hstate as [(Hc & Hp & _) | (Hc & r & d0 & _ & _ & _ & Hp & _)];
                rewrite Hc, Hp; [exact Hchunks |].
              rewrite length_app, Hchunks. cbn [length]. lia.
           ++ destruct Hstate as [(Hc & _ & Hs) | (Hc & r & d0 & _ & _ & _ & _ & Hs)];
                rewrite Hc, Hs; [exact Hsamples |].
              rewrite length_app, Hsamples. cbn [length]. lia.
           ++ lia.
           ++ exists w', d'. split; [exact Hrun |]. split; [lia | exact Hrest].
        -- exists w, d. split; [reflexivity |]. split; [lia |]. auto.
      * exists w, d. split; [reflexivity |]. split; [lia |].
        repeat split; try assumption; lia.
    + cbn [andb]. exists w, d. split; [reflexivity |]. split; [lia |].
      repeat split; try assumption; try lia.
      intros _. destruct (parseADTS aacData (frames_offset w)) as [h |] eqn:Hparse;
        [| reflexivity].
      exfalso. revert Hparse. unfold parseADTS.
      destruct (Z.ltb_spec (Z.of_nat (length aacData)) (frames_offset w + 7)); [| lia].
      discriminate.
Qed.

(** X26: the loop of [test_heaac_v2.js] ends on every buffer in which no
    header declares a frame length of 0, within as many turns as the
    buffer has bytes: it keeps at most 50 frames, one chunk and one count
    of samples for each, and unless it has kept 50 it stops where
    [parseADTS] finds no header. *)
Theorem testHEAAC_v2_ends (aacData : Buffer) (d : FAAD2NodeDecoder) (fuel : nat) :
  (forall offset h, parseADTS aacData offset = Some h -> 0 < frameLength h) ->
  (length aacData < fuel)%nat ->
  exists w d',
    frames_loop fuel aacData frames_start d = Some (w, d') /\
    0 <= frames_frameCount w <= 50 /\
    length (frames_pcmChunks w) = Z.to_nat (frames_frameCount w) /\
    length (frames_totalSamples w) = Z.to_nat (frames_frameCount w) /\
    (frames_frameCount w < 50 -> parseADTS aacData (frames_offset w) = None).
Proof.
  intros Hadv Hfuel.
  destruct (frames_loop_ends aacData Hadv fuel frames_start d)
    as (w & d' & Hrun & _ & Hrest); cbn [frames_start frames_frameCount frames_pcmChunks
                                         frames_totalSamples frames_offset];
    try reflexivity; try lia.
  exists w, d'. split; [exact Hrun | exact Hrest].
Qed.

Lemma packed_status_engine (frameData : Buffer) (d : FAAD2NodeDecoder) (packed : Z) :
  packed_status frameData d = Some packed ->
  exists mem inPtr len outPtr outputSize,
    packed = fst (decode_frame_fn mem inPtr len outPtr outputSize).
Proof.
  unfold packed_status. destruct (negb _ || negb _); [discriminate |].
  unfold on_module. destruct (this_module d) as [m |]; [| discriminate].
  unfold invoke_engine, bind, _malloc, HEAPU8_set, HEAPU8_fill, _decode_frame, _free, ret.
  destruct (malloc_fn (memory m) _) as [inPtr mem1]. cbn [memory allocated byteLength].
  destruct (_ || _); [discriminate |]. cbn [memory allocated byteLength HEAPU8].
  destruct (malloc_fn _ _) as [outPtr mem2]. cbn [memory allocated].
  destruct (decode_frame_fn _ _ _ _ _) as [p mem3] eqn:Hengine.
  intros [= <-]. eexists _, _, _, _, _. rewrite Hengine. reflexivity.
Qed.

Lemma frames_loop_stalls (aacData : Buffer) (h : AdtsHeader) (w : FrameWalk) :
  (forall mem inPtr len outPtr outputSize,
      fst (decode_frame_fn mem inPtr len outPtr outputSize) <= 0) ->
  parseADTS aacData (frames_offset w) = Some h -> frameLength h = 0 ->
  frames_frameCount w < 50 ->
  forall (fuel : nat) (d : FAAD2NodeDecoder), frames_loop fuel aacData w d = None.
Proof.
  intros Hengine Hparse Hzero Hcount.
  induction fuel as [| fuel IH]; intros d; [reflexivity |].
  cbn [frames_loop].
  assert (Hin : frames_offset w < Z.of_nat (length aacData)).
  { revert Hparse. unfold parseADTS.
    destruct (Z.ltb_spec (Z.of_nat (length aacData)) (frames_offset w + 7));
      [discriminate | lia]. }
  destruct (Z.ltb_spec (frames_offset w) (Z.of_nat (length aacData))); [| lia].
  destruct (Z.ltb_spec (frames_frameCount w) 50); [| lia].
  cbn [andb]. rewrite Hparse.
  destruct (frames_turn_moves aacData h w d) as (w1 & d1 & Hturn & Hoff & Hstate).
  rewrite Hturn.
  destruct Hstate as [(Hc & Hp & Hs) | (_ & r & d0 & Hdec & -> & _)].
  - assert (Hw : w1 = w).
    { destruct w1, w. cbn in *. f_equal; lia || assumption. }
    rewrite Hw. apply IH.
  - exfalso.
    destruct (decode_result_shape _ _ _ _ Hdec) as (packed & Hst & Hpos & _).
    destruct (packed_status_engine _ _ _ Hst) as (mem & a & b & c & e & ->).
    specialize (Hengine mem a b c e). lia.
Qed.

(** X27: the loop of [test_heaac_v2.js] never ends on a buffer that starts
    with a header whose frame length is 0, when the engine gives no
    output: the offset stays where it is and no frame is counted. *)
Theorem testHEAAC_v2_stalls (aacData : Buffer) (h : AdtsHeader) (d : FAAD2NodeDecoder)
    (fuel : nat) :
  (forall mem inPtr len outPtr outputSize,
      fst (decode_frame_fn mem inPtr len outPtr outputSize) <= 0) ->
  parseADTS aacData 0 = Some h -> frameLength h = 0 ->
  frames_loop fuel aacData frames_start d = None.
Proof.
  intros Hengine Hparse Hzero.
  apply (frames_loop_stalls aacData h frames_start Hengine Hparse Hzero); cbn; lia.
Qed.

(** ** [decode]: every way out *)

Lemma engine_call_status (frameData : Buffer) (d : FAAD2NodeDecoder) :
  packed_status frameData d
  = match engine_call frameData d with
    | Some (packed, _, _) => Some packed
    | None => None
    end.
Proof.
  unfold packed_status, engine_call, on_module.
  destruct (negb _ || negb _); [reflexivity |].
  destruct (this_module d) as [m |]; [| reflexivity].
  destruct (invoke_engine _ m) as [[status | e] m']; reflexivity.
Qed.

Lemma engine_call_started (frameData : Buffer) (d : FAAD2NodeDecoder) (packed outPtr : Z)
      (m1 : WasmModule) :
  engine_call frameData d = Some (packed, outPtr, m1) ->
  exists m size,
    this_module d = Some m /\ this_initialized d = true /\
    allocated m1 = (outPtr, size) :: allocated m /\
    decode frameData d
    = finish_decode packed outPtr
        {| this_module := Some m1; this_initialized := this_initialized d;
           this_sampleRate := this_sampleRate d; this_channels := this_channels d |}.
Proof.
  unfold engine_call, decode, bind, on_module.
  destruct (this_module d) as [m |] eqn:Hm; [| discriminate].
  destruct (this_initialized d) eqn:Hinit; [| rewrite orb_true_r; discriminate].
  rewrite bool_decide_eq_true_2 by eauto. cbn [negb orb].
  destruct (invoke_engine _ m) as [[status | e] m'] eqn:Hinv; [| discriminate].
  intros [= <- <- <-].
  destruct (invoke_engine_ledger _ _ _ _ Hinv) as [size Hled].
  exists m, size. repeat split; assumption.
Qed.

Lemma invoke_engine_throw_ledger (rawAAC : Buffer) (m m' : WasmModule) (e : error) :
  invoke_engine rawAAC m = (Threw e, m') ->
  e = RangeError /\
  exists inPtr mem1,
    malloc_fn (memory m) (Z.of_nat (length rawAAC) + 64) = (inPtr, mem1) /\
    (inPtr < 0 \/ byteLength mem1 < inPtr + Z.of_nat (length rawAAC)) /\
    m' = {| memory := mem1;
            allocated := (inPtr, Z.of_nat (length rawAAC) + 64) :: allocated m |}.
Proof.
  unfold invoke_engine, bind, _malloc, HEAPU8_set, HEAPU8_fill, _decode_frame, _free, ret.
  destruct (malloc_fn (memory m) _) as [inPtr mem1]. cbn [memory allocated byteLength].
  destruct (Z.ltb_spec inPtr 0) as [Hneg | Hpos]; cbn [orb].
  { intros [= <- <-]. split; [reflexivity |]. exists inPtr, mem1. auto. }
  destruct (Z.ltb_spec (byteLength mem1) (inPtr + Z.of_nat (length rawAAC)))
    as [Hshort | Hfit].
  { intros [= <- <-]. split; [reflexivity |]. exists inPtr, mem1. auto. }
  cbn [memory allocated byteLength HEAPU8].
  destruct (malloc_fn _ _) as [outPtr mem2]. cbn [memory allocated].
  destruct (decode_frame_fn _ _ _ _ _) as [packed mem3]. discriminate.
Qed.

Lemma view_taken (outPtr samples : Z) (m : WasmModule) :
  (0 <= outPtr /\ outPtr mod 4 = 0 /\ outPtr + 4 * samples <= byteLength (memory m) ->
   Float32Array_slice outPtr samples m
   = (Returned (map (fun i => f32_at (HEAPU8 (memory m)) (outPtr + 4 * Z.of_nat i))
                    (seq 0 (Z.to_nat samples))), m)) /\
  (~ (0 <= outPtr /\ outPtr mod 4 = 0 /\ outPtr + 4 * samples <= byteLength (memory m)) ->
   Float32Array_slice outPtr samples m = (Threw RangeError, m)).
Proof.
  unfold Float32Array_slice.
  destruct (Z.ltb_spec outPtr 0) as [Hneg | Hpos]; cbn [orb];
    [split; [lia | reflexivity] |].
  destruct (Z.eqb_spec (outPtr mod 4) 0) as [Hal | Hmis]; cbn [negb orb];
    [| split; [lia | reflexivity]].
  destruct (Z.ltb_spec (byteLength (memory m)) (outPtr + 4 * samples)) as [Hbig | Hfit];
    split; try reflexivity; lia.
Qed.

Lemma finish_decode_exact (packed outPtr : Z) (d : FAAD2NodeDecoder) (m : WasmModule) :
  this_module d = Some m -> 0 < packed ->
  finish_decode packed outPtr d
  = match Float32Array_slice outPtr (status_samples packed) m with
    | (Returned pcm, _) =>
        (Returned (Some {| pcm := pcm;
                           sampleRate := node_rate (status_index packed);
                           channels := status_channels packed;
                           samplesPerChannel :=
                             JS.div (status_samples packed) (status_channels packed) |}),
         {| this_module := Some {| memory := free_fn (memory m) outPtr;
                                   allocated := release outPtr (allocated m) |};
            this_initialized := this_initialized d;
            this_sampleRate := node_rate (status_index packed);
            this_channels := status_channels packed |})
    | (Threw e, _) =>
        (Threw e,
         {| this_module := Some m; this_initialized := this_initialized d;
            this_sampleRate := node_rate (status_index packed);
            this_channels := status_channels packed |})
    end.
Proof.
  intros Hm Hpos. unfold finish_decode.
  destruct (Z.leb_spec packed 0) as [Hle | _]; [lia |].
  rewrite status_index_code, status_channels_code, status_samples_code.
  rewrite SAMPLE_RATE_lookup by apply status_index_range.
  generalize (node_rate (status_index packed)) (status_channels packed)
    (status_samples packed). intros rate count samples.
  unfold bind, set_sampleRate, set_channels, on_module, ret.
  cbn [this_module this_initialized this_sampleRate this_channels]. rewrite Hm.
  unfold Float32Array_slice, _free.
  destruct (_ || _ || _); reflexivity.
Qed.

(** C2, as the code has it: in a call of [decode] the input region is
    given back as soon as the engine has answered, so that only the output
    region is then outstanding; a call that returns, with [null] for a
    status word that is not positive or with a result for a positive one,
    has given back the output region too and leaves allocated what was
    allocated before.  A call that throws gives nothing back: the guard
    throws before anything is allocated, [HEAPU8.set] throws its
    [RangeError] with the input region still allocated, and on a positive
    status word whose view cannot be taken the [RangeError] of the
    constructor leaves the output region allocated.  After any sequence
    of calls whose status words are not positive, from a decoder with
    nothing outstanding, nothing is outstanding. *)
Theorem decode_releases_regions :
  (forall rawAAC m m' status,
      invoke_engine rawAAC m = (Returned status, m') ->
      exists size, allocated m' = (snd status, size) :: allocated m) /\
  (forall frameData d r d',
      decode frameData d = (Returned r, d') -> outstanding d' = outstanding d) /\
  (forall frameData d packed,
      packed_status frameData d = Some packed -> packed <= 0 ->
      exists d', decode frameData d = (Returned None, d') /\
                 outstanding d' = outstanding d) /\
  (forall frameData d packed outPtr m1,
      engine_call frameData d = Some (packed, outPtr, m1) -> 0 < packed ->
      (0 <= outPtr /\ outPtr mod 4 = 0 /\
       outPtr + 4 * status_samples packed <= byteLength (memory m1) ->
       exists r d', decode frameData d = (Returned (Some r), d') /\
                    outstanding d' = outstanding d) /\
      (~ (0 <= outPtr /\ outPtr mod 4 = 0 /\
          outPtr + 4 * status_samples packed <= byteLength (memory m1)) ->
       exists d' size, decode frameData d = (Threw RangeError, d') /\
                       outstanding d' = (outPtr, size) :: outstanding d)) /\
  (forall frameData d m inPtr mem1,
      this_module d = Some m -> this_initialized d = true ->
      malloc_fn (memory m) (Z.of_nat (length (_stripADTS frameData)) + 64) = (inPtr, mem1) ->
      inPtr < 0 \/ byteLength mem1 < inPtr + Z.of_nat (length (_stripADTS frameData)) ->
      exists d', decode frameData d = (Threw RangeError, d') /\
                 outstanding d'
                 = (inPtr, Z.of_nat (length (_stripADTS frameData)) + 64) :: outstanding d) /\
  (forall frameData d e d',
      decode frameData d = (Threw e, d') ->
      (e = Error "Decoder not initialized. Call configure() first." /\ d' = d) \/
      (e = RangeError /\ exists p n, outstanding d' = (p, n) :: outstanding d)) /\
  (forall d frames d',
      no_output_run d frames d' -> outstanding d = [] -> length (outstanding d') = 0%nat).
Proof.
  split; [exact invoke_engine_ledger |].
  split; [intros frameData d r d'; apply decode_returns_ledger |].
  split; [| split; [| split; [| split]]].
  - intros frameData d packed Hst Hle.
    destruct (decode_started _ _ _ Hst) as (m & outPtr & d1 & m1 & size & Hm & Hm1 & Hled & Heq).
    destruct (finish_decode_no_output packed outPtr d1 m1 size _ Hm1 Hled Hle)
      as (d2 & Hfin & Hrest).
    exists d2. rewrite Heq. split; [exact Hfin |].
    rewrite Hrest. unfold outstanding. rewrite Hm. reflexivity.
  - intros frameData d packed outPtr m1 Hcall Hpos.
    destruct (engine_call_started _ _ _ _ _ Hcall) as (m & size & Hm & Hinit & Hled & Heq).
    rewrite Heq, (finish_decode_exact _ _ _ m1) by (reflexivity || assumption).
    assert (Hout : outstanding d = allocated m) by (unfold outstanding; rewrite Hm; reflexivity).
    destruct (view_taken outPtr (status_samples packed) m1) as [Hfits Hnot].
    split; intros Hview.
    + rewrite (Hfits Hview). eexists _, _. split; [reflexivity |].
      unfold outstanding. cbn [this_module allocated]. rewrite Hled, release_head, Hm.
      reflexivity.
    + rewrite (Hnot Hview). eexists _, size. split; [reflexivity |].
      unfold outstanding at 1. cbn [this_module]. rewrite Hled, Hout. reflexivity.
  - intros frameData d m inPtr mem1 Hm Hinit Hmalloc Hout.
    unfold decode, bind, on_module. rewrite Hm, Hinit.
    rewrite bool_decide_eq_true_2 by eauto. cbn [negb orb].
    unfold invoke_engine, bind, _malloc, HEAPU8_set. rewrite Hmalloc.
    cbn [memory allocated byteLength].
    assert (Hcond : (inPtr <? 0)
                    || (byteLength mem1 <? inPtr + Z.of_nat (length (_stripADTS frameData)))
                    = true).
    { apply orb_true_iff. destruct Hout; [left; apply Z.ltb_lt | right; apply Z.ltb_lt];
        assumption. }
    rewrite Hcond. eexists. split; [reflexivity |].
    unfold outstanding. cbn [this_module allocated]. rewrite Hm. reflexivity.
  - intros frameData d e d' Hdec.
    destruct (engine_call frameData d) as [[[packed outPtr] m1] |] eqn:Hcall.
    + right.
      destruct (engine_call_started _ _ _ _ _ Hcall) as (m & size & Hm & Hinit & Hled & Heq).
      assert (Hout : outstanding d = allocated m)
        by (unfold outstanding; rewrite Hm; reflexivity).
      rewrite Heq in Hdec.
      set (d1 := {| this_module := Some m1; this_initialized := this_initialized d;
                    this_sampleRate := this_sampleRate d;
                    this_channels := this_channels d |}) in *.
      assert (Hm1 : this_module d1 = Some m1) by reflexivity.
      destruct (Z.le_gt_cases packed 0) as [Hle | Hpos].
      * destruct (finish_decode_no_output packed outPtr d1 m1 size _ Hm1 Hled Hle)
          as (d2 & Hfin & _).
        rewrite Hfin in Hdec. discriminate.
      * destruct (finish_decode_positive packed outPtr d1 m1 size _ Hm1 Hled ltac:(lia))
          as [(pcm & d2 & _ & _ & Hfin & _) | (d2 & _ & Hfin & Hrest)];
          rewrite Hfin in Hdec; [discriminate |].
        injection Hdec as <- <-. split; [reflexivity |].
        exists outPtr, size. rewrite Hrest, Hout. reflexivity.
    + revert Hcall Hdec. unfold engine_call, decode.
      destruct (negb _ || negb _) eqn:Hguard; [intros _ [= <- <-]; left; auto |].
      destruct (this_module d) as [m |] eqn:Hm.
      * unfold bind, on_module. rewrite Hm.
        destruct (invoke_engine _ m) as [[status | e0] m'] eqn:Hinv; [discriminate |].
        intros _ [= <- <-]. right.
        destruct (invoke_engine_throw_ledger _ _ _ _ Hinv)
          as (-> & inPtr & mem1 & _ & _ & ->).
        split; [reflexivity |]. eexists _, _.
        unfold outstanding. cbn [this_module allocated]. rewrite Hm. reflexivity.
      * exfalso. rewrite bool_decide_eq_false_2 in Hguard by (intros [x Hx]; discriminate).
        discriminate.
  - intros d frames d' Hrun Hnone.
    rewrite (no_output_run_ledger _ _ _ Hrun), Hnone. reflexivity.
Qed.

(** C3, as the code has it: on a positive status word [decode] makes no
    check of the channel count or of the sample count.  When the view
    of the output region can be taken (the address is not negative and a
    multiple of 4, and as many floats as bits 23-0 say lie in linear
    memory) the call returns a result: its [channels] is bits 27-24, zero
    included, its [pcm] is the floats of bits 23-0 many, and its
    [samplesPerChannel] is the quotient of the two as JavaScript divides
    (infinite or [NaN] for no channel, a fraction when the division is not
    exact).  Otherwise, and only then, the call throws the [RangeError]
    of the typed-array constructor. *)
Theorem decode_takes_status_as_is (frameData : Buffer) (d : FAAD2NodeDecoder)
    (packed outPtr : Z) (m1 : WasmModule) :
  engine_call frameData d = Some (packed, outPtr, m1) -> 0 < packed ->
  (0 <= outPtr /\ outPtr mod 4 = 0 /\
   outPtr + 4 * status_samples packed <= byteLength (memory m1) ->
   decode frameData d
   = (Returned
        (Some {| pcm := map (fun i => f32_at (HEAPU8 (memory m1)) (outPtr + 4 * Z.of_nat i))
                            (seq 0 (Z.to_nat (status_samples packed)));
                 sampleRate := node_rate (status_index packed);
                 channels := status_channels packed;
                 samplesPerChannel :=
                   JS.div (status_samples packed) (status_channels packed) |}),
      {| this_module := Some {| memory := free_fn (memory m1) outPtr;
                                allocated := release outPtr (allocated m1) |};
         this_initialized := true;
         this_sampleRate := node_rate (status_index packed);
         this_channels := status_channels packed |})) /\
  (~ (0 <= outPtr /\ outPtr mod 4 = 0 /\
      outPtr + 4 * status_samples packed <= byteLength (memory m1)) ->
   decode frameData d
   = (Threw RangeError,
      {| this_module := Some m1; this_initialized := true;
         this_sampleRate := node_rate (status_index packed);
         this_channels := status_channels packed |})).
Proof.
  intros Hcall Hpos.
  destruct (engine_call_started _ _ _ _ _ Hcall) as (m & size & Hm & Hinit & Hled & Heq).
  rewrite Heq, (finish_decode_exact _ _ _ m1) by (reflexivity || assumption).
  cbn [this_initialized]. rewrite Hinit.
  destruct (view_taken outPtr (status_samples packed) m1) as [Hfits Hnot].
  split; intros Hview; [rewrite (Hfits Hview) | rewrite (Hnot Hview)]; reflexivity.
Qed.

(** ** [decodePlanar]: the length of the arrays *)

Lemma toIndex_div (samples c : Z) :
  1 <= c -> 0 <= samples < 2 ^ 24 ->
  JS.toIndex (JS.div samples c) = Some (Z.to_nat (samples / c)).
Proof.
  intros Hc Hs. unfold JS.div.
  destruct (Z.eqb_spec c 0) as [H0 | _]; [lia |].
  unfold JS.toIndex. rewrite trunc_floor by lia.
  assert (Hq : 0 <= samples / c <= samples).
  { split; [apply Z.div_pos; lia |]. apply Z.div_le_upper_bound; nia. }
  destruct (Z.ltb_spec (samples / c) 0) as [Hneg | _]; [lia |].
  destruct (Z.ltb_spec (2 ^ 53 - 1) (samples / c)) as [Hbig | _]; [lia |].
  reflexivity.
Qed.

Lemma toIndex_whole (n len : nat) : JS.toIndex (JS.of_Z (Z.of_nat n)) = Some len -> len = n.
Proof.
  unfold JS.toIndex, JS.of_Z, JS.trunc. cbn [Qnum Qden inject_Z]. rewrite Z.quot_1_r.
  destruct (_ || _); [discriminate |]. intros [= <-]. apply Nat2Z.id.
Qed.

(** C8, as the code has it: when [decode] returns a result,
    [decodePlanar] on the same frame returns the same [sampleRate] and
    [channels] and one array for each channel.  Each array has
    [samplesPerChannel] samples rounded down to a whole number, which is
    the number of samples of [pcm] divided by the channels and rounded
    down, and [samplesPerChannel] itself when that is whole; sample [i]
    of channel [ch] is sample [i * channels + ch] of [pcm], and the samples
    of [pcm] left over are in no array.  When [decode] returns [null], so
    does [decodePlanar]. *)
Theorem decodePlanar_deinterleaves (frameData : Buffer) (d d' : FAAD2NodeDecoder) :
  (forall r : DecodeResult JS.num,
      decode frameData d = (Returned (Some r), d') ->
      exists planar,
        decodePlanar frameData d = (Returned (Some planar), d') /\
        Planar.sampleRate planar = sampleRate r /\
        Planar.channels planar = channels r /\
        length (Planar.channelData planar) = Z.to_nat (channels r) /\
        forall ch channelSamples,
          Planar.channelData planar !! ch = Some channelSamples ->
          JS.toIndex (samplesPerChannel r) = Some (length channelSamples) /\
          Z.of_nat (length channelSamples) = Z.of_nat (length (pcm r)) / channels r /\
          (forall n : nat,
              samplesPerChannel r = JS.of_Z (Z.of_nat n) -> length channelSamples = n) /\
          forall i, (i < length channelSamples)%nat ->
            channelSamples !! i = pcm r !! (i * Z.to_nat (channels r) + ch)%nat) /\
  (decode frameData d = (Returned None, d') ->
   decodePlanar frameData d = (Returned None, d')).
Proof.
  split.
  - intros r Hdec.
    destruct (decodePlanar_any _ _ _ _ Hdec) as (channelData & Heq & Hlen & Hall).
    destruct (decode_result_shape _ _ _ _ Hdec) as (packed & _ & _ & Hch & Hpcm & Hspc).
    pose proof (status_samples_range packed) as Hsamples.
    eexists. split; [exact Heq |].
    cbn [Planar.sampleRate Planar.channels Planar.channelData].
    do 3 (split; [first [reflexivity | exact Hlen] |]).
    intros ch channelSamples Hlook.
    destruct (Hall ch channelSamples Hlook) as [Hfloor Hvalues].
    assert (Hc : 1 <= channels r).
    { apply lookup_lt_Some in Hlook. lia. }
    assert (Hindex : JS.toIndex (samplesPerChannel r) = Some (length channelSamples)).
    { rewrite Hspc, <- Hch, toIndex_div by lia. f_equal.
      rewrite <- (Nat2Z.id (length channelSamples)), Hfloor. f_equal. f_equal. lia. }
    split; [exact Hindex |]. split; [exact Hfloor |]. split; [| exact Hvalues].
    intros n Hn. rewrite Hn in Hindex. apply (toIndex_whole _ _ Hindex).
  - intros Hdec. unfold decodePlanar, bind. rewrite Hdec. reflexivity.
Qed.

End Decoder.

(** ** The descriptor length reader *)

Lemma band_high_bit (b : byte) : (JS.band (b2z b) 0x80 =? 0) = (b2z b <? 2 ^ 7).
Proof. destruct b; reflexivity. Qed.

Lemma size_step (size : Z) (b : byte) :
  0 <= size < 2 ^ 21 ->
  JS.bor (JS.shl size 7) (JS.band (b2z b) 0x7F) = size * 2 ^ 7 + b2z b mod 2 ^ 7.
Proof.
  intros Hs. pose proof (b2z_range b) as Hb.
  rewrite shl_small by lia.
  change 0x7F with (2 ^ 7 - 1). rewrite band_low by lia.
  pose proof (Z.mod_pos_bound (b2z b) (2 ^ 7) ltac:(lia)).
  apply bor_add; lia.
Qed.

Lemma size_loop_exact (cont : Buffer) :
  forall (last : byte) (rest : Buffer) (size taken : Z) (k : nat),
    Forall continues cont -> ~ continues last ->
    0 <= size < 2 ^ (7 * Z.of_nat k) -> (k + length cont <= 3)%nat ->
    size_loop (cont ++ last :: rest) size taken
    = Returned (fold_left (fun acc b => acc * 2 ^ 7 + b2z b mod 2 ^ 7) (cont ++ [last]) size,
                taken + Z.of_nat (length cont) + 1).
Proof.
  induction cont as [| c cont IH]; intros last rest size taken k Hc Hl Hs Hk.
  - assert (2 ^ (7 * Z.of_nat k) <= 2 ^ 21) by (apply Z.pow_le_mono_r; lia).
    cbn [app size_loop fold_left length]. rewrite size_step by lia.
    rewrite band_high_bit.
    destruct (Z.ltb_spec (b2z last) (2 ^ 7)) as [_ | Hge]; [| now elim Hl].
    do 2 f_equal. lia.
  - assert (2 ^ (7 * Z.of_nat k) <= 2 ^ 14).
    { apply Z.pow_le_mono_r; [lia |]. cbn [length] in Hk. lia. }
    apply Forall_cons in Hc as [Hc0 Hc].
    cbn [app size_loop fold_left length]. rewrite size_step by lia.
    rewrite band_high_bit.
    destruct (Z.ltb_spec (b2z c) (2 ^ 7)) as [Hlt | _]; [unfold continues in Hc0; lia |].
    rewrite (IH last rest _ _ (S k)); try assumption.
    + do 2 f_equal. lia.
    + pose proof (Z.mod_pos_bound (b2z c) (2 ^ 7) ltac:(lia)).
      replace (7 * Z.of_nat (S k)) with (7 * Z.of_nat k + 7) by lia.
      rewrite Z.pow_add_r by lia. nia.
    + cbn [length] in Hk. lia.
Qed.

Lemma size_loop_returns (cont : Buffer) :
  forall (last : byte) (rest : Buffer) (size taken : Z),
    Forall continues cont -> ~ continues last ->
    exists size', size_loop (cont ++ last :: rest) size taken
                  = Returned (size', taken + Z.of_nat (length cont) + 1).
Proof.
  induction cont as [| c cont IH]; intros last rest size taken Hc Hl.
  - cbn [app size_loop length]. rewrite band_high_bit.
    destruct (Z.ltb_spec (b2z last) (2 ^ 7)) as [_ | Hge]; [| now elim Hl].
    eexists. do 2 f_equal. lia.
  - apply Forall_cons in Hc as [Hc0 Hc].
    cbn [app size_loop length]. rewrite band_high_bit.
    destruct (Z.ltb_spec (b2z c) (2 ^ 7)) as [Hlt | _]; [unfold continues in Hc0; lia |].
    destruct (IH last rest (JS.bor (JS.shl size 7) (JS.band (b2z c) 127)) (taken + 1) Hc Hl)
      as [size' Hsize'].
    exists size'. rewrite Hsize'. do 2 f_equal. lia.
Qed.

(** C5, as the code has it: an encoding of one to four bytes (up to three
    bytes with the high bit set, then one without) is read as the low seven
    bits of its bytes, most significant first, and every byte of it is
    taken; an encoding of any length is read to its last byte and gives a
    size, none is turned down for its length. *)
Theorem descriptor_length_read (cont : Buffer) (last : byte) (rest : Buffer) :
  Forall continues cont -> ~ continues last ->
  ((length cont <= 3)%nat ->
   size_loop (cont ++ last :: rest) 0 0
   = Returned (concat7 (cont ++ [last]), Z.of_nat (length cont) + 1)) /\
  (exists size,
     size_loop (cont ++ last :: rest) 0 0 = Returned (size, Z.of_nat (length cont) + 1)).
Proof.
  intros Hc Hl. split.
  - intros Hlen. rewrite (size_loop_exact cont last rest 0 0 0); try assumption.
    + reflexivity.
    + cbn. lia.
  - apply (size_loop_returns cont last rest 0 0); assumption.
Qed.

Lemma descriptor_length_read_witness :
  size_loop [x81; x02; xff] 0 0 = Returned (concat7 [x81; x02], 2) /\
  (exists size, size_loop [x81; x02; xff] 0 0 = Returned (size, 2)).
Proof.
  assert (Hc : Forall continues [x81]).
  { repeat constructor. unfold continues. vm_compute. discriminate. }
  assert (Hl : ~ continues x02).
  { unfold continues. vm_compute. intros H. apply H. reflexivity. }
  destruct (descriptor_length_read [x81] x02 [xff] Hc Hl) as [Hexact Hany].
  split; [apply Hexact; simpl; lia | exact Hany].
Defined.

(** A length of five bytes is read, not turned down: four bytes with the
    high bit set and then a zero give [2^28]. *)
Lemma five_byte_length_counterexample :
  size_loop [x81; x80; x80; x80; x00] 0 0 = Returned (2 ^ 28, 5) /\
  ~ length_rejected [x81; x80; x80; x80; x00].
Proof.
  split; [vm_compute; reflexivity |].
  intros H. apply (H (2 ^ 28) 5). vm_compute. reflexivity.
Qed.

(** ** [parseADTS] *)




(** ** The ASC made from a codec string *)

(** C7: for ["mp4a.40.2"], 44100 Hz and two channels the ASC is
    [0x12, 0x10]: object type 2 in the top five bits, frequency index 4
    (44100 Hz) in the next four, channel configuration 2 in the four after
    them.  [_extractASC] packs the same two bytes from an ADTS header of
    that profile, rate and channel configuration. *)
Theorem asc_for_aac_lc :
  asc_from_codec "mp4a.40.2" 44100 2 = Some [x12; x10] /\
  audioConfig_from_codec "mp4a.40.2" 44100 2 = Some [x12; x10] /\
  asc_fields [x12; x10] = (2, 4, 2) /\
  at_index sampleRates 4 = Some 44100 /\
  _extractASC [xff; xf1; x50; x80; x01; x1f; xfc] = Returned [x12; x10].
Proof.
  repeat split; vm_compute; reflexivity.
Qed.

Lemma codec_parts_he : split_on "." "mp4a.40.5" = ["mp4a"; "40"; "5"]%string.
Proof. reflexivity. Qed.

Lemma asc_for_he_fixed (sample_rate channel_count : Z) :
  asc_from_codec "mp4a.40.5" sample_rate channel_count
  = Some [x13; z2b (JS.bor 0x80 (JS.shl channel_count 3))].
Proof.
  unfold asc_from_codec, audioConfig_from_codec. rewrite codec_parts_he.
  reflexivity.
Qed.

Lemma he_fallback (sample_rate channel_count : Z) :
  exists b1 b3,
    audioConfig_from_codec "mp4a.40.5" sample_rate channel_count
    = Some [z2b (JS.bor (JS.shl 5 3)
                        (JS.shr (let i := indexOf sampleRates (JS.div sample_rate 2) in
                                 if i =? -1 then 15 else i) 1)); b1; x56; b3].
Proof.
  unfold audioConfig_from_codec. rewrite codec_parts_he.
  eexists. eexists. reflexivity.
Qed.

Remark core_rate_at_44100 : core_rate_is_halved 44100 2.
Proof.
  exists [x13; x90]. repeat split; vm_compute; reflexivity.
Qed.

(** At 48000 Hz half the rate is 24000 Hz, index 6; the ASC has index 7. *)
Lemma implicit_he_48000_counterexample :
  asc_from_codec "mp4a.40.5" 48000 2 = Some [x13; x90] /\
  asc_fields [x13; x90] = (2, 7, 2) /\
  indexOf sampleRates (JS.div 48000 2) = 6 /\
  ~ core_rate_is_halved 48000 2.
Proof.
  split; [vm_compute; reflexivity |]. split; [vm_compute; reflexivity |].
  split; [vm_compute; reflexivity |].
  intros (asc & Hasc & _ & Hfields).
  rewrite asc_for_he_fixed in Hasc. injection Hasc as <-.
  vm_compute in Hfields. discriminate.
Qed.

(** ** The decoder on a sample engine *)

Lemma decode_rate_from_SAMPLE_RATE_witness :
  exists r,
    fst (decode grow_malloc keep_free (answering_decode 0x62000004 four_samples)
           [x01; x02] ready_decoder) = Returned (Some r) /\
    sampleRate r = node_rate (status_index 0x62000004).
Proof.
  destruct (decode grow_malloc keep_free (answering_decode 0x62000004 four_samples)
              [x01; x02] ready_decoder) as [[[r |] | e] d'] eqn:Hdec.
  - exists r. split; [reflexivity |].
    apply (decode_rate_from_SAMPLE_RATE grow_malloc keep_free
             (answering_decode 0x62000004 four_samples) [x01; x02] ready_decoder
             0x62000004 r d'); [vm_compute; reflexivity | lia | exact Hdec].
  - vm_compute in Hdec. discriminate.
  - vm_compute in Hdec. discriminate.
Defined.

(** Index 4 is 44100 Hz in the table of the lab scripts and 32000 Hz in
    what [decode] returns. *)
Lemma decode_rate_counterexample :
  packed_status grow_malloc keep_free (answering_decode 0x42000004 four_samples)
    [x01; x02] ready_decoder = Some 0x42000004 /\
  (exists r d',
      decode grow_malloc keep_free (answering_decode 0x42000004 four_samples)
        [x01; x02] ready_decoder = (Returned (Some r), d') /\
      sampleRate r = 32000) /\
  canonical_rate (status_index 0x42000004) = 44100 /\
  ~ rate_follows grow_malloc keep_free (answering_decode 0x42000004 four_samples)
      canonical_rate.
Proof.
  assert (Hst : packed_status grow_malloc keep_free
                  (answering_decode 0x42000004 four_samples) [x01; x02] ready_decoder
                = Some 0x42000004) by (vm_compute; reflexivity).
  destruct (decode grow_malloc keep_free (answering_decode 0x42000004 four_samples)
              [x01; x02] ready_decoder) as [[[r |] | e] d'] eqn:Hdec;
    try (vm_compute in Hdec; discriminate).
  assert (Hrate : sampleRate r = 32000).
  { vm_compute in Hdec. injection Hdec as <- _. reflexivity. }
  split; [exact Hst |]. split; [exists r, d'; split; [reflexivity | exact Hrate] |].
  split; [vm_compute; reflexivity |].
  intros H. specialize (H [x01; x02] ready_decoder 0x42000004 r d' Hst ltac:(lia) Hdec).
  rewrite Hrate in H. vm_compute in H. discriminate.
Qed.

(** A status word of no channel and three samples, and one of two
    channels and three samples, both give a result. *)
Lemma decode_corrupt_status_counterexample :
  (exists r d',
      decode grow_malloc keep_free (answering_decode 0x40000003 four_samples)
        [x01; x02] ready_decoder = (Returned (Some r), d') /\
      channels r = 0 /\ length (pcm r) = 3%nat /\ samplesPerChannel r = JS.PInf) /\
  (exists r d',
      decode grow_malloc keep_free (answering_decode 0x42000003 four_samples)
        [x01; x02] ready_decoder = (Returned (Some r), d') /\
      channels r = 2 /\ length (pcm r) = 3%nat /\ samplesPerChannel r = JS.Fin (3 # 2)) /\
  ~ corrupt_status_refused grow_malloc keep_free (answering_decode 0x40000003 four_samples) /\
  ~ corrupt_status_refused grow_malloc keep_free (answering_decode 0x42000003 four_samples).
Proof.
  destruct (decode grow_malloc keep_free (answering_decode 0x40000003 four_samples)
              [x01; x02] ready_decoder) as [[[r0 |] | e0] d0] eqn:Hdec0;
    try (vm_compute in Hdec0; discriminate).
  destruct (decode grow_malloc keep_free (answering_decode 0x42000003 four_samples)
              [x01; x02] ready_decoder) as [[[r2 |] | e2] d2] eqn:Hdec2;
    try (vm_compute in Hdec2; discriminate).
  split; [| split; [| split]].
  - exists r0, d0. split; [reflexivity |].
    vm_compute in Hdec0. injection Hdec0 as <- _. repeat split.
  - exists r2, d2. split; [reflexivity |].
    vm_compute in Hdec2. injection Hdec2 as <- _. repeat split.
  - intros H.
    apply (H [x01; x02] ready_decoder 0x40000003) with (r := r0) (d' := d0);
      [vm_compute; reflexivity | lia | | exact Hdec0].
    left. vm_compute. reflexivity.
  - intros H.
    apply (H [x01; x02] ready_decoder 0x42000003) with (r := r2) (d' := d2);
      [vm_compute; reflexivity | lia | | exact Hdec2].
    right. right. vm_compute. discriminate.
Qed.

Lemma decodeInt16_range_witness :
  exists r16,
    fst (decodeInt16 grow_malloc keep_free (answering_decode 0x42000004 four_samples)
           [x01; x02] ready_decoder) = Returned (Some r16) /\
    pcm r16 = [32767; -32767; 16383; 32767] /\
    Forall (fun v => - 32767 <= v <= 32767) (pcm r16).
Proof.
  destruct (decodeInt16 grow_malloc keep_free (answering_decode 0x42000004 four_samples)
              [x01; x02] ready_decoder) as [[[r16 |] | e] d'] eqn:Hdec.
  - exists r16. split; [reflexivity |]. split.
    + vm_compute in Hdec. injection Hdec as <- _. reflexivity.
    + apply (decodeInt16_range grow_malloc keep_free
               (answering_decode 0x42000004 four_samples) [x01; x02] ready_decoder d' r16 Hdec).
  - vm_compute in Hdec. discriminate.
  - vm_compute in Hdec. discriminate.
Defined.

Lemma configure_short_buffer_witness :
  configure grow_malloc keep_free (answering_init 0) [x12; x10] true fresh_decoder
  = init_engine grow_malloc keep_free (answering_init 0) [x12; x10] fresh_decoder /\
  (exists ascPtr m',
      stage_asc grow_malloc [x12; x10] empty_module = (Returned ascPtr, m') /\
      read_bytes (HEAPU8 (memory m')) ascPtr 2 = [x12; x10]) /\
  fst (configure grow_malloc keep_free (answering_init 0) [x12; x10] true fresh_decoder)
  = Returned tt.
Proof.
  destruct (configure_short_buffer grow_malloc keep_free (answering_init 0) [x12; x10] true)
    as [Hconf Hheld]; [simpl; lia |].
  split; [apply Hconf |]. split.
  - destruct (stage_asc grow_malloc [x12; x10] empty_module) as [[ascPtr | e] m'] eqn:Hstage.
    + exists ascPtr, m'. split; [reflexivity |].
      apply (Hheld fresh_decoder empty_module ascPtr m' eq_refl Hstage).
    + vm_compute in Hstage. discriminate.
  - vm_compute. reflexivity.
Defined.

(** A status word whose sample count does not fit the memory makes the
    view fail: the call ends in the [RangeError], after the input region
    was given back and before the output region is. *)
Remark decode_view_failure :
  exists d',
    decode grow_malloc keep_free (answering_decode 0x42FFFFFF four_samples)
      [x01; x02] ready_decoder = (Threw RangeError, d') /\
    outstanding d' = [(65608, 32768)].
Proof.
  eexists. split; [vm_compute; reflexivity | reflexivity].
Qed.

(** ** The definitions at work *)

Example stripADTS_sample :
  _stripADTS [xff; xf1; x50; x80; x01; x1f; xfc; xde; xad] = [xde; xad] /\
  _stripADTS [xff; xf0; x50; x80; x01; x7f; xfc; x00; x00; xde; xad] = [xde; xad] /\
  _stripADTS [x21; x10; x05] = [x21; x10; x05].
Proof. repeat split; vm_compute; reflexivity. Qed.

Example extractASC_sample :
  _extractASC [xff; xf1; x50; x80; x01; x1f; xfc; xde; xad] = Returned [x12; x10] /\
  _extractASC [x13; x90; x00] = Returned [x13; x90] /\
  _extractASC [x13] = Threw (Error "Unable to extract AudioSpecificConfig").
Proof. repeat split; vm_compute; reflexivity. Qed.

Example esds_sample :
  esds_audioConfig
    [x00; x00; x00; x00;
     x03; x80; x80; x80; x19; x00; x01; x00;
     x04; x11; x40; x15; x00; x00; x00; x00; x01; xf4; x00; x00; x01; xf4; x00;
     x05; x02; x12; x10;
     x06; x01; x02]
  = Returned (Some [x12; x10]).
Proof. vm_compute. reflexivity. Qed.

Example parseADTS_sample :
  parseADTS [x00; xff; xf1; x50; x80; x2e; x7f; xfc] 1
  = Some {| syncword := 0xFFF; profile := 2; profileName := "AAC LC";
            sampleRateIndex := 4; adts_sampleRate := Some 44100;
            channelConfig := 2; adts_channels := 2; frameLength := 371;
            headerSize := 7; protectionAbsent := 1; dataLength := 364 |}.
Proof. vm_compute. reflexivity. Qed.

Example status_word_sample :
  status_index 0x62001234 = 6 /\ status_channels 0x62001234 = 2 /\
  status_samples 0x62001234 = 0x1234 /\ node_rate 6 = 48000.
Proof. repeat split. Qed.

(** ** ADTS headers: [parseADTS], [_stripADTS] and [_extractASC] together *)

Lemma shr_div (a n : Z) : 0 <= a < 2 ^ 31 -> 0 <= n < 32 -> JS.shr a n = a / 2 ^ n.
Proof.
  intros Ha Hn. unfold JS.shr. rewrite shift_count by lia.
  rewrite toInt32_small by lia. apply Z.shiftr_div_pow2. lia.
Qed.

Lemma byteAt_range (data : Buffer) (i : Z) : 0 <= byteAt data i < 256.
Proof.
  unfold byteAt. destruct (i <? 0); [lia |].
  destruct (data !! Z.to_nat i) as [b |]; [apply b2z_range | lia].
Qed.

Lemma byteAt_lookup (data : Buffer) (i : nat) (b : byte) :
  data !! i = Some b -> byteAt data (Z.of_nat i) = b2z b.
Proof.
  intros H. unfold byteAt.
  destruct (Z.ltb_spec (Z.of_nat i) 0) as [Hneg | _]; [lia |].
  rewrite Nat2Z.id, H. reflexivity.
Qed.

Lemma syncword_closed (data : Buffer) (offset : Z) :
  adts_syncword data offset = 16 * byteAt data offset + byteAt data (offset + 1) / 16.
Proof.
  unfold adts_syncword.
  pose proof (byteAt_range data offset) as H0.
  pose proof (byteAt_range data (offset + 1)) as H1.
  rewrite shl_small, shr_div by lia.
  assert (0 <= byteAt data (offset + 1) / 2 ^ 4 < 2 ^ 4).
  { split; [apply Z.div_pos; lia | apply Z.div_lt_upper_bound; lia]. }
  rewrite bor_add by lia. change (2 ^ 4) with 16. lia.
Qed.

Lemma syncword_recognised (data : Buffer) (offset : Z) :
  adts_syncword data offset = 0xFFF <->
  byteAt data offset = 255 /\ 240 <= byteAt data (offset + 1).
Proof.
  rewrite syncword_closed.
  pose proof (byteAt_range data offset) as H0.
  pose proof (byteAt_range data (offset + 1)) as H1.
  assert (0 <= byteAt data (offset + 1) / 16 < 16).
  { split; [apply Z.div_pos; lia | apply Z.div_lt_upper_bound; lia]. }
  split.
  - intros Hs. assert (byteAt data (offset + 1) / 16 = 15) by lia.
    split; [lia |].
    pose proof (Z.div_mod (byteAt data (offset + 1)) 16 ltac:(lia)).
    pose proof (Z.mod_pos_bound (byteAt data (offset + 1)) 16 ltac:(lia)). lia.
  - intros [Ha Hb]. rewrite Ha.
    pose proof (Z.div_mod (byteAt data (offset + 1)) 16 ltac:(lia)).
    pose proof (Z.mod_pos_bound (byteAt data (offset + 1)) 16 ltac:(lia)). lia.
Qed.

Lemma parseADTS_found (data : Buffer) (offset : Z) :
  is_Some (parseADTS data offset) <->
  offset + 7 <= Z.of_nat (length data) /\
  byteAt data offset = 255 /\ 240 <= byteAt data (offset + 1).
Proof.
  rewrite <- syncword_recognised. unfold parseADTS.
  destruct (Z.ltb_spec (Z.of_nat (length data)) (offset + 7)) as [Hlt | Hge].
  - split; [intros [h Hh]; discriminate | lia].
  - destruct (Z.eqb_spec (adts_syncword data offset) 0xFFF) as [Heq | Hne]; cbn [negb].
    + split; [intros _; split; [lia | exact Heq] | intros _; eexists; reflexivity].
    + split; [intros [h Hh]; discriminate | intros [_ Hs]; contradiction].
Qed.

(** X1: [parseADTS] gives a header exactly where seven bytes remain, the first
    is [0xFF] and the second is [0xF0] or more; in particular at no
    negative offset. *)
Theorem parseADTS_recognises (data : Buffer) (offset : Z) :
  is_Some (parseADTS data offset) <->
  offset + 7 <= Z.of_nat (length data) /\
  byteAt data offset = 255 /\ 240 <= byteAt data (offset + 1).
Proof. exact (parseADTS_found data offset). Qed.


Lemma parseADTS_offset (data : Buffer) (offset : Z) (h : AdtsHeader) :
  parseADTS data offset = Some h -> 0 <= offset /\ offset + 7 <= Z.of_nat (length data).
Proof.
  intros Hh. destruct (proj1 (parseADTS_found data offset)) as (Hlen & H0 & _);
    [eexists; exact Hh |].
  split; [| exact Hlen].
  destruct (Z.lt_ge_cases offset 0) as [Hneg | Hpos]; [| exact Hpos].
  unfold byteAt in H0. destruct (Z.ltb_spec offset 0); [discriminate | lia].
Qed.

Lemma band_one (a : Z) : JS.band a 1 = a mod 2.
Proof. change 1 with (2 ^ 1 - 1). rewrite band_mask by lia. reflexivity. Qed.

Lemma header_size_cases (x : Z) : (if JS.band x 1 =? 0 then 9 else 7) = 9 - 2 * (x mod 2).
Proof.
  rewrite band_one. pose proof (Z.mod_pos_bound x 2 ltac:(lia)).
  destruct (Z.eqb_spec (x mod 2) 0); lia.
Qed.

Lemma field_profile (x : Z) :
  0 <= x < 256 -> JS.band (JS.shr x 6) 0x03 + 1 = x / 64 + 1.
Proof.
  intros Hx. rewrite shr_div by lia. change 0x03 with (2 ^ 2 - 1).
  rewrite band_mask by lia. change (2 ^ 6) with 64. change (2 ^ 2) with 4.
  rewrite Z.mod_small; [reflexivity |].
  split; [apply Z.div_pos; lia | apply Z.div_lt_upper_bound; lia].
Qed.

Lemma field_rate_index (x : Z) :
  0 <= x < 256 -> JS.band (JS.shr x 2) 0x0F = (x / 4) mod 16.
Proof.
  intros Hx. rewrite shr_div by lia. change 0x0F with (2 ^ 4 - 1).
  rewrite band_mask by lia. reflexivity.
Qed.

Lemma field_channel_config (x y : Z) :
  0 <= x < 256 -> 0 <= y < 256 ->
  JS.bor (JS.shl (JS.band x 0x01) 2) (JS.band (JS.shr y 6) 0x03) = 4 * (x mod 2) + y / 64.
Proof.
  intros Hx Hy. rewrite band_one. pose proof (Z.mod_pos_bound x 2 ltac:(lia)).
  rewrite shl_small by lia. rewrite shr_div by lia. change 0x03 with (2 ^ 2 - 1).
  rewrite band_mask by lia. change (2 ^ 6) with 64.
  assert (0 <= y / 64 < 4).
  { split; [apply Z.div_pos; lia | apply Z.div_lt_upper_bound; lia]. }
  rewrite (Z.mod_small (y / 64)) by (change (2 ^ 2) with 4; lia).
  rewrite bor_add by (change (2 ^ 2) with 4; lia). lia.
Qed.

Lemma field_frame_length (x y z : Z) :
  0 <= x < 256 -> 0 <= y < 256 -> 0 <= z < 256 ->
  JS.bor (JS.bor (JS.shl (JS.band x 0x03) 11) (JS.shl y 3)) (JS.band (JS.shr z 5) 0x07)
  = 2048 * (x mod 4) + 8 * y + z / 32.
Proof.
  intros Hx Hy Hz.
  replace (JS.band x 3) with (x mod 4) by (symmetry; apply (band_mask x 2); lia).
  pose proof (Z.mod_pos_bound x 4 ltac:(lia)).
  rewrite !shl_small by lia. rewrite shr_div by lia.
  replace (JS.band (z / 2 ^ 5) 7) with ((z / 32) mod 8)
    by (symmetry; apply (band_mask (z / 2 ^ 5) 3); lia).
  assert (0 <= z / 32 < 8).
  { split; [apply Z.div_pos; lia | apply Z.div_lt_upper_bound; lia]. }
  rewrite (Z.mod_small (z / 32)) by lia.
  rewrite (bor_add (x mod 4) (y * 2 ^ 3) 11) by lia.
  replace (x mod 4 * 2 ^ 11 + y * 2 ^ 3) with ((x mod 4 * 256 + y) * 2 ^ 3) by lia.
  rewrite bor_add by lia. lia.
Qed.

Lemma all_below_true (n : nat) (P : Z -> bool) :
  all_below n P = true -> forall z, 0 <= z < Z.of_nat n -> P z = true.
Proof.
  unfold all_below. rewrite forallb_forall. intros H z Hz. apply H.
  apply in_map_iff. exists (Z.to_nat z). split; [lia |].
  apply in_seq. lia.
Qed.

(** The two bytes give back the three fields they were made of. *)
Lemma asc_bytes_fields (objectType sampleRateIndex channels : Z) :
  0 <= objectType < 32 -> 0 <= sampleRateIndex < 16 -> 0 <= channels < 16 ->
  asc_fields (asc_bytes objectType sampleRateIndex channels)
  = (objectType, sampleRateIndex, channels).
Proof.
  intros Ht Hs Hc.
  assert (Hall : all_below 32 (fun t => all_below 16 (fun s => all_below 16 (fun c =>
            let '(t', s', c') := asc_fields (asc_bytes t s c) in
            (t' =? t) && (s' =? s) && (c' =? c)))) = true) by (vm_compute; reflexivity).
  pose proof (all_below_true _ _ (all_below_true _ _
                (all_below_true _ _ Hall objectType ltac:(lia))
                sampleRateIndex ltac:(lia)) channels ltac:(lia)) as H.
  cbv beta in H.
  destruct (asc_fields (asc_bytes objectType sampleRateIndex channels)) as [[t' s'] c'].
  apply andb_true_iff in H as [H Hc']. apply andb_true_iff in H as [Ht' Hs'].
  apply Z.eqb_eq in Ht', Hs', Hc'. congruence.
Qed.

Lemma parseADTS_closed (data : Buffer) (offset : Z) (h : AdtsHeader) :
  parseADTS data offset = Some h ->
  syncword h = 0xFFF /\
  protectionAbsent h = byteAt data (offset + 1) mod 2 /\
  profile h = byteAt data (offset + 2) / 64 + 1 /\
  sampleRateIndex h = (byteAt data (offset + 2) / 4) mod 16 /\
  channelConfig h = 4 * (byteAt data (offset + 2) mod 2) + byteAt data (offset + 3) / 64 /\
  frameLength h = 2048 * (byteAt data (offset + 3) mod 4) + 8 * byteAt data (offset + 4)
                  + byteAt data (offset + 5) / 32 /\
  headerSize h = 9 - 2 * (byteAt data (offset + 1) mod 2) /\
  dataLength h = frameLength h - headerSize h /\
  adts_sampleRate h = at_index sampleRates (sampleRateIndex h) /\
  adts_channels h = (if channelConfig h =? 7 then 8 else channelConfig h) /\
  profileName h = match at_index profiles (profile h) with
                  | Some (String c s) => String c s
                  | _ => ("Profile " +:+ pretty (profile h))%string
                  end.
Proof.
  unfold parseADTS.
  destruct (_ <? _); [discriminate |].
  destruct (Z.eqb_spec (adts_syncword data offset) 0xFFF) as [Hs | Hs]; [| discriminate].
  cbn [negb]. intros [= <-].
  cbn [syncword protectionAbsent profile sampleRateIndex channelConfig frameLength headerSize
       dataLength adts_sampleRate adts_channels profileName].
  pose proof (byteAt_range data (offset + 1)). pose proof (byteAt_range data (offset + 2)).
  pose proof (byteAt_range data (offset + 3)). pose proof (byteAt_range data (offset + 4)).
  pose proof (byteAt_range data (offset + 5)).
  rewrite header_size_cases, band_one, field_profile, field_rate_index,
    field_channel_config, field_frame_length by assumption.
  repeat split; assumption.
Qed.

(** X2: the bit layout that [parseADTS] reads: protection flag in bit 0 of
    byte 1; in byte 2 the profile (less one) in bits 7-6, the frequency
    index in bits 5-2 and the high bit of the channel configuration in bit
    0, whose low two bits are bits 7-6 of byte 3; the frame length is the
    13-bit number made of bits 1-0 of byte 3, byte 4 and bits 7-5 of
    byte 5. *)
Theorem parseADTS_layout (data : Buffer) (offset : Z) (h : AdtsHeader) :
  parseADTS data offset = Some h ->
  protectionAbsent h = byteAt data (offset + 1) mod 2 /\
  profile h = byteAt data (offset + 2) / 64 + 1 /\
  sampleRateIndex h = (byteAt data (offset + 2) / 4) mod 16 /\
  channelConfig h = 4 * (byteAt data (offset + 2) mod 2) + byteAt data (offset + 3) / 64 /\
  frameLength h = 2048 * (byteAt data (offset + 3) mod 4) + 8 * byteAt data (offset + 4)
                  + byteAt data (offset + 5) / 32.
Proof.
  intros Hh. destruct (parseADTS_closed _ _ _ Hh) as (_ & Hp & Hpr & Hs & Hc & Hf & _).
  repeat split; assumption.
Qed.

Lemma parseADTS_field_ranges (data : Buffer) (offset : Z) (h : AdtsHeader) :
  parseADTS data offset = Some h ->
  syncword h = 0xFFF /\
  1 <= profile h <= 4 /\
  In (profileName h) ["AAC Main"; "AAC LC"; "AAC SSR"; "AAC LTP"]%string /\
  0 <= sampleRateIndex h <= 15 /\
  (adts_sampleRate h = None <-> 13 <= sampleRateIndex h) /\
  0 <= channelConfig h <= 7 /\
  (channelConfig h <> 7 -> adts_channels h = channelConfig h) /\
  (channelConfig h = 7 -> adts_channels h = 8) /\
  (protectionAbsent h = 1 /\ headerSize h = 7 \/ protectionAbsent h = 0 /\ headerSize h = 9) /\
  0 <= frameLength h <= 8191 /\
  dataLength h = frameLength h - headerSize h /\
  - 9 <= dataLength h <= 8184.
Proof.
  intros Hh.
  destruct (parseADTS_closed _ _ _ Hh)
    as (Hsy & Hp & Hpr & Hs & Hc & Hf & Hhs & Hd & Hsr & Hch & Hpn).
  pose proof (byteAt_range data (offset + 1)) as B1.
  pose proof (byteAt_range data (offset + 2)) as B2.
  pose proof (byteAt_range data (offset + 3)) as B3.
  pose proof (byteAt_range data (offset + 4)) as B4.
  pose proof (byteAt_range data (offset + 5)) as B5.
  pose proof (Z.mod_pos_bound (byteAt data (offset + 1)) 2 ltac:(lia)).
  pose proof (Z.mod_pos_bound (byteAt data (offset + 2)) 2 ltac:(lia)).
  pose proof (Z.mod_pos_bound (byteAt data (offset + 3)) 4 ltac:(lia)).
  pose proof (Z.mod_pos_bound (byteAt data (offset + 2) / 4) 16 ltac:(lia)).
  assert (0 <= byteAt data (offset + 2) / 64 < 4).
  { split; [apply Z.div_pos; lia | apply Z.div_lt_upper_bound; lia]. }
  assert (0 <= byteAt data (offset + 3) / 64 < 4).
  { split; [apply Z.div_pos; lia | apply Z.div_lt_upper_bound; lia]. }
  assert (0 <= byteAt data (offset + 5) / 32 < 8).
  { split; [apply Z.div_pos; lia | apply Z.div_lt_upper_bound; lia]. }
  assert (Hprof : 1 <= profile h <= 4) by lia.
  assert (Hidx : 0 <= sampleRateIndex h <= 15) by lia.
  split; [exact Hsy |]. split; [exact Hprof |]. split.
  { rewrite Hpn.
    assert (Hcases : profile h = 1 \/ profile h = 2 \/ profile h = 3 \/ profile h = 4) by lia.
    destruct Hcases as [-> | [-> | [-> | ->]]]; cbn; tauto. }
  split; [exact Hidx |]. split.
  { rewrite Hsr.
    assert (Hcases : sampleRateIndex h = 0 \/ sampleRateIndex h = 1 \/ sampleRateIndex h = 2 \/
                     sampleRateIndex h = 3 \/ sampleRateIndex h = 4 \/ sampleRateIndex h = 5 \/
                     sampleRateIndex h = 6 \/ sampleRateIndex h = 7 \/ sampleRateIndex h = 8 \/
                     sampleRateIndex h = 9 \/ sampleRateIndex h = 10 \/ sampleRateIndex h = 11 \/
                     sampleRateIndex h = 12 \/ sampleRateIndex h = 13 \/ sampleRateIndex h = 14 \/
                     sampleRateIndex h = 15) by lia.
    repeat (destruct Hcases as [-> | Hcases]; [cbn; split; [discriminate || reflexivity | lia || reflexivity] |]).
    rewrite Hcases. cbn. split; [lia | reflexivity]. }
  split; [lia |]. split.
  { intros Hne. rewrite Hch. destruct (Z.eqb_spec (channelConfig h) 7); [contradiction | reflexivity]. }
  split.
  { intros He. rewrite Hch, He. reflexivity. }
  split; [lia |]. split; [lia |]. split; [exact Hd | lia].
Qed.

(** X3: the values a header can hold: the profile is 1 to 4 and has a name of
    the table, the frequency index is 0 to 15 and has a rate unless it is
    13 or more, the channel configuration is 0 to 7 and counts as that many
    channels but for 7, which counts as 8, the header size is 7 with the
    protection flag set and 9 without, the frame length is 0 to 8191 and
    the data length is the difference, from -9 to 8184. *)
Theorem parseADTS_ranges (data : Buffer) (offset : Z) (h : AdtsHeader) :
  parseADTS data offset = Some h ->
  syncword h = 0xFFF /\
  1 <= profile h <= 4 /\
  In (profileName h) ["AAC Main"; "AAC LC"; "AAC SSR"; "AAC LTP"]%string /\
  0 <= sampleRateIndex h <= 15 /\
  (adts_sampleRate h = None <-> 13 <= sampleRateIndex h) /\
  0 <= channelConfig h <= 7 /\
  (channelConfig h <> 7 -> adts_channels h = channelConfig h) /\
  (channelConfig h = 7 -> adts_channels h = 8) /\
  (protectionAbsent h = 1 /\ headerSize h = 7 \/ protectionAbsent h = 0 /\ headerSize h = 9) /\
  0 <= frameLength h <= 8191 /\
  dataLength h = frameLength h - headerSize h /\
  - 9 <= dataLength h <= 8184.
Proof. exact (parseADTS_field_ranges data offset h). Qed.


Lemma slice_from_drop {A : Type} (data : list A) (k : Z) :
  0 <= k -> slice_from data k = drop (Z.to_nat k) data.
Proof.
  intros Hk. unfold slice_from, slice, relative_index.
  destruct (Z.ltb_spec k 0) as [Hneg | _]; [lia |].
  destruct (Z.ltb_spec (Z.of_nat (length data)) 0) as [Hneg | _]; [lia |].
  rewrite Z.min_id.
  destruct (Z.le_gt_cases k (Z.of_nat (length data))) as [Hle | Hgt].
  - rewrite Z.min_l by lia. apply take_ge. rewrite length_drop. lia.
  - rewrite Z.min_r by lia. rewrite Nat2Z.id.
    rewrite !drop_ge by lia. apply take_nil.
Qed.

Lemma stripADTS_parse (data : Buffer) :
  _stripADTS data = match parseADTS data 0 with
                    | Some h => slice_from data (headerSize h)
                    | None => data
                    end.
Proof.
  unfold _stripADTS, parseADTS.
  change (JS.bor (JS.shl (byteAt data 0) 4) (JS.shr (byteAt data 1) 4))
    with (adts_syncword data 0).
  destruct (Nat.leb_spec 7 (length data)) as [Hle | Hlt];
    destruct (Z.ltb_spec (Z.of_nat (length data)) (0 + 7)) as [Hlt' | Hle']; try lia;
    [| reflexivity].
  destruct (adts_syncword data 0 =? 0xFFF); reflexivity.
Qed.

(** X4: [_stripADTS] removes what [parseADTS] measures: where [parseADTS]
    finds a header at the start of the buffer, the first [headerSize] bytes
    (7 or 9) are dropped, all of the buffer if it is no longer than that;
    where it finds none, the buffer is returned as it is.  The result is
    never longer than the buffer. *)
Theorem stripADTS_drops_header (data : Buffer) :
  (forall h, parseADTS data 0 = Some h ->
             _stripADTS data = drop (Z.to_nat (headerSize h)) data /\
             (headerSize h = 7 \/ headerSize h = 9)) /\
  (parseADTS data 0 = None -> _stripADTS data = data) /\
  (length (_stripADTS data) <= length data)%nat.
Proof.
  rewrite stripADTS_parse.
  destruct (parseADTS data 0) as [h |] eqn:Hh.
  - destruct (parseADTS_closed _ _ _ Hh) as (_ & _ & _ & _ & _ & _ & Hhs & _).
    pose proof (Z.mod_pos_bound (byteAt data (0 + 1)) 2 ltac:(lia)).
    rewrite slice_from_drop by lia.
    split; [| split].
    + intros h' [= <-]. split; [reflexivity | lia].
    + discriminate.
    + rewrite length_drop. lia.
  - split; [discriminate |]. split; [reflexivity | lia].
Qed.

Lemma alloc2_set (a b : byte) :
  <[1%nat := b]> (<[0%nat := a]> (Buffer_alloc 2)) = [a; b].
Proof. reflexivity. Qed.

Lemma extractASC_parse (data : Buffer) :
  _extractASC data
  = match parseADTS data 0 with
    | Some h => Returned (asc_bytes (profile h) (sampleRateIndex h) (channelConfig h))
    | None => if (2 <=? length data)%nat then Returned (slice data 0 2)
              else Threw (Error "Unable to extract AudioSpecificConfig")
    end.
Proof.
  unfold _extractASC, parseADTS.
  change (JS.bor (JS.shl (byteAt data 0) 4) (JS.shr (byteAt data 1) 4))
    with (adts_syncword data 0).
  destruct (Nat.leb_spec 7 (length data)) as [Hle | Hlt];
    destruct (Z.ltb_spec (Z.of_nat (length data)) (0 + 7)) as [Hlt' | Hle']; try lia;
    [| reflexivity].
  destruct (adts_syncword data 0 =? 0xFFF); [| reflexivity].
  cbv zeta. rewrite alloc2_set.
  change (0 + 1) with 1. change (0 + 2) with 2. change (0 + 3) with 3.
  change (0 + 4) with 4. change (0 + 5) with 5.
  cbn [negb profile sampleRateIndex channelConfig]. reflexivity.
Qed.

(** X5: [_extractASC] agrees with [parseADTS]: where [parseADTS] finds a
    header at the start of the buffer, the two bytes returned hold its
    profile in the top five bits, its frequency index in the next four and
    its channel configuration in the four after them. *)
Theorem extractASC_matches_header (data : Buffer) (h : AdtsHeader) :
  parseADTS data 0 = Some h ->
  exists asc,
    _extractASC data = Returned asc /\
    length asc = 2%nat /\
    asc_fields asc = (profile h, sampleRateIndex h, channelConfig h).
Proof.
  intros Hh. rewrite extractASC_parse, Hh.
  eexists. split; [reflexivity |]. split; [reflexivity |].
  destruct (parseADTS_field_ranges _ _ _ Hh) as (_ & Hp & _ & Hs & _ & Hc & _).
  apply asc_bytes_fields; lia.
Qed.

(** X6: [_extractASC] on any buffer: two bytes or more give a result of two
    bytes, which are the first two bytes of the buffer unless [parseADTS]
    finds a header at its start; fewer give the error. *)
Theorem extractASC_total (data : Buffer) :
  ((2 <= length data)%nat ->
   exists asc, _extractASC data = Returned asc /\ length asc = 2%nat /\
               (parseADTS data 0 = None -> asc = take 2 data)) /\
  ((length data < 2)%nat ->
   _extractASC data = Threw (Error "Unable to extract AudioSpecificConfig")).
Proof.
  rewrite extractASC_parse. split.
  - intros Hlen. destruct (parseADTS data 0) as [h |] eqn:Hh.
    + eexists. split; [reflexivity |]. split; [reflexivity | discriminate].
    + destruct (Nat.leb_spec 2 (length data)) as [_ | Hlt]; [| lia].
      eexists. split; [reflexivity |].
      change 2 with (Z.of_nat 2). rewrite slice_take.
      split; [rewrite length_take; lia | reflexivity].
  - intros Hlen. destruct (parseADTS data 0) as [h |] eqn:Hh.
    + apply parseADTS_offset in Hh. lia.
    + destruct (Nat.leb_spec 2 (length data)) as [Hle | _]; [lia | reflexivity].
Qed.

Lemma slice_take_drop {A : Type} (data : list A) (start stop : Z) :
  0 <= start -> 0 <= stop ->
  slice data start stop = take (Z.to_nat (stop - start)) (drop (Z.to_nat start) data).
Proof.
  intros Hs He. unfold slice, relative_index.
  destruct (Z.ltb_spec start 0) as [Hneg | _]; [lia |].
  destruct (Z.ltb_spec stop 0) as [Hneg | _]; [lia |].
  set (len := Z.of_nat (length data)).
  destruct (Z.le_gt_cases start len) as [Hsl | Hsl].
  - rewrite (Z.min_l start) by lia.
    destruct (Z.le_gt_cases stop len) as [Hel | Hel].
    + rewrite Z.min_l by lia. reflexivity.
    + rewrite Z.min_r by lia.
      rewrite !take_ge by (rewrite length_drop; lia). reflexivity.
  - rewrite (Z.min_r start) by lia.
    rewrite !(drop_ge data) by lia. rewrite !take_nil. reflexivity.
Qed.

Lemma byteAt_take_drop (data : Buffer) (k n : nat) (i : Z) :
  0 <= i < Z.of_nat n ->
  byteAt (take n (drop k data)) i = byteAt data (Z.of_nat k + i).
Proof.
  intros Hi. unfold byteAt.
  destruct (Z.ltb_spec i 0) as [Hneg | _]; [lia |].
  destruct (Z.ltb_spec (Z.of_nat k + i) 0) as [Hneg | _]; [lia |].
  unfold Buffer in *. rewrite lookup_take_lt by lia. rewrite lookup_drop.
  replace (Z.to_nat (Z.of_nat k + i)) with (k + Z.to_nat i)%nat by lia. reflexivity.
Qed.

(** X7: the frame that [testHEAAC] cuts out and [decode] strips: where
    [parseADTS] finds a header whose frame length covers it, the bytes from
    the offset to the offset plus the frame length, once [_stripADTS] has
    dropped the header, are the bytes from the end of the header to the end
    of the frame; when the frame lies inside the buffer there are
    [dataLength] of them. *)
Theorem frame_payload (data : Buffer) (offset : Z) (h : AdtsHeader) :
  parseADTS data offset = Some h ->
  headerSize h <= frameLength h ->
  _stripADTS (slice data offset (offset + frameLength h))
  = slice data (offset + headerSize h) (offset + frameLength h) /\
  (offset + frameLength h <= Z.of_nat (length data) ->
   Z.of_nat (length (_stripADTS (slice data offset (offset + frameLength h))))
   = dataLength h).
Proof.
  intros Hh Hcov.
  destruct (parseADTS_offset _ _ _ Hh) as [Hoff Hlen].
  destruct (parseADTS_field_ranges _ _ _ Hh) as (_ & _ & _ & _ & _ & _ & _ & _ & Hhs & Hfl & Hdl & _).
  destruct (parseADTS_closed _ _ _ Hh) as (_ & _ & _ & _ & _ & _ & Hhs' & _).
  assert (Hsize : 7 <= headerSize h <= 9) by lia.
  set (frame := slice data offset (offset + frameLength h)).
  assert (Hframe : frame = take (Z.to_nat (frameLength h)) (drop (Z.to_nat offset) data)).
  { unfold frame. rewrite slice_take_drop by lia. do 2 f_equal. lia. }
  assert (Hflen : (7 <= length frame)%nat).
  { rewrite Hframe, length_take, length_drop. lia. }
  assert (Hbytes : forall i, 0 <= i < 7 -> byteAt frame i = byteAt data (offset + i)).
  { intros i Hi. rewrite Hframe, byteAt_take_drop by lia. f_equal. lia. }
  assert (Hparse : exists h', parseADTS frame 0 = Some h' /\ headerSize h' = headerSize h).
  { destruct (proj2 (parseADTS_found frame 0)) as [h' Hh'].
    - destruct (proj1 (parseADTS_found data offset)) as (_ & H0 & H1);
        [eexists; exact Hh |].
      split; [lia |]. rewrite !Hbytes by lia.
      replace (offset + 0) with offset by lia. split; assumption.
    - exists h'. split; [exact Hh' |].
      destruct (parseADTS_closed _ _ _ Hh') as (_ & _ & _ & _ & _ & _ & Hhs'' & _).
      rewrite Hhs'', Hhs', Hbytes by lia. reflexivity. }
  destruct Hparse as (h' & Hh' & Heq).
  assert (Hstrip : _stripADTS frame = drop (Z.to_nat (headerSize h)) frame).
  { rewrite stripADTS_parse, Hh', Heq. apply slice_from_drop. lia. }
  split.
  - rewrite Hstrip, Hframe. rewrite slice_take_drop by lia.
    replace (Z.to_nat (offset + headerSize h))
      with (Z.to_nat offset + Z.to_nat (headerSize h))%nat by lia.
    rewrite <- drop_drop.
    rewrite (take_drop_commute (drop (Z.to_nat offset) data)
               (Z.to_nat (offset + frameLength h - (offset + headerSize h)))
               (Z.to_nat (headerSize h))).
    do 2 f_equal. lia.
  - intros Hin. rewrite Hstrip, Hframe, length_drop, length_take, length_drop. lia.
Qed.

(** ** Codec strings and the table of rates *)

Lemma strict_eq_of_Z (y x : Z) : strict_eq (JS.of_Z y) (JS.of_Z x) = (y =? x).
Proof.
  unfold strict_eq, JS.of_Z, Qeq_bool, inject_Z. cbn [Qnum Qden].
  rewrite !Z.mul_1_r. reflexivity.
Qed.

Lemma indexOf_from_found (l : list Z) :
  forall (x k j : Z),
    indexOf_from l (JS.of_Z x) k = j -> j <> -1 -> 0 <= k ->
    k <= j /\ l !! Z.to_nat (j - k) = Some x.
Proof.
  induction l as [| y l IH]; intros x k j Hj Hne Hk; cbn [indexOf_from] in Hj.
  - congruence.
  - rewrite strict_eq_of_Z in Hj. destruct (Z.eqb_spec y x) as [-> | Hyx].
    + subst j. split; [lia |]. rewrite Z.sub_diag. reflexivity.
    + destruct (IH x (k + 1) j Hj Hne ltac:(lia)) as [Hle Hlook].
      split; [lia |].
      replace (Z.to_nat (j - k)) with (S (Z.to_nat (j - (k + 1)))) by lia.
      exact Hlook.
Qed.

Lemma sampleRates_place (rate i : Z) :
  at_index sampleRates i = Some rate <->
  indexOf sampleRates (JS.of_Z rate) = i /\ i <> -1.
Proof.
  split.
  - unfold at_index. destruct (Z.ltb_spec i 0) as [Hneg | Hpos]; [discriminate |].
    intros Hlook.
    assert (Hlt : (Z.to_nat i < length sampleRates)%nat) by (eapply lookup_lt_Some; eauto).
    cbn [length sampleRates] in Hlt.
    assert (Hcases : i = 0 \/ i = 1 \/ i = 2 \/ i = 3 \/ i = 4 \/ i = 5 \/ i = 6 \/ i = 7 \/
                     i = 8 \/ i = 9 \/ i = 10 \/ i = 11 \/ i = 12) by lia.
    repeat (destruct Hcases as [-> | Hcases];
            [cbn in Hlook; injection Hlook as <-; split; [vm_compute; reflexivity | lia] |]).
    subst i. cbn in Hlook. injection Hlook as <-. split; [vm_compute; reflexivity | lia].
  - intros [Hidx Hne]. unfold indexOf in Hidx.
    destruct (indexOf_from_found _ _ _ _ Hidx Hne ltac:(lia)) as [Hle Hlook].
    unfold at_index. destruct (Z.ltb_spec i 0) as [Hneg | _]; [lia |].
    rewrite Z.sub_0_r in Hlook. exact Hlook.
Qed.

(** X8: [indexOf] on the table of rates undoes the table: a rate has index
    [i] exactly when [i] is its place in the table; the rates that the
    table does not hold, and only they, give -1. *)
Theorem sampleRates_index (rate i : Z) :
  at_index sampleRates i = Some rate <->
  indexOf sampleRates (JS.of_Z rate) = i /\ i <> -1.
Proof. exact (sampleRates_place rate i). Qed.


Lemma sampleRates_index_witness :
  at_index sampleRates 3 = Some 48000 <->
  indexOf sampleRates (JS.of_Z 48000) = 3 /\ 3 <> -1.
Proof. apply (sampleRates_index 48000 3). Defined.

Lemma rate_index_range (sample_rate : Z) : 0 <= rate_index sample_rate < 16.
Proof.
  unfold rate_index.
  destruct (Z.eqb_spec (indexOf sampleRates (JS.of_Z sample_rate)) (-1)) as [_ | Hne]; [lia |].
  pose proof (proj2 (sampleRates_place sample_rate _) (conj eq_refl Hne)) as Hlook.
  unfold at_index in Hlook.
  destruct (Z.ltb_spec (indexOf sampleRates (JS.of_Z sample_rate)) 0) as [_ | Hpos];
    [discriminate |].
  apply lookup_lt_Some in Hlook. cbn [length sampleRates] in Hlook. lia.
Qed.

Lemma split_on_dot_free (s : string) : dot_free s = true -> split_on "." s = [s].
Proof.
  induction s as [| c s IH]; cbn [dot_free split_on]; [reflexivity |].
  intros H. apply andb_true_iff in H as [Hc Hs].
  apply negb_true_iff in Hc. rewrite Hc, (IH Hs). reflexivity.
Qed.

Lemma split_on_other (sep c : ascii) (rest : string) :
  Ascii.eqb c sep = false ->
  split_on sep (String c rest)
  = match split_on sep rest with
    | p :: ps => String c p :: ps
    | [] => [String c EmptyString]
    end.
Proof. intros H. cbn [split_on]. rewrite H. reflexivity. Qed.

Lemma split_on_sep (sep : ascii) (rest : string) :
  split_on sep (String sep rest) = EmptyString :: split_on sep rest.
Proof. cbn [split_on]. rewrite Ascii.eqb_refl. reflexivity. Qed.

Lemma codec_parts (s : string) :
  dot_free s = true -> split_on "." ("mp4a.40." +:+ s) = ["mp4a"; "40"; s]%string.
Proof.
  intros H.
  change ("mp4a.40." +:+ s)%string
    with (String "m" (String "p" (String "4" (String "a" (String "."
           (String "4" (String "0" (String "." s)))))))).
  repeat first [rewrite split_on_sep | rewrite split_on_other by reflexivity].
  rewrite (split_on_dot_free s H). reflexivity.
Qed.

(** X9: for a codec string ["mp4a.40.<n>"] whose number is an object type
    other than 5 and below 32, with fewer than 16 channels,
    [extractAudioWithMP4Box] makes a two-byte ASC that holds the object
    type, the place of the rate in [sampleRates] (15 for a rate that the
    table does not hold) and the channel count, and [testMP4NativeDecode]
    configures the decoder with just these bytes. *)
Theorem asc_for_plain_profile (s : string) (objectType sample_rate channel_count : Z) :
  dot_free s = true -> parseInt s = Some objectType ->
  objectType <> 5 -> 0 <= objectType < 32 -> 0 <= channel_count < 16 ->
  exists asc,
    audioConfig_from_codec ("mp4a.40." +:+ s) sample_rate channel_count = Some asc /\
    asc_from_codec ("mp4a.40." +:+ s) sample_rate channel_count = Some asc /\
    length asc = 2%nat /\
    asc_fields asc = (objectType, rate_index sample_rate, channel_count).
Proof.
  intros Hdot Hparse Hne Ht Hc.
  assert (Hcfg : audioConfig_from_codec ("mp4a.40." +:+ s) sample_rate channel_count
                 = Some (asc_bytes objectType (rate_index sample_rate) channel_count)).
  { unfold audioConfig_from_codec. rewrite (codec_parts s Hdot).
    cbn [length Nat.leb nth String.eqb Ascii.eqb Bool.eqb andb].
    rewrite Hparse.
    destruct (bool_decide_reflect (Some objectType = Some 5)) as [[= Heq] | _];
      [contradiction |].
    reflexivity. }
  exists (asc_bytes objectType (rate_index sample_rate) channel_count).
  split; [exact Hcfg |]. split.
  - unfold asc_from_codec. rewrite Hcfg. unfold finalASC.
    destruct (String.eqb_spec ("mp4a.40." +:+ s) "mp4a.40.5") as [Heq | _]; [| reflexivity].
    assert (Hs : s = "5"%string).
    { change ("mp4a.40." +:+ s)%string
        with (String "m" (String "p" (String "4" (String "a" (String "."
               (String "4" (String "0" (String "." s)))))))) in Heq.
      congruence. }
    subst s. vm_compute in Hparse. congruence.
  - split; [reflexivity |].
    pose proof (rate_index_range sample_rate).
    apply asc_bytes_fields; lia.
Qed.

Lemma asc_for_plain_profile_witness :
  exists asc,
    audioConfig_from_codec "mp4a.40.2" 48000 6 = Some asc /\
    asc_from_codec "mp4a.40.2" 48000 6 = Some asc /\
    length asc = 2%nat /\
    asc_fields asc = (2, rate_index 48000, 6).
Proof.
  apply (asc_for_plain_profile "2" 2 48000 6); [reflexivity | reflexivity | lia | lia | lia].
Defined.

(** ** The [esds] reader *)

Lemma parser_at_app (pre mid post : Buffer) :
  {| buffer := pre ++ mid ++ post; offset := Z.of_nat (length pre) + Z.of_nat (length mid) |}
  = parser_at (pre ++ mid) post.
Proof.
  unfold parser_at. rewrite <- app_assoc, length_app, Nat2Z.inj_add. reflexivity.
Qed.

Lemma skip_at (pre mid post : Buffer) (n : Z) :
  n = Z.of_nat (length mid) ->
  skip n (parser_at pre (mid ++ post)) = (Returned tt, parser_at (pre ++ mid) post).
Proof.
  intros ->. unfold skip. cbn [buffer offset parser_at]. rewrite parser_at_app. reflexivity.
Qed.

Lemma readUInt8_at (pre post : Buffer) (b : byte) :
  readUInt8 (parser_at pre (b :: post)) = (Returned (b2z b), parser_at (pre ++ [b]) post).
Proof.
  unfold readUInt8, at_index. cbn [buffer offset parser_at].
  destruct (Z.ltb_spec (Z.of_nat (length pre)) 0) as [Hneg | _]; [lia |].
  rewrite Nat2Z.id. unfold Buffer in *. rewrite list_lookup_middle by reflexivity.
  change (b :: post) with ([b] ++ post).
  change (Z.of_nat (length pre) + 1) with (Z.of_nat (length pre) + Z.of_nat (length [b])).
  rewrite parser_at_app. reflexivity.
Qed.

Lemma read_size_at (pre enc post : Buffer) (size : Z) :
  size_loop (enc ++ post) 0 0 = Returned (size, Z.of_nat (length enc)) ->
  read_size (parser_at pre (enc ++ post)) = (Returned size, parser_at (pre ++ enc) post).
Proof.
  intros Hloop. unfold read_size. cbn [buffer offset parser_at].
  destruct (Z.ltb_spec (Z.of_nat (length pre)) 0) as [Hneg | _]; [lia |].
  rewrite Nat2Z.id, drop_app_length, Hloop, parser_at_app. reflexivity.
Qed.

Lemma read_at (pre post : Buffer) (size : Z) :
  0 <= size ->
  read size (parser_at pre post)
  = (Returned (take (Z.to_nat size) post),
     {| buffer := pre ++ post; offset := Z.of_nat (length pre) + size |}).
Proof.
  intros Hs. unfold read. cbn [buffer offset parser_at].
  rewrite slice_take_drop by lia. rewrite Nat2Z.id, drop_app_length.
  do 3 f_equal. lia.
Qed.

Lemma length_encoding_read (enc post : Buffer) :
  length_encoding enc ->
  exists size, size_loop (enc ++ post) 0 0 = Returned (size, Z.of_nat (length enc)) /\
               ((length enc <= 4)%nat -> size = concat7 enc).
Proof.
  intros (cont & last & -> & Hc & Hl).
  rewrite <- app_assoc. cbn [app].
  rewrite length_app. cbn [length]. rewrite Nat2Z.inj_add.
  destruct (size_loop_returns cont last post 0 0 Hc Hl) as [size Hsize].
  exists size. split; [rewrite Hsize; do 2 f_equal; lia |].
  intros Hlen.
  rewrite (size_loop_exact cont last post 0 0 0) in Hsize; [| assumption .. | cbn; lia | lia].
  injection Hsize as <-. reflexivity.
Qed.

Lemma concat7_nonneg (enc : Buffer) : 0 <= concat7 enc.
Proof.
  unfold concat7.
  assert (H : forall acc, 0 <= acc ->
                0 <= fold_left (fun acc b => acc * 2 ^ 7 + b2z b mod 2 ^ 7) enc acc).
  { induction enc as [| b enc IH]; intros acc Hacc; cbn [fold_left]; [exact Hacc |].
    apply IH. pose proof (Z.mod_pos_bound (b2z b) (2 ^ 7) ltac:(lia)). lia. }
  apply H. lia.
Qed.

(** X10: the reader finds the ASC of a well-formed [esds] payload: four bytes
    of version and flags, tag 3 with a length and three bytes, tag 4 with a
    length and thirteen bytes, tag 5 with a length of at most four bytes,
    and then the ASC.  What is returned is as many of the following bytes
    as that last length says, or all that are left if there are fewer; the
    two lengths before it are read and not used. *)
Theorem esds_audioConfig_found (vf enc1 three enc2 thirteen enc3 rest : Buffer) :
  length vf = 4%nat -> length three = 3%nat -> length thirteen = 13%nat ->
  length_encoding enc1 -> length_encoding enc2 -> length_encoding enc3 ->
  (length enc3 <= 4)%nat ->
  esds_audioConfig
    (vf ++ x03 :: enc1 ++ three ++ x04 :: enc2 ++ thirteen ++ x05 :: enc3 ++ rest)
  = Returned (Some (take (Z.to_nat (concat7 enc3)) rest)).
Proof.
  intros Hvf H3 H13 He1 He2 He3 Hlen3.
  destruct (length_encoding_read enc1 (three ++ x04 :: enc2 ++ thirteen ++ x05 :: enc3 ++ rest) He1)
    as (s1 & Hs1 & _).
  destruct (length_encoding_read enc2 (thirteen ++ x05 :: enc3 ++ rest) He2) as (s2 & Hs2 & _).
  destruct (length_encoding_read enc3 rest He3) as (s3 & Hs3 & Hs3').
  rewrite (Hs3' Hlen3) in Hs3.
  unfold esds_audioConfig, bind.
  change {| buffer := ?d; offset := 0 |} with (parser_at [] d).
  rewrite (skip_at [] vf) by (rewrite Hvf; reflexivity).
  rewrite readUInt8_at. change (b2z x03 =? 3) with true. cbv beta iota.
  rewrite (read_size_at _ enc1 _ s1 Hs1).
  rewrite (skip_at _ three) by (rewrite H3; reflexivity).
  rewrite readUInt8_at. change (b2z x04 =? 4) with true. cbv beta iota.
  rewrite (read_size_at _ enc2 _ s2 Hs2).
  rewrite (skip_at _ thirteen) by (rewrite H13; reflexivity).
  rewrite readUInt8_at. change (b2z x05 =? 5) with true. cbv beta iota.
  rewrite (read_size_at _ enc3 _ _ Hs3).
  rewrite read_at by apply concat7_nonneg. reflexivity.
Qed.

Lemma esds_audioConfig_found_witness :
  esds_audioConfig
    ([x00; x00; x00; x00] ++ x03 :: [x80; x80; x80; x19] ++ [x00; x01; x00]
       ++ x04 :: [x11] ++ [x40; x15; x00; x00; x00; x00; x01; xf4; x00; x00; x01; xf4; x00]
       ++ x05 :: [x02] ++ [x12; x10; x06; x01; x02])
  = Returned (Some (take (Z.to_nat (concat7 [x02])) [x12; x10; x06; x01; x02])).
Proof.
  apply esds_audioConfig_found; try reflexivity.
  - exists [x80; x80; x80], x19. split; [reflexivity |]. split.
    + repeat constructor; unfold continues; vm_compute; discriminate.
    + unfold continues. vm_compute. intros H. apply H. reflexivity.
  - exists [], x11. split; [reflexivity |]. split.
    + constructor.
    + unfold continues. vm_compute. intros H. apply H. reflexivity.
  - exists [], x02. split; [reflexivity |]. split.
    + constructor.
    + unfold continues. vm_compute. intros H. apply H. reflexivity.
  - simpl. lia.
Defined.

(** ** [MP4Parser]: boxes *)

Lemma b2z_z2b (z : Z) : b2z (z2b z) = z mod 256.
Proof.
  unfold b2z, z2b.
  pose proof (Z.mod_pos_bound z 256 ltac:(lia)) as Hm.
  destruct (Byte.of_N (Z.to_N (z mod 256))) as [b |] eqn:Hb.
  - apply Byte.to_of_N in Hb. rewrite Hb. lia.
  - apply Byte.of_N_None_iff in Hb. lia.
Qed.

Lemma be32_value (n : Z) :
  0 <= n < 2 ^ 32 ->
  2 ^ 24 * b2z (z2b (n / 2 ^ 24)) + 2 ^ 16 * b2z (z2b (n / 2 ^ 16))
  + 2 ^ 8 * b2z (z2b (n / 2 ^ 8)) + b2z (z2b n) = n.
Proof.
  intros Hn. rewrite !b2z_z2b.
  change (2 ^ 24) with (2 ^ 8 * 2 ^ 8 * 2 ^ 8). change (2 ^ 16) with (2 ^ 8 * 2 ^ 8).
  rewrite <- !Z.div_div by lia.
  change (2 ^ 8) with 256.
  pose proof (Z.div_mod n 256 ltac:(lia)).
  pose proof (Z.div_mod (n / 256) 256 ltac:(lia)).
  pose proof (Z.div_mod (n / 256 / 256) 256 ltac:(lia)).
  pose proof (Z.mod_pos_bound n 256 ltac:(lia)).
  pose proof (Z.mod_pos_bound (n / 256) 256 ltac:(lia)).
  pose proof (Z.mod_pos_bound (n / 256 / 256) 256 ltac:(lia)).
  assert (0 <= n / 256 / 256 / 256 < 256).
  { split; [repeat apply Z.div_pos; lia |].
    repeat (apply Z.div_lt_upper_bound; [lia |]). lia. }
  rewrite (Z.mod_small (n / 256 / 256 / 256)) by lia. lia.
Qed.

Lemma byteAt_at (pre post : Buffer) (i : nat) (b : byte) :
  post !! i = Some b -> byteAt (pre ++ post) (Z.of_nat (length pre) + Z.of_nat i) = b2z b.
Proof.
  intros H. rewrite <- Nat2Z.inj_add. apply byteAt_lookup.
  unfold Buffer in *. rewrite lookup_app_r by lia.
  replace (length pre + i - length pre)%nat with i by lia. exact H.
Qed.

Lemma readUInt32_at (pre post : Buffer) (n : Z) :
  0 <= n < 2 ^ 32 ->
  readUInt32 (parser_at pre (be32 n ++ post)) = (Returned n, parser_at (pre ++ be32 n) post).
Proof.
  intros Hn. unfold readUInt32. cbn [buffer offset parser_at].
  destruct (Z.ltb_spec (Z.of_nat (length pre)) 0) as [Hneg | _]; [lia |].
  destruct (Z.ltb_spec (Z.of_nat (length (pre ++ be32 n ++ post))) (Z.of_nat (length pre) + 4))
    as [Hshort | _].
  { rewrite !length_app in Hshort. cbn [length be32] in Hshort. lia. }
  cbn [orb].
  rewrite <- (Z.add_0_r (Z.of_nat (length pre))) at 1.
  rewrite (byteAt_at pre _ 0 (z2b (n / 2 ^ 24))) by reflexivity.
  rewrite (byteAt_at pre _ 1 (z2b (n / 2 ^ 16))) by reflexivity.
  rewrite (byteAt_at pre _ 2 (z2b (n / 2 ^ 8))) by reflexivity.
  rewrite (byteAt_at pre _ 3 (z2b n)) by reflexivity.
  rewrite be32_value by exact Hn.
  change 4 with (Z.of_nat (length (be32 n))). rewrite parser_at_app. reflexivity.
Qed.

Lemma read_at_exact (pre mid post : Buffer) (size : Z) :
  size = Z.of_nat (length mid) ->
  read size (parser_at pre (mid ++ post)) = (Returned mid, parser_at (pre ++ mid) post).
Proof.
  intros ->. rewrite read_at by lia. rewrite Nat2Z.id, take_app_length, parser_at_app.
  reflexivity.
Qed.

Lemma readBox_at (pre type post : Buffer) (size : Z) :
  length type = 4%nat -> 8 <= size < 2 ^ 32 ->
  readBox (parser_at pre (be32 size ++ type ++ post))
  = (Returned (Some {| box_type := toString_ascii type; box_size := size;
                       box_data := take (Z.to_nat (size - 8)) post |}),
     {| buffer := (pre ++ be32 size ++ type) ++ post;
        offset := Z.of_nat (length (pre ++ be32 size ++ type)) + (size - 8) |}).
Proof.
  intros Ht Hs. unfold readBox.
  destruct (Z.leb_spec (Z.of_nat (length (buffer (parser_at pre (be32 size ++ type ++ post)))))
              (offset (parser_at pre (be32 size ++ type ++ post)))) as [Hend | _].
  { cbn [buffer offset parser_at] in Hend. rewrite !length_app in Hend.
    cbn [length be32] in Hend. lia. }
  unfold bind. rewrite readUInt32_at by lia.
  rewrite (read_at_exact _ type) by (rewrite Ht; reflexivity).
  rewrite read_at by lia. unfold ret. rewrite <- !app_assoc. reflexivity.
Qed.

Lemma boxes_bytes_cons (type payload : Buffer) (boxes : list (Buffer * Buffer)) (rest : Buffer) :
  boxes_bytes ((type, payload) :: boxes) ++ rest
  = be32 (8 + Z.of_nat (length payload)) ++ type ++ payload ++ boxes_bytes boxes ++ rest.
Proof.
  unfold boxes_bytes, box_bytes. cbn [map concat fst snd]. rewrite <- !app_assoc. reflexivity.
Qed.

Lemma parser_after_box (pre type payload post : Buffer) (size : Z) :
  length type = 4%nat -> size = 8 + Z.of_nat (length payload) ->
  {| buffer := (pre ++ be32 size ++ type) ++ payload ++ post;
     offset := Z.of_nat (length (pre ++ be32 size ++ type)) + (size - 8) |}
  = parser_at (pre ++ be32 size ++ type ++ payload) post.
Proof.
  intros Ht ->. unfold parser_at. f_equal.
  - rewrite <- !app_assoc. reflexivity.
  - rewrite !length_app. lia.
Qed.

Lemma in_buffer (pre post : Buffer) :
  post <> [] ->
  (offset (parser_at pre post) <? Z.of_nat (length (buffer (parser_at pre post)))) = true.
Proof.
  intros Hpost. cbn [buffer offset parser_at]. apply Z.ltb_lt. rewrite length_app.
  destruct post; [congruence | cbn [length]; lia].
Qed.

Lemma be32_not_nil (n : Z) (rest : Buffer) : be32 n ++ rest <> [].
Proof. discriminate. Qed.

Lemma findBox_loop_skip (type : string) (before : list (Buffer * Buffer)) :
  boxes_fit before -> none_of_type type before ->
  forall (pre rest : Buffer) (fuel : nat),
    findBox_loop (length before + fuel) type (parser_at pre (boxes_bytes before ++ rest))
    = findBox_loop fuel type (parser_at (pre ++ boxes_bytes before) rest).
Proof.
  intros Hfit Hnone. induction before as [| [t p] before IH]; intros pre rest fuel.
  - cbn [length Nat.add]. unfold boxes_bytes. cbn [map concat app]. rewrite app_nil_r. reflexivity.
  - apply Forall_cons in Hfit as [[Ht Hs] Hfit]. apply Forall_cons in Hnone as [Hno Hnone].
    cbn [fst snd] in Ht, Hs, Hno.
    rewrite boxes_bytes_cons. cbn [length Nat.add findBox_loop].
    rewrite in_buffer by apply be32_not_nil.
    rewrite readBox_at by (try exact Ht; lia).
    cbn [box_type]. apply String.eqb_neq in Hno. rewrite Hno.
    rewrite parser_after_box by (try exact Ht; reflexivity).
    rewrite (IH Hfit Hnone). f_equal. f_equal.
    unfold boxes_bytes at 2, box_bytes. cbn [map concat fst snd].
    rewrite <- !app_assoc. reflexivity.
Qed.

Lemma findBox_match (type : Buffer) (size : Z) (before : list (Buffer * Buffer))
    (rest : Buffer) (fuel : nat) :
  boxes_fit before -> none_of_type (toString_ascii type) before ->
  length type = 4%nat -> 8 <= size < 2 ^ 32 ->
  (length before < fuel)%nat ->
  findBox fuel (toString_ascii type) (boxes_bytes before ++ be32 size ++ type ++ rest)
  = Some (Returned (Some {| box_type := toString_ascii type; box_size := size;
                            box_data := take (Z.to_nat (size - 8)) rest |})).
Proof.
  intros Hfit Hnone Ht Hs Hfuel. unfold findBox.
  replace fuel with (length before + S (fuel - S (length before)))%nat by lia.
  change {| buffer := boxes_bytes before ++ be32 size ++ type ++ rest; offset := 0 |}
    with (parser_at [] (boxes_bytes before ++ be32 size ++ type ++ rest)).
  rewrite (findBox_loop_skip _ before Hfit Hnone).
  cbn [findBox_loop]. rewrite in_buffer by apply be32_not_nil.
  rewrite readBox_at by assumption.
  cbn [box_type]. rewrite String.eqb_refl. reflexivity.
Qed.

(** X11: [findBox] walks over the boxes that lie before the first one of the
    type asked for and returns that one, with the size its header declares
    and as much of the payload as the buffer holds, whatever follows. *)
Theorem findBox_first_match (type : Buffer) (size : Z) (before : list (Buffer * Buffer))
    (rest : Buffer) (fuel : nat) :
  boxes_fit before -> none_of_type (toString_ascii type) before ->
  length type = 4%nat -> 8 <= size < 2 ^ 32 ->
  (length before < fuel)%nat ->
  findBox fuel (toString_ascii type) (boxes_bytes before ++ be32 size ++ type ++ rest)
  = Some (Returned (Some {| box_type := toString_ascii type; box_size := size;
                            box_data := take (Z.to_nat (size - 8)) rest |})).
Proof. exact (findBox_match type size before rest fuel). Qed.


(** X12: over a buffer made of whole boxes, none of the type asked for,
    [findBox] returns [null]. *)
Theorem findBox_no_match (type : string) (boxes : list (Buffer * Buffer)) (fuel : nat) :
  boxes_fit boxes -> none_of_type type boxes ->
  (length boxes < fuel)%nat ->
  findBox fuel type (boxes_bytes boxes) = Some (Returned None).
Proof.
  intros Hfit Hnone Hfuel. unfold findBox.
  replace fuel with (length boxes + S (fuel - S (length boxes)))%nat by lia.
  rewrite <- (app_nil_r (boxes_bytes boxes)) at 1.
  change {| buffer := boxes_bytes boxes ++ []; offset := 0 |}
    with (parser_at [] (boxes_bytes boxes ++ [])).
  rewrite (findBox_loop_skip _ boxes Hfit Hnone).
  cbn [findBox_loop buffer offset parser_at]. rewrite app_nil_r, Z.ltb_irrefl. reflexivity.
Qed.

Lemma slice_backwards {A : Type} (data : list A) (start stop : Z) :
  0 <= stop <= start -> slice data start stop = [].
Proof.
  intros H. unfold slice, relative_index.
  destruct (Z.ltb_spec start 0), (Z.ltb_spec stop 0); try lia.
  replace (Z.to_nat _) with 0%nat by lia. reflexivity.
Qed.

Lemma readBox_zero (pre tail : Buffer) :
  readBox (parser_at pre (be32 0 ++ tail))
  = (Returned (Some {| box_type := toString_ascii (take 4 tail); box_size := 0; box_data := [] |}),
     parser_at pre (be32 0 ++ tail)).
Proof.
  unfold readBox.
  destruct (Z.leb_spec (Z.of_nat (length (buffer (parser_at pre (be32 0 ++ tail)))))
              (offset (parser_at pre (be32 0 ++ tail)))) as [Hend | _].
  { cbn [buffer offset parser_at] in Hend. rewrite !length_app in Hend.
    cbn [length be32] in Hend. lia. }
  unfold bind. rewrite readUInt32_at by lia.
  rewrite read_at by lia. change (Z.to_nat 4) with 4%nat.
  unfold read, ret. cbn [buffer offset]. f_equal.
  - do 3 f_equal. apply slice_backwards. rewrite length_app. cbn [length be32]. lia.
  - unfold parser_at. f_equal.
    + rewrite <- app_assoc. reflexivity.
    + rewrite length_app. cbn [length be32]. lia.
Qed.

Lemma findBox_loop_stuck (type : string) (before : list (Buffer * Buffer)) (tail : Buffer) :
  boxes_fit before -> none_of_type type before ->
  toString_ascii (take 4 tail) <> type ->
  forall (fuel : nat) (pre : Buffer),
    findBox_loop fuel type (parser_at pre (boxes_bytes before ++ be32 0 ++ tail)) = None.
Proof.
  intros Hfit Hnone Hty. induction before as [| [t p] before IH].
  - unfold boxes_bytes. cbn [map concat app].
    induction fuel as [| fuel IHf]; intros pre; [reflexivity |].
    cbn [findBox_loop]. rewrite in_buffer by apply be32_not_nil.
    rewrite readBox_zero. cbn [box_type].
    apply String.eqb_neq in Hty. rewrite Hty. apply IHf.
  - apply Forall_cons in Hfit as [[Ht Hs] Hfit]. apply Forall_cons in Hnone as [Hno Hnone].
    cbn [fst snd] in Ht, Hs, Hno.
    intros [| fuel] pre; [reflexivity |].
    rewrite boxes_bytes_cons. cbn [findBox_loop].
    rewrite in_buffer by apply be32_not_nil.
    rewrite readBox_at by (try exact Ht; lia).
    cbn [box_type]. apply String.eqb_neq in Hno. rewrite Hno.
    rewrite parser_after_box by (try exact Ht; reflexivity).
    apply (IH Hfit Hnone).
Qed.

(** X13: a box that declares the size 0 stops [findBox]: reading it leaves the
    read position where it was, so unless it has the type asked for the
    loop reads it again and again and never returns.  The payload of an
    [stsd] box of version 0 and flags 0, in which [extractAudioFromMP4]
    looks for ['esds'], starts with four such zero bytes. *)
Theorem findBox_zero_size_loops (type : string) (before : list (Buffer * Buffer))
    (tail : Buffer) (fuel : nat) :
  boxes_fit before -> none_of_type type before ->
  toString_ascii (take 4 tail) <> type ->
  findBox fuel type (boxes_bytes before ++ be32 0 ++ tail) = None.
Proof.
  intros Hfit Hnone Hty. unfold findBox.
  apply (findBox_loop_stuck type before tail Hfit Hnone Hty fuel []).
Qed.

Lemma nested_bytes_cons (t : Buffer) (types : list Buffer) (payload : Buffer) :
  nested_bytes (t :: types) payload = box_bytes t (nested_bytes types payload).
Proof. reflexivity. Qed.

Lemma nested_bytes_length (types : list Buffer) (payload : Buffer) :
  Forall (fun t => length t = 4%nat) types ->
  Z.of_nat (length (nested_bytes types payload))
  = 8 * Z.of_nat (length types) + Z.of_nat (length payload).
Proof.
  induction types as [| t types IH]; intros Hty.
  - unfold nested_bytes. cbn [fold_right length]. lia.
  - apply Forall_cons in Hty as [Ht Hty]. rewrite nested_bytes_cons.
    unfold box_bytes. rewrite !length_app, !Nat2Z.inj_add, (IH Hty), Ht.
    cbn [length be32]. lia.
Qed.

(** X14: [findBoxPath] opens boxes one inside the other: on the bytes of a
    payload wrapped in boxes of the types asked for, outermost first, it
    returns the payload. *)
Theorem findBoxPath_nested (types : list Buffer) (payload : Buffer) (fuel : nat) :
  Forall (fun t => length t = 4%nat) types ->
  8 * Z.of_nat (length types) + Z.of_nat (length payload) < 2 ^ 32 ->
  (0 < fuel)%nat ->
  findBoxPath fuel (map toString_ascii types) (nested_bytes types payload)
  = Some (Returned (Some payload)).
Proof.
  intros Hty Hsize Hfuel. induction types as [| t types IH]; [reflexivity |].
  apply Forall_cons in Hty as [Ht Hty].
  pose proof (nested_bytes_length types payload Hty) as Hlen.
  cbn [length] in Hsize. rewrite nested_bytes_cons. cbn [map findBoxPath].
  unfold box_bytes.
  pose proof (findBox_match t (8 + Z.of_nat (length (nested_bytes types payload))) []
                (nested_bytes types payload) fuel) as Hfind.
  unfold boxes_bytes at 1 in Hfind. cbn [map concat app] in Hfind.
  rewrite Hfind.
  - cbn [box_data]. replace (Z.to_nat _) with (length (nested_bytes types payload)) by lia.
    rewrite firstn_all. apply IH; [exact Hty | lia].
  - constructor.
  - constructor.
  - exact Ht.
  - lia.
  - cbn [length]. lia.
Qed.

(** ** [createWAVHeader] *)

Lemma in_range_spec (width : nat) (value : Q) :
  in_range width value = true
  <-> (0 <= value /\ value <= inject_Z (2 ^ (8 * Z.of_nat width) - 1))%Q.
Proof.
  unfold in_range. rewrite andb_true_iff, !Qle_bool_iff. reflexivity.
Qed.

Lemma in_range_Z (width : nat) (value : Z) :
  in_range width (inject_Z value) = true <-> 0 <= value < 2 ^ (8 * Z.of_nat width).
Proof.
  rewrite in_range_spec. change 0%Q with (inject_Z 0). rewrite <- !Zle_Qle. lia.
Qed.

Lemma in_range_eighths (width : nat) (value : Z) :
  in_range width (inject_Z value / 8) = true
  <-> 0 <= value < 8 * 2 ^ (8 * Z.of_nat width) - 7.
Proof.
  rewrite in_range_spec. unfold Qle, Qdiv, Qmult, Qinv, inject_Z. cbn [Qnum Qden].
  change (Qnum (8 # 1)) with 8; cbn [Z.mul Pos.mul]. lia.
Qed.

Lemma in_range_product (width : nat) (a b : Z) :
  in_range width (inject_Z a * (inject_Z b / 8)) = true
  <-> 0 <= a * b < 8 * 2 ^ (8 * Z.of_nat width) - 7.
Proof.
  rewrite in_range_spec. unfold Qle, Qdiv, Qmult, Qinv, inject_Z. cbn [Qnum Qden].
  change (Qnum (8 # 1)) with 8; cbn [Z.mul Pos.mul]. lia.
Qed.

Lemma in_range_product3 (width : nat) (a b c : Z) :
  in_range width (inject_Z a * inject_Z b * (inject_Z c / 8)) = true
  <-> 0 <= a * b * c < 8 * 2 ^ (8 * Z.of_nat width) - 7.
Proof.
  rewrite in_range_spec. unfold Qle, Qdiv, Qmult, Qinv, inject_Z. cbn [Qnum Qden].
  change (Qnum (8 # 1)) with 8; cbn [Z.mul Pos.mul]. lia.
Qed.

Lemma trunc_inject_Z (z : Z) : JS.trunc (inject_Z z) = z.
Proof. unfold JS.trunc, inject_Z. cbn [Qnum Qden]. apply Z.quot_1_r. Qed.

Lemma trunc_product (a b : Z) :
  0 <= a * b -> JS.trunc (inject_Z a * (inject_Z b / 8)) = a * b / 8.
Proof.
  intros H. unfold JS.trunc, Qdiv, Qmult, Qinv, inject_Z. cbn [Qnum Qden].
  change (Qnum (8 # 1)) with 8; cbn [Z.mul Pos.mul].
  rewrite Z.quot_div_nonneg by lia. f_equal. lia.
Qed.

Lemma trunc_product3 (a b c : Z) :
  0 <= a * b * c -> JS.trunc (inject_Z a * inject_Z b * (inject_Z c / 8)) = a * b * c / 8.
Proof.
  intros H. unfold JS.trunc, Qdiv, Qmult, Qinv, inject_Z. cbn [Qnum Qden].
  change (Qnum (8 # 1)) with 8; cbn [Z.mul Pos.mul].
  rewrite Z.quot_div_nonneg by lia. f_equal. lia.
Qed.

(** The header as it lies in memory once every field is written. *)
Lemma createWAVHeader_run (dataSize sampleRate channels bitsPerSample : Z) :
  let byteRate := (inject_Z sampleRate * inject_Z channels * (inject_Z bitsPerSample / 8))%Q in
  let blockAlign := (inject_Z channels * (inject_Z bitsPerSample / 8))%Q in
  createWAVHeader dataSize sampleRate channels bitsPerSample
  = if in_range 4 (inject_Z (36 + dataSize)) && in_range 2 (inject_Z channels)
       && in_range 4 (inject_Z sampleRate) && in_range 4 byteRate
       && in_range 2 blockAlign && in_range 2 (inject_Z bitsPerSample)
       && in_range 4 (inject_Z dataSize)
    then Returned (list_byte_of_string "RIFF" ++ le_bytes 4 (JS.trunc (inject_Z (36 + dataSize)))
                   ++ list_byte_of_string "WAVE" ++ list_byte_of_string "fmt "
                   ++ le_bytes 4 16 ++ le_bytes 2 1
                   ++ le_bytes 2 (JS.trunc (inject_Z channels))
                   ++ le_bytes 4 (JS.trunc (inject_Z sampleRate))
                   ++ le_bytes 4 (JS.trunc byteRate) ++ le_bytes 2 (JS.trunc blockAlign)
                   ++ le_bytes 2 (JS.trunc (inject_Z bitsPerSample))
                   ++ list_byte_of_string "data"
                   ++ le_bytes 4 (JS.trunc (inject_Z dataSize)))
    else Threw RangeError.
Proof.
  intros byteRate blockAlign. unfold createWAVHeader.
  fold byteRate. fold blockAlign.
  unfold bind, writeUInt32LE, writeUInt16LE, writeUIntLE, Buffer_write.
  change (in_range 4 16) with true. change (in_range 2 1) with true.
  generalize (JS.trunc (inject_Z (36 + dataSize))) (JS.trunc (inject_Z channels))
    (JS.trunc (inject_Z sampleRate)) (JS.trunc byteRate) (JS.trunc blockAlign)
    (JS.trunc (inject_Z bitsPerSample)) (JS.trunc (inject_Z dataSize)).
  intros v1 v2 v3 v4 v5 v6 v7.
  destruct (in_range 4 (inject_Z (36 + dataSize))); [| reflexivity].
  destruct (in_range 2 (inject_Z channels)); [| reflexivity].
  destruct (in_range 4 (inject_Z sampleRate)); [| reflexivity].
  destruct (in_range 4 byteRate); [| reflexivity].
  destruct (in_range 2 blockAlign); [| reflexivity].
  destruct (in_range 2 (inject_Z bitsPerSample)); [| reflexivity].
  destruct (in_range 4 (inject_Z dataSize)); [| reflexivity].
  reflexivity.
Qed.

Lemma le_value_16 (v : Z) :
  0 <= v < 2 ^ 16 ->
  b2z (z2b (v / 2 ^ 0)) + 256 * (b2z (z2b (v / 2 ^ 8)) + 256 * 0) = v.
Proof.
  intros Hv. rewrite !b2z_z2b. change (2 ^ 0) with 1. change (2 ^ 8) with 256.
  rewrite Z.div_1_r.
  pose proof (Z.div_mod v 256 ltac:(lia)).
  assert (0 <= v / 256 < 256).
  { split; [apply Z.div_pos; lia | apply Z.div_lt_upper_bound; lia]. }
  rewrite (Z.mod_small (v / 256)) by lia. lia.
Qed.

Lemma le_value_32 (v : Z) :
  0 <= v < 2 ^ 32 ->
  b2z (z2b (v / 2 ^ 0))
  + 256 * (b2z (z2b (v / 2 ^ 8))
           + 256 * (b2z (z2b (v / 2 ^ 16)) + 256 * (b2z (z2b (v / 2 ^ 24)) + 256 * 0))) = v.
Proof.
  intros Hv. pose proof (be32_value v Hv) as Hbe.
  change (2 ^ 0) with 1. rewrite Z.div_1_r. lia.
Qed.

Lemma wav_fields_in_range (dataSize sampleRate channels bitsPerSample : Z) :
  wav_fields_fit dataSize sampleRate channels bitsPerSample
  <-> in_range 4 (inject_Z (36 + dataSize)) && in_range 2 (inject_Z channels)
       && in_range 4 (inject_Z sampleRate)
       && in_range 4 (inject_Z sampleRate * inject_Z channels * (inject_Z bitsPerSample / 8))
       && in_range 2 (inject_Z channels * (inject_Z bitsPerSample / 8))
       && in_range 2 (inject_Z bitsPerSample)
       && in_range 4 (inject_Z dataSize) = true.
Proof.
  rewrite !andb_true_iff, !in_range_Z, in_range_product, in_range_product3.
  unfold wav_fields_fit. change (8 * Z.of_nat 4) with 32. change (8 * Z.of_nat 2) with 16.
  split.
  - intros (Hd & Hs & Hc & Hb & Hcb & Hscb).
    assert (0 <= channels * bitsPerSample) by (apply Z.mul_nonneg_nonneg; lia).
    assert (0 <= sampleRate * channels * bitsPerSample)
      by (rewrite <- Z.mul_assoc; apply Z.mul_nonneg_nonneg; lia).
    repeat split; lia.
  - intros ((((((Hd1 & Hc) & Hs) & Hscb) & Hcb) & Hb) & Hd). repeat split; lia.
Qed.

Lemma le_value_2 (v : Z) : 0 <= v < 2 ^ 16 -> le_value (le_bytes 2 v) = v.
Proof. exact (le_value_16 v). Qed.

Lemma le_value_4 (v : Z) : 0 <= v < 2 ^ 32 -> le_value (le_bytes 4 v) = v.
Proof. exact (le_value_32 v). Qed.

Ltac explicit_bytes :=
  repeat match goal with
         | H : length ?l = _ |- _ =>
             is_var l; destruct l as [| ? l]; cbn [length] in H;
             [first [discriminate H | clear H] | first [discriminate H | injection H as H]]
         end.

(** The fields of a buffer laid out as a WAV header is. *)
Lemma header_read_back (riff size1 wavefmt size2 format channels rate byteRate blockAlign
    bits data size3 : Buffer) :
  length riff = 4%nat -> length size1 = 4%nat -> length wavefmt = 8%nat ->
  length size2 = 4%nat -> length format = 2%nat -> length channels = 2%nat ->
  length rate = 4%nat -> length byteRate = 4%nat -> length blockAlign = 2%nat ->
  length bits = 2%nat -> length data = 4%nat -> length size3 = 4%nat ->
  let header := riff ++ size1 ++ wavefmt ++ size2 ++ format ++ channels ++ rate
                ++ byteRate ++ blockAlign ++ bits ++ data ++ size3 in
  length header = 44%nat /\
  slice header 0 4 = riff /\
  readUIntLE 4 header 4 = le_value size1 /\
  slice header 8 16 = wavefmt /\
  readUIntLE 4 header 16 = le_value size2 /\
  readUIntLE 2 header 20 = le_value format /\
  readUIntLE 2 header 22 = le_value channels /\
  readUIntLE 4 header 24 = le_value rate /\
  readUIntLE 4 header 28 = le_value byteRate /\
  readUIntLE 2 header 32 = le_value blockAlign /\
  readUIntLE 2 header 34 = le_value bits /\
  slice header 36 40 = data /\
  readUIntLE 4 header 40 = le_value size3.
Proof.
  intros. explicit_bytes. repeat split; reflexivity.
Qed.

(** X15: when every field fits, [createWAVHeader] returns a header of 44
    bytes from which each field reads back: the tags, the sizes, the
    format and, rounded down to whole numbers, the byte rate and the
    block size. *)
Theorem createWAVHeader_fields (dataSize sampleRate channels bitsPerSample : Z) :
  wav_fields_fit dataSize sampleRate channels bitsPerSample ->
  exists header,
    createWAVHeader dataSize sampleRate channels bitsPerSample = Returned header /\
    length header = 44%nat /\
    slice header 0 4 = list_byte_of_string "RIFF" /\
    readUIntLE 4 header 4 = 36 + dataSize /\
    slice header 8 16 = list_byte_of_string "WAVEfmt " /\
    readUIntLE 4 header 16 = 16 /\
    readUIntLE 2 header 20 = 1 /\
    readUIntLE 2 header 22 = channels /\
    readUIntLE 4 header 24 = sampleRate /\
    readUIntLE 4 header 28 = sampleRate * channels * bitsPerSample / 8 /\
    readUIntLE 2 header 32 = channels * bitsPerSample / 8 /\
    readUIntLE 2 header 34 = bitsPerSample /\
    slice header 36 40 = list_byte_of_string "data" /\
    readUIntLE 4 header 40 = dataSize.
Proof.
  intros Hfit. pose proof Hfit as (Hd & Hs & Hc & Hb & Hcb & Hscb).
  pose proof (createWAVHeader_run dataSize sampleRate channels bitsPerSample) as Hrun.
  cbv zeta in Hrun. apply wav_fields_in_range in Hfit. rewrite Hfit in Hrun.
  assert (H0cb : 0 <= channels * bitsPerSample) by (apply Z.mul_nonneg_nonneg; lia).
  assert (H0scb : 0 <= sampleRate * channels * bitsPerSample)
    by (rewrite <- Z.mul_assoc; apply Z.mul_nonneg_nonneg; lia).
  rewrite !trunc_inject_Z, trunc_product, trunc_product3 in Hrun by assumption.
  assert (Hbr : 0 <= sampleRate * channels * bitsPerSample / 8 < 2 ^ 32).
  { split; [apply Z.div_pos; lia | apply Z.div_lt_upper_bound; lia]. }
  assert (Hba : 0 <= channels * bitsPerSample / 8 < 2 ^ 16).
  { split; [apply Z.div_pos; lia | apply Z.div_lt_upper_bound; lia]. }
  eexists. split; [exact Hrun |].
  pose proof (header_read_back (list_byte_of_string "RIFF") (le_bytes 4 (36 + dataSize))
                (list_byte_of_string "WAVEfmt ") (le_bytes 4 16) (le_bytes 2 1)
                (le_bytes 2 channels) (le_bytes 4 sampleRate)
                (le_bytes 4 (sampleRate * channels * bitsPerSample / 8))
                (le_bytes 2 (channels * bitsPerSample / 8)) (le_bytes 2 bitsPerSample)
                (list_byte_of_string "data") (le_bytes 4 dataSize)
                eq_refl eq_refl eq_refl eq_refl eq_refl eq_refl eq_refl eq_refl eq_refl
                eq_refl eq_refl eq_refl) as Hread.
  cbv zeta in Hread.
  rewrite !le_value_4, !le_value_2 in Hread by lia.
  exact Hread.
Qed.

(** X16: [createWAVHeader] throws a [RangeError], and returns no header,
    exactly when a field does not fit: a negative value, more than
    [2^32 - 37] bytes of data, a rate above [2^32 - 1], more than 65535
    channels or bits, a block size [channels * bitsPerSample / 8] above
    65535, a fraction above it included, or a byte rate
    [sampleRate * channels * bitsPerSample / 8] above [2^32 - 1]. *)
Theorem createWAVHeader_range (dataSize sampleRate channels bitsPerSample : Z) :
  createWAVHeader dataSize sampleRate channels bitsPerSample = Threw RangeError
  <-> ~ (0 <= dataSize <= 2 ^ 32 - 37 /\ 0 <= sampleRate <= 2 ^ 32 - 1 /\
         0 <= channels <= 65535 /\ 0 <= bitsPerSample <= 65535 /\
         channels * bitsPerSample <= 8 * 65535 /\
         sampleRate * channels * bitsPerSample <= 8 * (2 ^ 32 - 1)).
Proof.
  assert (Hfit : wav_fields_fit dataSize sampleRate channels bitsPerSample
                 <-> 0 <= dataSize <= 2 ^ 32 - 37 /\ 0 <= sampleRate <= 2 ^ 32 - 1 /\
                     0 <= channels <= 65535 /\ 0 <= bitsPerSample <= 65535 /\
                     channels * bitsPerSample <= 8 * 65535 /\
                     sampleRate * channels * bitsPerSample <= 8 * (2 ^ 32 - 1))
    by (unfold wav_fields_fit; lia).
  rewrite <- Hfit.
  pose proof (createWAVHeader_run dataSize sampleRate channels bitsPerSample) as Hrun.
  cbv zeta in Hrun. rewrite wav_fields_in_range.
  destruct (_ && _) in Hrun |- *; rewrite Hrun; split.
  - discriminate.
  - intros H. destruct H. reflexivity.
  - intros _. discriminate.
  - reflexivity.
Qed.

(** ** The conversion to 16 bits of the lab scripts *)

Lemma toInt16_in_range (q : Q) :
  - 32768 <= JS.trunc q <= 32767 -> JS.toInt16 (JS.Fin q) = JS.trunc q.
Proof.
  intros H. unfold JS.toInt16. rewrite Z.mod_small; lia.
Qed.

Lemma lab_int16_against_decoder (x : JS.num) :
  - 32768 <= lab_int16 x <= 32767 /\
  (if negative x then lab_int16 x <= int16_of_sample x
   else lab_int16 x = int16_of_sample x).
Proof.
  destruct x as [| | | q];
    [vm_compute; repeat split; congruence | vm_compute; repeat split; congruence
    | vm_compute; repeat split; congruence |].
  pose proof (int16_of_sample_range (JS.Fin q)) as Hrange.
  unfold lab_int16, JS.min, JS.of_Z, int16_of_sample in *.
  change (inject_Z 1) with 1%Q. change (inject_Z (-1)) with (-1)%Q.
  destruct (Qle_bool 1 q) eqn:Hhi.
  { apply Qle_bool_iff in Hhi. cbn [negative].
    assert (H0 : Qle_bool 0 q = true).
    { apply Qle_bool_iff. apply Qle_trans with 1%Q; [discriminate | exact Hhi]. }
    rewrite H0. cbn [negb]. vm_compute. repeat split; congruence. }
  unfold JS.max. destruct (Qle_bool (-1) q) eqn:Hlo.
  - cbn [negative]. apply Qle_bool_iff in Hlo. apply Qle_bool_false in Hhi.
    destruct (Qle_bool 0 q) eqn:H0; cbn [negb JS.scale].
    + change (inject_Z 32767) with 32767%Q. rewrite toInt16_in_range by lia. lia.
    + apply Qle_bool_false in H0.
      assert (Ht : - 32768 <= JS.trunc (q * inject_Z 32768) <= JS.trunc (q * 32767)).
      { split.
        - change (- 32768) with (JS.trunc ((-1) * inject_Z 32768)).
          apply trunc_monotone. apply Qmult_le_compat_r; [exact Hlo | discriminate].
        - apply trunc_monotone.
          destruct q as [n den]. unfold Qlt in H0. unfold Qle, Qmult, inject_Z.
          cbn [Qnum Qden] in *. nia. }
      rewrite toInt16_in_range by lia. lia.
  - apply Qle_bool_false in Hlo. cbn [negative].
    assert (H0 : Qle_bool 0 q = false).
    { destruct (Qle_bool 0 q) eqn:H0; [| reflexivity].
      apply Qle_bool_iff in H0. exfalso. apply (Qlt_irrefl q).
      apply Qlt_le_trans with (-1)%Q; [exact Hlo |].
      apply Qle_trans with 0%Q; [discriminate | exact H0]. }
    rewrite H0. cbn [negb]. vm_compute. repeat split; congruence.
Qed.

(** X17: the lab scripts convert as [decodeInt16] does but for the negative
    samples, which they scale by 32768: every value lies between -32768
    and 32767, is the value of [decodeInt16] for a sample that is not
    negative, and is that value or a lower one for a negative sample. *)
Theorem lab_pcm16_against_decoder (allPcm : list JS.num) :
  lab_pcm16 allPcm = map lab_int16 allPcm /\
  forall i x, allPcm !! i = Some x ->
    exists v, lab_pcm16 allPcm !! i = Some v /\
              - 32768 <= v <= 32767 /\
              (if negative x then v <= int16_of_sample x else v = int16_of_sample x).
Proof.
  assert (Hmap : lab_pcm16 allPcm = map lab_int16 allPcm).
  { unfold lab_pcm16. apply for_upto_fill_map.
    intros i x Hx. rewrite (element_lookup _ _ _ Hx). reflexivity. }
  split; [exact Hmap |].
  intros i x Hx. exists (lab_int16 x). split.
  - rewrite Hmap, list_lookup_fmap, Hx. reflexivity.
  - apply lab_int16_against_decoder.
Qed.

(** ** The ASC for implicit HE-AAC *)

Lemma he_second_byte (channel_count : Z) :
  b2z (z2b (JS.bor 0x80 (JS.shl channel_count 3)))
  = Z.lor 128 (8 * (channel_count mod 32)).
Proof.
  rewrite b2z_z2b. unfold JS.bor, JS.shl.
  change 256 with (2 ^ 8). rewrite <- Z.land_ones by lia.
  rewrite Z.land_lor_distr_l, !Z.land_ones by lia.
  change (JS.toInt32 128 mod 2 ^ 8) with 128. f_equal.
  rewrite !toInt32_mod by lia.
  change (JS.toUint32 3 mod 32) with 3. rewrite Z.shiftl_mul_pow2 by lia.
  change (2 ^ 8) with (2 ^ 5 * 2 ^ 3). rewrite Z.mul_mod_distr_r by lia.
  rewrite toInt32_mod by lia. change (2 ^ 5) with 32. change (2 ^ 3) with 8. lia.
Qed.

Lemma he_fields (k : Z) :
  0 <= k < 32 ->
  let w := 256 * 19 + Z.lor 128 (8 * k) in
  (w / 2 ^ 11, (w / 2 ^ 7) mod 2 ^ 4, (w / 2 ^ 3) mod 2 ^ 4) = (2, 7, k mod 16).
Proof.
  intros Hk.
  assert (Hall : all_below 32
                   (fun k => let w := 256 * 19 + Z.lor 128 (8 * k) in
                             (w / 2 ^ 11 =? 2) && ((w / 2 ^ 7) mod 2 ^ 4 =? 7)
                             && ((w / 2 ^ 3) mod 2 ^ 4 =? k mod 16)) = true)
    by (vm_compute; reflexivity).
  pose proof (all_below_true _ _ Hall k Hk) as H. cbv zeta in H.
  apply andb_true_iff in H as [H H3]. apply andb_true_iff in H as [H1 H2].
  apply Z.eqb_eq in H1, H2, H3. cbv zeta. rewrite H1, H2, H3. reflexivity.
Qed.

(** C4, as the code has it: for ["mp4a.40.5"] the decoder is configured
    with the two bytes [0x13] and [0x80 | (channels << 3)], the second cut
    to a byte, whatever the rate of the track: object type 2 (AAC-LC),
    frequency index 7 (22050 Hz) and, as channel configuration, the low
    four bits of the channel count, which is the count itself below 16.
    For a track at 44100 Hz with 2 channels these are [0x13] and [0x90],
    and index 7 is the index of half the rate.  The rate is halved and
    looked up only for the four-byte configuration that is made first and
    then replaced: its first byte carries object type 5 and the upper bits
    of the index of half the rate (15 when the table has no such rate). *)
Theorem asc_for_implicit_he (sample_rate channel_count : Z) :
  asc_from_codec "mp4a.40.5" sample_rate channel_count
  = Some [x13; z2b (JS.bor 0x80 (JS.shl channel_count 3))] /\
  asc_fields [x13; z2b (JS.bor 0x80 (JS.shl channel_count 3))]
  = (2, 7, channel_count mod 16) /\
  asc_from_codec "mp4a.40.5" 44100 2 = Some [x13; x90] /\
  at_index sampleRates 7 = Some 22050 /\
  indexOf sampleRates (JS.div 44100 2) = 7 /\
  (exists b1 b3,
     audioConfig_from_codec "mp4a.40.5" sample_rate channel_count
     = Some [z2b (JS.bor (JS.shl 5 3)
                         (JS.shr (let i := indexOf sampleRates (JS.div sample_rate 2) in
                                  if i =? -1 then 15 else i) 1)); b1; x56; b3]).
Proof.
  split; [apply asc_for_he_fixed |]. split.
  - unfold asc_fields.
    change (byteAt [x13; z2b (JS.bor 128 (JS.shl channel_count 3))] 0) with 19.
    change (byteAt [x13; z2b (JS.bor 128 (JS.shl channel_count 3))] 1)
      with (b2z (z2b (JS.bor 128 (JS.shl channel_count 3)))).
    rewrite he_second_byte.
    pose proof (he_fields (channel_count mod 32)
                  (Z.mod_pos_bound channel_count 32 ltac:(lia))) as H.
    cbv zeta in H. rewrite H.
    assert (Hmod : (channel_count mod 32) mod 16 = channel_count mod 16).
    { pose proof (Z.div_mod channel_count 32 ltac:(lia)).
      pose proof (Z.div_mod (channel_count mod 32) 16 ltac:(lia)).
      pose proof (Z.mod_pos_bound (channel_count mod 32) 16 ltac:(lia)).
      apply (Z.mod_unique _ _ (2 * (channel_count / 32) + channel_count mod 32 / 16));
        lia. }
    rewrite Hmod. reflexivity.
  - split; [vm_compute; reflexivity |]. split; [reflexivity |].
    split; [vm_compute; reflexivity |]. apply he_fallback.
Qed.

(** ** The properties at work *)

Lemma parseADTS_layout_witness :
  exists h,
    parseADTS [xff; xf1; x50; x80; x01; x3f; xfc; xde; xad] 0 = Some h /\
    protectionAbsent h = 1 /\ profile h = 2 /\ sampleRateIndex h = 4 /\
    channelConfig h = 2 /\ frameLength h = 9.
Proof.
  destruct (parseADTS [xff; xf1; x50; x80; x01; x3f; xfc; xde; xad] 0) as [h |] eqn:Hh;
    [| vm_compute in Hh; discriminate].
  exists h. split; [reflexivity |].
  exact (parseADTS_layout [xff; xf1; x50; x80; x01; x3f; xfc; xde; xad] 0 h Hh).
Defined.

Lemma parseADTS_ranges_witness :
  exists h,
    parseADTS [xff; xf1; x50; x80; x01; x3f; xfc; xde; xad] 0 = Some h /\
    1 <= profile h <= 4 /\ 0 <= sampleRateIndex h <= 15 /\ 0 <= channelConfig h <= 7 /\
    0 <= frameLength h <= 8191 /\ - 9 <= dataLength h <= 8184.
Proof.
  destruct (parseADTS [xff; xf1; x50; x80; x01; x3f; xfc; xde; xad] 0) as [h |] eqn:Hh;
    [| vm_compute in Hh; discriminate].
  exists h. split; [reflexivity |].
  destruct (parseADTS_ranges [xff; xf1; x50; x80; x01; x3f; xfc; xde; xad] 0 h Hh)
    as (_ & Hp & _ & Hs & _ & Hc & _ & _ & _ & Hf & _ & Hd).
  exact (conj Hp (conj Hs (conj Hc (conj Hf Hd)))).
Defined.

Lemma extractASC_matches_header_witness :
  exists h asc,
    parseADTS [xff; xf1; x50; x80; x01; x3f; xfc; xde; xad] 0 = Some h /\
    _extractASC [xff; xf1; x50; x80; x01; x3f; xfc; xde; xad] = Returned asc /\
    length asc = 2%nat /\
    asc_fields asc = (profile h, sampleRateIndex h, channelConfig h).
Proof.
  destruct (parseADTS [xff; xf1; x50; x80; x01; x3f; xfc; xde; xad] 0) as [h |] eqn:Hh;
    [| vm_compute in Hh; discriminate].
  destruct (extractASC_matches_header [xff; xf1; x50; x80; x01; x3f; xfc; xde; xad] h Hh)
    as (asc & Hasc & Hlen & Hfields).
  exists h, asc. repeat split; assumption.
Defined.

Lemma frame_payload_witness :
  _stripADTS (slice [x00; xff; xf1; x50; x80; x01; x3f; xfc; xde; xad; x00] 1 (1 + 9))
  = slice [x00; xff; xf1; x50; x80; x01; x3f; xfc; xde; xad; x00] (1 + 7) (1 + 9) /\
  (1 + 9 <= Z.of_nat (length [x00; xff; xf1; x50; x80; x01; x3f; xfc; xde; xad; x00]) ->
   Z.of_nat (length (_stripADTS
                       (slice [x00; xff; xf1; x50; x80; x01; x3f; xfc; xde; xad; x00]
                          1 (1 + 9)))) = 2).
Proof.
  apply (frame_payload [x00; xff; xf1; x50; x80; x01; x3f; xfc; xde; xad; x00] 1
           {| syncword := 0xFFF; profile := 2; profileName := "AAC LC";
              sampleRateIndex := 4; adts_sampleRate := Some 44100;
              channelConfig := 2; adts_channels := 2; frameLength := 9;
              headerSize := 7; protectionAbsent := 1; dataLength := 2 |});
    [vm_compute; reflexivity | vm_compute; discriminate].
Defined.

Lemma findBox_first_match_witness :
  findBox 2 (toString_ascii [x6d; x6f; x6f; x76])
    (boxes_bytes [([x66; x74; x79; x70], [x00])]
     ++ be32 10 ++ [x6d; x6f; x6f; x76] ++ [x01; x02; x03])
  = Some (Returned (Some {| box_type := toString_ascii [x6d; x6f; x6f; x76];
                            box_size := 10;
                            box_data := take (Z.to_nat (10 - 8)) [x01; x02; x03] |})).
Proof.
  apply (findBox_first_match [x6d; x6f; x6f; x76] 10 [([x66; x74; x79; x70], [x00])]
           [x01; x02; x03] 2).
  - constructor; [split; reflexivity | constructor].
  - constructor; [vm_compute; discriminate | constructor].
  - reflexivity.
  - split; [vm_compute; discriminate | reflexivity].
  - cbn. lia.
Defined.

Lemma findBox_no_match_witness :
  findBox 2 "moov" (boxes_bytes [([x66; x74; x79; x70], [x00])]) = Some (Returned None).
Proof.
  apply (findBox_no_match "moov" [([x66; x74; x79; x70], [x00])] 2).
  - constructor; [split; reflexivity | constructor].
  - constructor; [vm_compute; discriminate | constructor].
  - cbn. lia.
Defined.

Lemma findBox_zero_size_loops_witness :
  findBox 64 "esds"
    (boxes_bytes [] ++ be32 0 ++ [x00; x00; x00; x01; x00; x00; x00; x24; x6d; x70; x34; x61])
  = None.
Proof.
  apply (findBox_zero_size_loops "esds" []
           [x00; x00; x00; x01; x00; x00; x00; x24; x6d; x70; x34; x61] 64).
  - constructor.
  - constructor.
  - vm_compute. discriminate.
Defined.

Lemma findBoxPath_nested_witness :
  findBoxPath 1 (map toString_ascii [[x6d; x6f; x6f; x76]; [x74; x72; x61; x6b]])
    (nested_bytes [[x6d; x6f; x6f; x76]; [x74; x72; x61; x6b]] [x2a])
  = Some (Returned (Some [x2a])).
Proof.
  apply (findBoxPath_nested [[x6d; x6f; x6f; x76]; [x74; x72; x61; x6b]] [x2a] 1).
  - repeat constructor.
  - reflexivity.
  - lia.
Defined.

Lemma createWAVHeader_fields_witness :
  exists header,
    createWAVHeader 1024 44100 2 16 = Returned header /\
    length header = 44%nat /\
    readUIntLE 4 header 4 = 36 + 1024 /\
    readUIntLE 2 header 22 = 2 /\
    readUIntLE 4 header 24 = 44100 /\
    readUIntLE 4 header 28 = 44100 * 2 * 16 / 8 /\
    readUIntLE 2 header 32 = 2 * 16 / 8 /\
    readUIntLE 2 header 34 = 16 /\
    readUIntLE 4 header 40 = 1024.
Proof.
  destruct (createWAVHeader_fields 1024 44100 2 16)
    as (header & Hret & Hlen & _ & Hsize & _ & _ & _ & Hch & Hrate & Hbr & Hba & Hbits & _ & Hd).
  - unfold wav_fields_fit. repeat split; (reflexivity || (vm_compute; discriminate)).
  - exists header. repeat split; assumption.
Defined.

Lemma decodePlanar_total_witness :
  exists planar,
    fst (decodePlanar grow_malloc keep_free (answering_decode 0x42000003 four_samples)
           [x01; x02] ready_decoder) = Returned (Some planar) /\
    length (Planar.channelData planar) = 2%nat.
Proof.
  destruct (decode grow_malloc keep_free (answering_decode 0x42000003 four_samples)
              [x01; x02] ready_decoder) as [[[r |] | e] d'] eqn:Hdec.
  - destruct (decodePlanar_total grow_malloc keep_free
                (answering_decode 0x42000003 four_samples) [x01; x02] ready_decoder d' r Hdec)
      as (planar & Heq & _ & _ & Hlen & _).
    exists planar. rewrite Heq. split; [reflexivity |].
    rewrite Hlen. vm_compute in Hdec. injection Hdec as <- _. reflexivity.
  - vm_compute in Hdec. discriminate.
  - vm_compute in Hdec. discriminate.
Defined.

Lemma configure_outcome_witness :
  exists r d',
    configure grow_malloc keep_free (answering_init 0)
      [xff; xf1; x50; x80; x01; x3f; xfc; xde; xad] true fresh_decoder = (r, d') /\
    this_sampleRate d' = this_sampleRate fresh_decoder /\
    this_channels d' = this_channels fresh_decoder /\
    ((r = Returned tt /\ this_initialized d' = true /\
      outstanding d' = outstanding fresh_decoder) \/
     (r = Threw (Error "Failed to initialize FAAD2 decoder") /\
      this_initialized d' = this_initialized fresh_decoder /\
      outstanding d' = outstanding fresh_decoder) \/
     (r = Threw RangeError /\ this_initialized d' = this_initialized fresh_decoder /\
      exists p n, outstanding d' = (p, n) :: outstanding fresh_decoder)).
Proof.
  destruct (configure grow_malloc keep_free (answering_init 0)
              [xff; xf1; x50; x80; x01; x3f; xfc; xde; xad] true fresh_decoder)
    as [r d'] eqn:Hconf.
  exists r, d'. split; [reflexivity |].
  exact (configure_outcome grow_malloc keep_free (answering_init 0)
           [xff; xf1; x50; x80; x01; x3f; xfc; xde; xad] true fresh_decoder d'
           empty_module r eq_refl Hconf).
Defined.

Lemma invoke_engine_stages_frame_witness :
  exists staged,
    read_bytes (HEAPU8 staged) 65536 (length [x01; x02] + 64)
    = [x01; x02] ++ replicate 64 x00 /\
    byteLength staged = 65608.
Proof.
  destruct (invoke_engine_stages_frame grow_malloc keep_free (answering_decode 0 [])
              [x01; x02] empty_module 65536 {| HEAPU8 := ∅; byteLength := 65608 |} eq_refl)
    as [Hstaged _].
  destruct Hstaged as (staged & Hread & Hlen & _).
  - vm_compute. discriminate.
  - vm_compute. discriminate.
  - exists staged. split; [exact Hread | exact Hlen].
Defined.

Lemma decodeInt16_keeps_order_witness :
  exists r r16 d',
    decode grow_malloc keep_free (answering_decode 0x42000004 four_samples)
      [x01; x02] ready_decoder = (Returned (Some r), d') /\
    decodeInt16 grow_malloc keep_free (answering_decode 0x42000004 four_samples)
      [x01; x02] ready_decoder = (Returned (Some r16), d') /\
    pcm r16 !! 1%nat = Some (- 32767) /\ pcm r16 !! 2%nat = Some 16383 /\
    - 32767 <= 16383.
Proof.
  destruct (decode grow_malloc keep_free (answering_decode 0x42000004 four_samples)
              [x01; x02] ready_decoder) as [[[r |] | e] d'] eqn:Hdec;
    [| vm_compute in Hdec; discriminate | vm_compute in Hdec; discriminate].
  destruct (decodeInt16 grow_malloc keep_free (answering_decode 0x42000004 four_samples)
              [x01; x02] ready_decoder) as [[[r16 |] | e] d16] eqn:H16;
    [| vm_compute in H16; discriminate | vm_compute in H16; discriminate].
  assert (Hd : d16 = d').
  { pose proof Hdec as Hdec'. pose proof H16 as H16'.
    vm_compute in Hdec'. vm_compute in H16'.
    injection Hdec' as _ <-. injection H16' as _ <-. reflexivity. }
  subst d16.
  assert (Hr : pcm r = [JS.Fin 1; JS.Fin (-1); JS.Fin (1 # 2); JS.Fin 2]).
  { pose proof Hdec as Hdec'. vm_compute in Hdec'. injection Hdec' as <- _. reflexivity. }
  assert (Hr16 : pcm r16 = [32767; - 32767; 16383; 32767]).
  { pose proof H16 as H16'. vm_compute in H16'. injection H16' as <- _. reflexivity. }
  exists r, r16, d'. split; [reflexivity |]. split; [reflexivity |].
  split; [rewrite Hr16; reflexivity |]. split; [rewrite Hr16; reflexivity |].
  apply (decodeInt16_keeps_order grow_malloc keep_free
           (answering_decode 0x42000004 four_samples) [x01; x02] ready_decoder d' r r16
           1%nat 2%nat (-1) (1 # 2) (- 32767) 16383 Hdec H16).
  - rewrite Hr. reflexivity.
  - rewrite Hr. reflexivity.
  - discriminate.
  - rewrite Hr16. reflexivity.
  - rewrite Hr16. reflexivity.
Defined.

Lemma testHEAAC_keeps_one_frame_witness :
  exists w d',
    walk_loop grow_malloc keep_free (answering_decode 0x42000004 four_samples) 2
      [x01; x02] walk_start ready_decoder = Some (w, d') /\
    ((walk_frameCount w = 0 /\ walk_pcmChunks w = [] /\ walk_totalSamples w = Some 0 /\
      exists last, walk_offset w = Some last /\ Z.of_nat (length [x01; x02]) <= last) \/
     (walk_frameCount w = 1 /\ length (walk_pcmChunks w) = 1%nat /\
      walk_offset w = None /\ walk_totalSamples w = None)).
Proof.
  apply (testHEAAC_keeps_one_frame grow_malloc keep_free
           (answering_decode 0x42000004 four_samples) [x01; x02] ready_decoder 2).
  vm_compute. discriminate.
Defined.

Lemma testHEAAC_v2_ends_witness :
  exists w d',
    frames_loop grow_malloc keep_free (answering_decode 0x42000004 four_samples) 10
      [xff; xf1; x50; x80; x01; x3f; xfc; xde; xad] frames_start ready_decoder
    = Some (w, d') /\
    0 <= frames_frameCount w <= 50 /\
    length (frames_pcmChunks w) = Z.to_nat (frames_frameCount w) /\
    length (frames_totalSamples w) = Z.to_nat (frames_frameCount w) /\
    (frames_frameCount w < 50 ->
     parseADTS [xff; xf1; x50; x80; x01; x3f; xfc; xde; xad] (frames_offset w) = None).
Proof.
  apply (testHEAAC_v2_ends grow_malloc keep_free
           (answering_decode 0x42000004 four_samples)
           [xff; xf1; x50; x80; x01; x3f; xfc; xde; xad] ready_decoder 10).
  - intros offset h Hparse.
    destruct (parseADTS_offset _ _ _ Hparse) as [Hlo Hhi]. cbn [length] in Hhi.
    assert (Hcases : offset = 0 \/ offset = 1 \/ offset = 2) by lia.
    destruct Hcases as [-> | [-> | ->]]; vm_compute in Hparse;
      [injection Hparse as <-; reflexivity | discriminate | discriminate].
  - cbn [length]. lia.
Defined.

Lemma testHEAAC_v2_stalls_witness :
  frames_loop grow_malloc keep_free (answering_decode 0 []) 100
    [xff; xf1; x50; x80; x00; x1f; xfc] frames_start ready_decoder = None.
Proof.
  apply (testHEAAC_v2_stalls grow_malloc keep_free (answering_decode 0 [])
           [xff; xf1; x50; x80; x00; x1f; xfc]
           {| syncword := 0xFFF; profile := 2; profileName := "AAC LC";
              sampleRateIndex := 4; adts_sampleRate := Some 44100;
              channelConfig := 2; adts_channels := 2; frameLength := 0;
              headerSize := 7; protectionAbsent := 1; dataLength := -7 |} ready_decoder 100).
  - intros mem inPtr len outPtr outputSize. cbn. lia.
  - vm_compute. reflexivity.
  - reflexivity.
Defined.

Lemma decode_releases_regions_witness :
  (exists d',
      decode grow_malloc keep_free (answering_decode 0 []) [x01; x02] ready_decoder
      = (Returned None, d') /\
      outstanding d' = outstanding ready_decoder) /\
  (exists d',
      no_output_run grow_malloc keep_free (answering_decode (-1) []) ready_decoder
        [[x01; x02]; [x03]] d' /\
      length (outstanding d') = 0%nat).
Proof.
  split.
  - destruct (decode_releases_regions grow_malloc keep_free (answering_decode 0 []))
      as (_ & _ & Hnull & _).
    apply (Hnull [x01; x02] ready_decoder 0); [vm_compute; reflexivity | lia].
  - destruct (decode_releases_regions grow_malloc keep_free (answering_decode (-1) []))
      as (_ & _ & _ & _ & _ & _ & Hrun).
    eexists. split.
    + eapply run_step with (packed := -1);
        [vm_compute; reflexivity | lia | apply surjective_pairing |].
      eapply run_step with (packed := -1);
        [vm_compute; reflexivity | lia | apply surjective_pairing |].
      apply run_done.
    + apply (Hrun ready_decoder [[x01; x02]; [x03]]); [| reflexivity].
      eapply run_step with (packed := -1);
        [vm_compute; reflexivity | lia | apply surjective_pairing |].
      eapply run_step with (packed := -1);
        [vm_compute; reflexivity | lia | apply surjective_pairing |].
      apply run_done.
Defined.

(** A positive status word whose samples do not fit linear memory: the
    call throws and the output region, at 65608, stays allocated. *)
Lemma decode_leak_counterexample :
  packed_status grow_malloc keep_free (answering_decode 0x42FFFFFF four_samples)
    [x01; x02] ready_decoder = Some 0x42FFFFFF /\
  outstanding ready_decoder = [] /\
  (exists d',
      decode grow_malloc keep_free (answering_decode 0x42FFFFFF four_samples)
        [x01; x02] ready_decoder = (Threw RangeError, d') /\
      outstanding d' = [(65608, 32768)]) /\
  ~ released_on_every_exit grow_malloc keep_free (answering_decode 0x42FFFFFF four_samples).
Proof.
  assert (Hthrow : exists d',
             decode grow_malloc keep_free (answering_decode 0x42FFFFFF four_samples)
               [x01; x02] ready_decoder = (Threw RangeError, d') /\
             outstanding d' = [(65608, 32768)]).
  { eexists. split; [vm_compute; reflexivity | reflexivity]. }
  split; [vm_compute; reflexivity |]. split; [reflexivity |]. split; [exact Hthrow |].
  intros Hall. destruct Hthrow as (d' & Hdec & Hout).
  specialize (Hall _ _ _ _ Hdec). rewrite Hout in Hall. discriminate.
Qed.

Lemma decode_takes_status_as_is_witness :
  exists outPtr m1 r d',
    engine_call grow_malloc keep_free (answering_decode 0x42000003 four_samples)
      [x01; x02] ready_decoder = Some (0x42000003, outPtr, m1) /\
    decode grow_malloc keep_free (answering_decode 0x42000003 four_samples)
      [x01; x02] ready_decoder = (Returned (Some r), d') /\
    channels r = 2 /\ length (pcm r) = 3%nat /\ samplesPerChannel r = JS.Fin (3 # 2).
Proof.
  destruct (engine_call grow_malloc keep_free (answering_decode 0x42000003 four_samples)
              [x01; x02] ready_decoder) as [[[packed outPtr] m1] |] eqn:Hcall;
    [| vm_compute in Hcall; discriminate].
  assert (Hvalues : packed = 0x42000003 /\ outPtr = 65608 /\ byteLength (memory m1) = 98376).
  { pose proof Hcall as Hcopy. vm_compute in Hcopy. injection Hcopy as <- <- <-.
    repeat split. }
  destruct Hvalues as (-> & -> & Hlen).
  destruct (decode_takes_status_as_is grow_malloc keep_free
              (answering_decode 0x42000003 four_samples) [x01; x02] ready_decoder
              0x42000003 65608 m1 Hcall) as [Hfits _]; [lia |].
  eexists 65608, m1, _, _. split; [reflexivity |]. split.
  - apply Hfits. rewrite Hlen. vm_compute. repeat split; discriminate.
  - repeat split.
Defined.

Lemma decodePlanar_deinterleaves_witness :
  exists planar,
    fst (decodePlanar grow_malloc keep_free (answering_decode 0x42000004 four_samples)
           [x01; x02] ready_decoder) = Returned (Some planar) /\
    length (Planar.channelData planar) = 2%nat /\
    Planar.channelData planar
    = [[JS.Fin 1; JS.Fin (1 # 2)]; [JS.Fin (-1); JS.Fin 2]].
Proof.
  destruct (decode grow_malloc keep_free (answering_decode 0x42000004 four_samples)
              [x01; x02] ready_decoder) as [[[r |] | e] d'] eqn:Hdec.
  - destruct (decodePlanar_deinterleaves grow_malloc keep_free
                (answering_decode 0x42000004 four_samples) [x01; x02] ready_decoder d')
      as [Hsome _].
    destruct (Hsome r Hdec) as (planar & Heq & _ & _ & Hlen & _).
    exists planar. rewrite Heq. split; [reflexivity |]. split.
    + rewrite Hlen. vm_compute in Hdec. injection Hdec as <- _. reflexivity.
    + vm_compute in Heq. injection Heq as <- _. reflexivity.
  - vm_compute in Hdec. discriminate.
  - vm_compute in Hdec. discriminate.
Defined.

(** Three samples for two channels: [samplesPerChannel] is 3/2, each
    array has one sample and the third sample of [pcm] is in neither. *)
Lemma decodePlanar_rounds_counterexample :
  (exists r d',
      decode grow_malloc keep_free (answering_decode 0x42000003 four_samples)
        [x01; x02] ready_decoder = (Returned (Some r), d') /\
      channels r = 2 /\ samplesPerChannel r = JS.Fin (3 # 2) /\
      pcm r = [JS.Fin 1; JS.Fin (-1); JS.Fin (1 # 2)]) /\
  (exists planar d',
      decodePlanar grow_malloc keep_free (answering_decode 0x42000003 four_samples)
        [x01; x02] ready_decoder = (Returned (Some planar), d') /\
      Planar.channelData planar = [[JS.Fin 1]; [JS.Fin (-1)]]) /\
  ~ planar_lengths_as_reported grow_malloc keep_free
      (answering_decode 0x42000003 four_samples).
Proof.
  destruct (decode grow_malloc keep_free (answering_decode 0x42000003 four_samples)
              [x01; x02] ready_decoder) as [[[r |] | e] d'] eqn:Hdec;
    try (vm_compute in Hdec; discriminate).
  assert (Hr : channels r = 2 /\ samplesPerChannel r = JS.Fin (3 # 2) /\
               pcm r = [JS.Fin 1; JS.Fin (-1); JS.Fin (1 # 2)]).
  { pose proof Hdec as Hcopy. vm_compute in Hcopy. injection Hcopy as <- _. repeat split. }
  destruct (decodePlanar grow_malloc keep_free (answering_decode 0x42000003 four_samples)
              [x01; x02] ready_decoder) as [[[planar |] | e] d2] eqn:Hplanar;
    try (vm_compute in Hplanar; discriminate).
  assert (Hdata : Planar.channelData planar = [[JS.Fin 1]; [JS.Fin (-1)]]).
  { pose proof Hplanar as Hcopy. vm_compute in Hcopy. injection Hcopy as <- _. reflexivity. }
  split; [exists r, d'; split; [reflexivity | exact Hr] |].
  split; [exists planar, d2; split; [reflexivity | exact Hdata] |].
  intros Hall. destruct Hr as (Hc & Hspc & _).
  destruct (Hall [x01; x02] ready_decoder r d' Hdec ltac:(lia)) as (p & d3 & Hp & Hlen).
  rewrite Hplanar in Hp. injection Hp as <- _.
  specialize (Hlen 0%nat [JS.Fin 1]). rewrite Hdata, Hspc in Hlen.
  specialize (Hlen eq_refl). discriminate.
Qed.
